(** * The onecloud code generators, embedded in Rocq

    Two generators are covered: [model-api-gen] (file [apigen.go]), which
    projects model structs onto API structs, and [swagger-gen] (its
    generator file and [helper.go]), which matches method conventions and
    writes swagger route, parameter and response comment blocks.

    Go strings are byte strings, modelled by [string]; a Go [map] is a
    [gmap]; a [sets.String] is a [gset string].  A [*types.Type] that may be
    [nil] is an [option].  [klog.Fatalf] and run-time panics end the run and
    are results of type [failure]. *)

From Stdlib Require Import String Ascii List OrdersEx.
From stdpp Require Import base option list strings gmap sorting pretty.

Set Warnings "-register-all,-clear-no-such-hyp".
Local Open Scope string_scope.

(** ** Pieces of the Go standard library *)

Module Strings.

(** [strings.HasPrefix(s, prefix)] *)
Definition HasPrefix (s prefix : string) : bool := String.prefix prefix s.

(** [strings.TrimPrefix(s, prefix)] *)
Definition TrimPrefix (s prefix : string) : string :=
  if HasPrefix s prefix
  then String.substring (String.length prefix)
                        (String.length s - String.length prefix) s
  else s.

(** [strings.Join(elems, sep)] *)
Definition Join (elems : list string) (sep : string) : string :=
  String.concat sep elems.

(** [strings.Contains(s, substr)] *)
Fixpoint Contains (s substr : string) : bool :=
  String.prefix substr s ||
  match s with
  | EmptyString => false
  | String _ s' => Contains s' substr
  end.

(** The order [<] of Go on strings: byte-wise lexicographic. *)
Definition lt (a b : string) : Prop := String_as_OT.compare a b = Lt.
Definition le (a b : string) : Prop := String_as_OT.compare a b <> Gt.
Definition ltb (a b : string) : bool :=
  match String_as_OT.compare a b with Lt => true | _ => false end.

#[global] Instance le_dec : RelDecision le.
Proof. intros a b. unfold le. destruct (String_as_OT.compare a b); [left | left | right]; congruence. Defined.

#[global] Instance lt_dec : RelDecision lt.
Proof. intros a b. unfold lt. destruct (String_as_OT.compare a b); [right | left | right]; congruence. Defined.

(** One double quote, and one back quote. *)
Definition dquote : string := String "034"%char EmptyString.
Definition bquote : string := String "096"%char EmptyString.

End Strings.

(** ** [yunion.io/x/pkg/util/sets]: the string set *)

Module Sets.

Definition NewString (items : list string) : gset string := list_to_set items.

Definition Insert (s : gset string) (items : list string) : gset string :=
  s ∪ list_to_set items.

Definition Has (s : gset string) (item : string) : bool := bool_decide (item ∈ s).

(** [List] returns the members as a sorted slice ([sort.Sort] with [<]). *)
Definition List (s : gset string) : list string :=
  merge_sort Strings.le (elements s).

End Sets.

(** ** [k8s.io/gengo/types] *)

Module Types.

Inductive Kind :=
| Builtin | Struct | Map | Slice | Pointer | Alias | Interface
| Array | Chan | Func | DeclarationOf | Unknown | Unsupported | Protobuf.

(** [Kind] is a string type in gengo; these are its constants. *)
Definition Kind_string (k : Kind) : string :=
  match k with
  | Builtin => "Builtin" | Struct => "Struct" | Map => "Map"
  | Slice => "Slice" | Pointer => "Pointer" | Alias => "Alias"
  | Interface => "Interface" | Array => "Array" | Chan => "Chan"
  | Func => "Func" | DeclarationOf => "DeclarationOf" | Unknown => ""
  | Unsupported => "Unsupported" | Protobuf => "Protobuf"
  end.

#[global] Instance Kind_eq_dec : EqDecision Kind.
Proof. solve_decision. Defined.

Record Name := mkName {
  Name_Package : string;
  Name_Name : string;
  Name_Path : string }.

(** [func (n Name) String() string] *)
Definition Name_String (n : Name) : string :=
  if decide (Name_Package n = "") then Name_Name n
  else Name_Package n +:+ "." +:+ Name_Name n.

Record MemberOf (T : Type) := mkMember {
  Member_Name : string;
  Member_Embedded : bool;
  Member_CommentLines : list string;
  Member_Tags : string;
  Member_Type : T }.

Record SignatureOf (T : Type) := mkSignature {
  Signature_Receiver : option T;
  Signature_Parameters : list T;
  Signature_Results : list T;
  Signature_Variadic : bool;
  Signature_CommentLines : list string }.

(** [types.Type]; every pointer field is an option, [Methods] is a map.  A
    value is a finite tree: a type that reaches itself through its members,
    its element or its underlying type, which gengo holds as a cycle of
    pointers, is no value of this type. *)
Inductive Type_ := mkType {
  Type_Name : Name;
  Type_Kind : Kind;
  Type_CommentLines : list string;
  Type_SecondClosestCommentLines : list string;
  Type_Members : list (MemberOf Type_);
  Type_Elem : option Type_;
  Type_Key : option Type_;
  Type_Underlying : option Type_;
  Type_Methods : gmap string Type_;
  Type_Signature : option (SignatureOf Type_) }.

Definition Member := MemberOf Type_.
Definition Signature := SignatureOf Type_.

Arguments mkMember {T} _ _ _ _ _.
Arguments Member_Name {T} _.
Arguments Member_Embedded {T} _.
Arguments Member_CommentLines {T} _.
Arguments Member_Tags {T} _.
Arguments Member_Type {T} _.
Arguments mkSignature {T} _ _ _ _ _.
Arguments Signature_Receiver {T} _.
Arguments Signature_Parameters {T} _.
Arguments Signature_Results {T} _.
Arguments Signature_Variadic {T} _.
Arguments Signature_CommentLines {T} _.

(** [func (t *Type) String() string] *)
Definition Type_String (t : Type_) : string := Name_String (Type_Name t).

(** [func (m Member) String() string] *)
Definition Member_String (m : Member) : string :=
  Member_Name m +:+ " " +:+ Type_String (Member_Type m).

End Types.

(** [generator.SnippetWriter]: [sw.Do(format, args)] hands a template and
    its arguments to gengo.  The writer is modelled by the sequence of these
    calls; [args] is [nil] or the map [{"type": t}]. *)
Inductive Args :=
| NoArgs
| TypeArg (t : option Types.Type_).

(** ** Code outside the sources

    The generators call into libraries ([yunion.io/x/pkg/utils],
    [path/filepath], gengo's comment-tag parser) and into two helpers of
    this repository that live in other files ([common.InSourcePackage] and
    [isStructPointer]).  They are the fields of a class, so that every
    theorem holds whatever these functions compute. *)

Class Externals := {
  (** [utils.CamelSplit(str, sep)] *)
  CamelSplit : string -> string -> string;
  (** [filepath.Base(path)] *)
  filepath_Base : string -> string;
  (** [filepath.Join(elem...)] *)
  filepath_Join : list string -> string;
  (** [types.ExtractCommentTags(marker, lines)[tag]] *)
  ExtractCommentTags : string -> list string -> gmap string (list string);
  (** [common.InSourcePackage(t, srcPkg)] *)
  InSourcePackage : Types.Type_ -> string -> bool;
  (** [isStructPointer(t)] of the swagger generator *)
  isStructPointer : Types.Type_ -> bool;
  (** [common.GetArgs(t)], the template arguments for a type *)
  GetArgs : option Types.Type_ -> Args }.

(** ** Failures and the generator monad *)

(** [klog.Fatalf(format, args...)] ends the process; a panic is a nil
    dereference or an index out of range. *)
Inductive failure :=
| Fatalf (format : string) (args : list string)
| Panic (msg : string).

Definition Result (A : Type) : Type := failure + A.

Definition is_fatal {A} (r : Result A) : Prop :=
  match r with inl (Fatalf _ _) => True | _ => False end.

Definition SnippetWriter := list (string * Args).

(** The monad of computations that may fail. *)
#[global] Instance Result_ret : MRet Result := fun _ a => inr a.
#[global] Instance Result_bind : MBind Result :=
  fun _ _ k r => match r with inl e => inl e | inr a => k a end.

(** A computation over a state [S] that may fail. *)
Definition M (S A : Type) : Type := S -> Result (A * S).

#[global] Instance M_ret {S} : MRet (M S) := fun _ a s => inr (a, s).
#[global] Instance M_bind {S} : MBind (M S) :=
  fun _ _ k m s => match m s with
                   | inl e => inl e
                   | inr (a, s') => k a s'
                   end.

Definition fail {S A} (e : failure) : M S A := fun _ => inl e.

Definition get {S} : M S S := fun s => inr (s, s).

Definition modify {S} (f : S -> S) : M S unit := fun s => inr (tt, f s).

Definition lift {S A} (r : Result A) : M S A :=
  fun s => match r with inl e => inl e | inr a => inr (a, s) end.

(** [for _, x := range xs { body(x) }] over a slice. *)
Fixpoint forEach {S A} (body : A -> M S unit) (xs : list A) : M S unit :=
  match xs with
  | [] => mret tt
  | x :: xs' => body x;; forEach body xs'
  end.

(** [sw.Do(format, args)] *)
Definition sw_Do {G} (format : string) (args : Args) : M (G * SnippetWriter) unit :=
  modify (fun st : G * SnippetWriter => (st.1, (st.2 ++ [(format, args)])%list)).

(** * The model API generator ([apigen.go]) *)

Module ApiGen.

Section Generator.
Context `{Externals}.

Definition tagName : string := "onecloud:model-api-gen".
Definition SModelBase : string := "SModelBase".
Definition CloudCommonDBPackage : string := "yunion.io/x/onecloud/pkg/cloudcommon/db".
Definition CloudProviderPackage : string := "yunion.io/x/onecloud/pkg/cloudprovider".

(** A missing key of a Go map of slices reads as the nil slice. *)
Definition extractTag (comments : list string) : list string :=
  default [] (ExtractCommentTags "+" comments !! tagName).

Definition GetInputOutputPackageMap (apisPkg : string) : gmap string string :=
  {[ CloudCommonDBPackage := apisPkg;
     CloudProviderPackage := filepath_Join [apisPkg; "cloudprovider"] ]}.

(** The fields of [apiGen] the projector reads or writes. *)
Record apiGen := mkApiGen {
  sourcePackage : string;
  modelTypes : gset string;
  modelDependTypes : gset string;
  isCommonDBPackage : bool;
  needImportPackages : gset string;
  apisPkg : string }.

Definition Gen (A : Type) : Type := M (apiGen * SnippetWriter) A.

Definition isModelBase (t : Types.Type_) : bool :=
  bool_decide (Types.Name_Name (Types.Type_Name t) = SModelBase).

Definition includeType (t : Types.Type_) : bool :=
  negb (bool_decide (length (extractTag (Types.Type_CommentLines t)) = 0)).

Definition args (t : Types.Type_) : Args := TypeArg (Some t).

(** [for t.Kind == types.Alias { t = t.Underlying }]; a nil [Underlying] of
    an alias is dereferenced by the next test of the loop. *)
Fixpoint underlyingType (t : Types.Type_) : Result Types.Type_ :=
  match Types.Type_Kind t with
  | Types.Alias =>
      match Types.Type_Underlying t with
      | Some u => underlyingType u
      | None => inl (Panic "nil pointer dereference")
      end
  | _ => inr t
  end.

Definition needCopy (g : apiGen) (t : Types.Type_) : bool :=
  negb (Sets.Has (modelTypes g) (Types.Type_String t))
  && Sets.Has (modelDependTypes g) (Types.Type_String t).

Definition inSourcePackage (g : apiGen) (t : Types.Type_) : bool :=
  InSourcePackage t (sourcePackage g).

(** ** The projected member *)

Record Member := mkMember {
  name : string;
  jsonTags : list string;
  mType : string;
  namer : string;
  embedded : bool }.

Definition NewMember (name : string) : Member :=
  {| name := name; jsonTags := []; mType := ""; namer := "raw"; embedded := false |}.

Definition Member_Type (m : Member) (mType : string) : Member :=
  {| name := name m; jsonTags := jsonTags m; mType := mType;
     namer := namer m; embedded := embedded m |}.

Definition Member_Name (m : Member) (name' : string) : Member :=
  {| name := name'; jsonTags := jsonTags m; mType := mType m;
     namer := namer m; embedded := embedded m |}.

Definition Member_Namer (m : Member) (namer' : string) : Member :=
  {| name := name m; jsonTags := jsonTags m; mType := mType m;
     namer := namer'; embedded := embedded m |}.

Definition Member_Embedded (m : Member) : Member :=
  {| name := name m; jsonTags := jsonTags m; mType := mType m;
     namer := namer m; embedded := true |}.

Definition Member_AddTag (m : Member) (tags : list string) : Member :=
  let tSets := Sets.NewString tags in
  let tSets := Sets.Insert tSets (jsonTags m) in
  {| name := name m; jsonTags := Sets.List tSets; mType := mType m;
     namer := namer m; embedded := embedded m |}.

Definition Member_NoTag (m : Member) : Member :=
  {| name := name m; jsonTags := []; mType := mType m;
     namer := namer m; embedded := embedded m |}.

(** The variadic [tags] of the source are never read. *)
Definition NewModelMember (name : string) : Member :=
  let jName := CamelSplit name "_" in
  let m := NewMember name in
  Member_AddTag m [jName].

(** The text [Member.Do] hands to the snippet writer. *)
Definition Member_format (m : Member) : string :=
  let namePart := name m in
  let typePart :=
    if decide (mType m <> "") then mType m
    else "$.type|" +:+ namer m +:+ "$" in
  let ret := if embedded m then typePart else namePart +:+ " " +:+ typePart in
  let ret :=
    if decide (length (jsonTags m) <> 0)
    then ret +:+ " " +:+ Strings.bquote +:+ "json:" +:+ Strings.dquote
             +:+ Strings.Join (jsonTags m) "," +:+ Strings.dquote +:+ Strings.bquote
    else ret in
  ret +:+ "
".

Definition Member_Do (m : Member) (a : Args) : Gen unit :=
  sw_Do (Member_format m) a.

(** ** One rule per member kind *)

Definition doBuiltin (m : Types.Member) : Gen unit :=
  Member_Do (NewModelMember (Types.Member_Name m)) (args (Types.Member_Type m)).

Definition TypeMap : gmap string (string * list string) :=
  {[ "TriState" := ("*bool", ["omitempty"]) ]}.

Definition doAlias (member : Types.Member) : Gen unit :=
  let name := Types.Member_Name member in
  let mt := Types.Member_Type member in
  match TypeMap !! Types.Name_Name (Types.Type_Name mt) with
  | Some ct =>
      let m := Member_Type (Member_AddTag (NewModelMember name) ct.2) ct.1 in
      Member_Do m NoArgs
  | None =>
      ut ← lift (underlyingType mt);
      Member_Do (NewModelMember name) (args ut)
  end.

Definition doSlice (member : Types.Member) : Gen unit :=
  fail (Fatalf "--slice not implement" []).

Definition doStruct (member : Types.Member) : Gen unit :=
  let mt := Types.Member_Type member in
  let m := NewModelMember (Types.Member_Name member) in
  let m := if Types.Member_Embedded member then Member_NoTag (Member_Embedded m) else m in
  st ← get;
  m ← (if inSourcePackage st.1 mt then mret (Member_Namer m "public")
       else match GetInputOutputPackageMap (apisPkg st.1)
                    !! Types.Name_Package (Types.Type_Name mt) with
            | Some outPkg =>
                modify (fun st : apiGen * SnippetWriter =>
                  ({| sourcePackage := sourcePackage st.1;
                      modelTypes := modelTypes st.1;
                      modelDependTypes := modelDependTypes st.1;
                      isCommonDBPackage := isCommonDBPackage st.1;
                      needImportPackages := Sets.Insert (needImportPackages st.1) [outPkg];
                      apisPkg := apisPkg st.1 |}, st.2));;
                mret (Member_Type m (filepath_Base outPkg +:+ "."
                                     +:+ Types.Name_Name (Types.Type_Name mt)))
            | None => mret m
            end);
  Member_Do m (args mt).

Definition doInterface (m : Types.Member) : Gen unit :=
  (if Types.Member_Embedded m
   then fail (Fatalf "%s used as embedded interface" [Types.Member_String m])
   else mret tt);;
  Member_Do (NewModelMember (Types.Member_Name m)) (args (Types.Member_Type m)).

(** [t.Elem] of a pointer type; reading a field of a nil element panics. *)
Definition elemOf (t : Types.Type_) : Result Types.Type_ :=
  match Types.Type_Elem t with
  | Some e => inr e
  | None => inl (Panic "nil pointer dereference")
  end.

Definition getPointerSourcePackageName (t : Types.Type_) : Gen string :=
  elem ← lift (elemOf t);
  st ← get;
  (if inSourcePackage st.1 elem then mret tt
   else fail (Fatalf "pointer's elem %q not in package %q"
                     [Types.Name_String (Types.Type_Name elem); sourcePackage st.1]));;
  mret ("*" +:+ Types.Name_Name (Types.Type_Name elem)).

Definition doPointer (m : Types.Member) : Gen unit :=
  let t := Types.Member_Type m in
  let mem := NewModelMember (Types.Member_Name m) in
  elem ← lift (elemOf t);
  st ← get;
  mem ← (if inSourcePackage st.1 elem
         then s ← getPointerSourcePackageName t; mret (Member_Type mem s)
         else mret mem);
  let mem := if Types.Member_Embedded m then Member_NoTag (Member_Embedded mem) else mem in
  Member_Do mem (args (Types.Member_Type m)).

(** ** The projector *)

Definition generateMember (t : Types.Type_) (mem : Types.Member) : Gen unit :=
  let mt := Types.Member_Type mem in
  if isModelBase mt then mret tt
  else
    match Types.Type_Kind mt with
    | Types.Builtin => doBuiltin mem
    | Types.Struct => doStruct mem
    | Types.Interface => doInterface mem
    | Types.Alias => doAlias mem
    | Types.Pointer => doPointer mem
    | Types.Slice => doSlice mem
    | k => fail (Fatalf "Hit an unsupported type %v.%s, kind is %s"
                        [Types.Type_String t; Types.Name_Name (Types.Type_Name mt);
                         Types.Kind_string k])
    end.

Definition generateFor (t : Types.Type_) : Gen unit :=
  forEach (generateMember t) (Types.Type_Members t).

(** The alias chain of [t] ends, as in every type gengo builds. *)
Fixpoint wf_alias (t : Types.Type_) : bool :=
  match Types.Type_Kind t with
  | Types.Alias =>
      match Types.Type_Underlying t with
      | Some u => wf_alias u
      | None => false
      end
  | _ => true
  end.

(** The members the projector has a rule for that emits a field: builtin,
    struct, alias and pointer members and interface members that are not
    embedded.  A pointer type has its element and an alias outside
    [TypeMap] has its underlying type, as gengo builds them. *)
Definition supported (mem : Types.Member) : bool :=
  let mt := Types.Member_Type mem in
  match Types.Type_Kind mt with
  | Types.Builtin | Types.Struct => true
  | Types.Interface => negb (Types.Member_Embedded mem)
  | Types.Alias =>
      bool_decide (is_Some (TypeMap !! Types.Name_Name (Types.Type_Name mt)))
      || wf_alias mt
  | Types.Pointer => bool_decide (is_Some (Types.Type_Elem mt))
  | _ => false
  end.

(** A member as gengo builds it: a pointer type has its element and an
    alias type outside [TypeMap] has its underlying type. *)
Definition wf_member (mem : Types.Member) : bool :=
  let mt := Types.Member_Type mem in
  match Types.Type_Kind mt with
  | Types.Alias =>
      bool_decide (is_Some (TypeMap !! Types.Name_Name (Types.Type_Name mt)))
      || wf_alias mt
  | Types.Pointer => bool_decide (is_Some (Types.Type_Elem mt))
  | _ => true
  end.

(** The members that are projected: all but the sentinel base. *)
Definition projectable (t : Types.Type_) : list Types.Member :=
  filter (fun mem => isModelBase (Types.Member_Type mem) = false) (Types.Type_Members t).

Definition generateStructType (t : Types.Type_) : Gen unit :=
  sw_Do "type $.type|public$ struct {
" (args t);;
  generateFor t;;
  sw_Do "}
" NoArgs.

(** ** The rest of the generator: type helpers, the classifier, aliases *)

Definition checkTag (comments : list string) (require : list string) : bool :=
  let vals := default [] (ExtractCommentTags "+" comments !! tagName) in
  if decide (length require = 0)
  then bool_decide (length vals = 1) && bool_decide (vals !! 0 = Some "")
  else bool_decide (vals = require).

(** [getPrimitiveType]: the element chain of a map, slice, pointer or chan
    is followed to its end; a nil element is dereferenced by the next call. *)
Fixpoint getPrimitiveType (t : Types.Type_) : Result Types.Type_ :=
  let compondKinds :=
    Sets.NewString [Types.Kind_string Types.Map; Types.Kind_string Types.Slice;
                    Types.Kind_string Types.Pointer; Types.Kind_string Types.Chan] in
  if negb (Sets.Has compondKinds (Types.Kind_string (Types.Type_Kind t)))
  then inr t
  else
    match Types.Type_Elem t with
    | Some et => getPrimitiveType et
    | None => inl (Panic "nil pointer dereference")
    end.

Definition Filter (g : apiGen) (t : Types.Type_) : bool :=
  if Sets.Has (modelTypes g) (Types.Type_String t) then true else false.

(** [generatorAliasType]; the underlying type of the alias is read without
    a nil test. *)
Definition generatorAliasType (t : Types.Type_) : Gen unit :=
  sw_Do "type $.type|public$ " (args t);;
  match Types.Type_Underlying t with
  | None => fail (Panic "nil pointer dereference")
  | Some ut =>
      match Types.Type_Kind ut with
      | Types.Slice =>
          elem ← lift (elemOf ut);
          content ← (if decide (Types.Type_Kind elem = Types.Pointer)
                     then getPointerSourcePackageName elem
                     else mret "$.type|public$");
          sw_Do ("[]" +:+ content) (args elem)
      | _ => sw_Do "$.type|public$ " (args ut)
      end
  end;;
  sw_Do "
" NoArgs.

(** [GenerateType]; the error of the snippet writer it returns is not part
    of the model. *)
Definition GenerateType (t : Types.Type_) : Gen unit :=
  sw_Do ("// " +:+ Types.Name_Name (Types.Type_Name t)
         +:+ " is an autogenerated struct via " +:+ Types.Name_String (Types.Type_Name t)
         +:+ ".
") NoArgs;;
  match Types.Type_Kind t with
  | Types.Struct => generateStructType t
  | Types.Alias => generatorAliasType t
  | k => fail (Fatalf "Unsupported type %s" [Types.Kind_string k])
  end.

(** *** The model classifier

    The two sets the classifier fills are the state.  [addDependTypes] calls
    itself on member types with no record of the types it has seen; the
    model counts the depth of the calls down from [fuel], and [None] is a
    walk that is deeper than [fuel].  On a type that reaches itself the
    source never returns; such a type is no value of [Types.Type_], so the
    model says nothing of it. *)

Definition Sets2 : Type := gset string * gset string.

Definition insertOut (names : list string) (s : Sets2) : Sets2 :=
  (Sets.Insert s.1 names, s.2).

Definition insertDepend (names : list string) (s : Sets2) : Sets2 :=
  (s.1, Sets.Insert s.2 names).

(** The body of the loop over the members, given the function to call on a
    member type. *)
Definition addMember (g : apiGen)
    (rec : Types.Type_ -> Sets2 -> option (Result Sets2))
    (m : Types.Member) (s : Sets2) : option (Result Sets2) :=
  let mt := Types.Member_Type m in
  match Types.Type_Kind mt with
  | Types.Struct =>
      if isModelBase mt then Some (inr s)
      else if negb (inSourcePackage g mt)
      then Some (inr (insertDepend [Types.Type_String mt] s))
      else rec mt (insertOut [Types.Type_String mt] s)
  | Types.Pointer =>
      match Types.Type_Elem mt with
      | None => Some (inl (Panic "nil pointer dereference"))
      | Some et =>
          if negb (inSourcePackage g et)
          then Some (inr (insertDepend [Types.Type_String et] s))
          else rec et (insertOut [Types.Type_String et] s)
      end
  | Types.Alias =>
      match underlyingType mt ≫= getPrimitiveType with
      | inl e => Some (inl e)
      | inr umt =>
          if negb (inSourcePackage g mt) && negb (inSourcePackage g umt)
          then Some (inr (insertDepend [Types.Type_String mt] s))
          else rec umt (insertOut [Types.Type_String mt; Types.Type_String umt] s)
      end
  | _ => Some (inr s)
  end.

(** The loop over the members. *)
Fixpoint addMembers (g : apiGen)
    (rec : Types.Type_ -> Sets2 -> option (Result Sets2))
    (ms : list Types.Member) (s : Sets2) : option (Result Sets2) :=
  match ms with
  | [] => Some (inr s)
  | m :: ms' =>
      match addMember g rec m s with
      | Some (inr s') => addMembers g rec ms' s'
      | r => r
      end
  end.

Fixpoint addDependTypes (fuel : nat) (g : apiGen) (t : Types.Type_) (s : Sets2)
    : option (Result Sets2) :=
  match fuel with
  | 0 => None
  | S fuel' =>
      match (if decide (Types.Type_Kind t = Types.Alias)
             then t' ← underlyingType t ≫= getPrimitiveType;
                  mret (t', insertOut [Types.Type_String t'] s)
             else mret (t, s)) with
      | inl e => Some (inl e)
      | inr (t', s') =>
          addMembers g (addDependTypes fuel' g) (Types.Type_Members t') s'
      end
  end.

(** [collectTypes]; [isResourceModel] stands for [common.IsResourceModel],
    which is outside the sources. *)
Definition collectType (fuel : nat) (isResourceModel : Types.Type_ -> bool -> bool)
    (g : apiGen) (t : Types.Type_) (s : Sets2) : option (Result Sets2) :=
  if negb (bool_decide (Types.Type_Kind t = Types.Struct)) then Some (inr s)
  else if negb (inSourcePackage g t) then Some (inr s)
  else if includeType t || isResourceModel t (isCommonDBPackage g)
  then addDependTypes fuel g t (insertOut [Types.Type_String t] s)
  else Some (inr s).

Fixpoint collectTypes (fuel : nat) (isResourceModel : Types.Type_ -> bool -> bool)
    (g : apiGen) (pkgTypes : list Types.Type_) (s : Sets2) : option (Result Sets2) :=
  match pkgTypes with
  | [] => Some (inr s)
  | t :: rest =>
      match collectType fuel isResourceModel g t s with
      | Some (inr s') => collectTypes fuel isResourceModel g rest s'
      | r => r
      end
  end.

(** The depth of a type: one more than the depth of everything it holds. *)
Fixpoint depth (t : Types.Type_) : nat :=
  S (max (foldr (fun m d => max (depth (Types.Member_Type m)) d) 0 (Types.Type_Members t))
         (max (from_option depth 0 (Types.Type_Elem t))
              (from_option depth 0 (Types.Type_Underlying t)))).

End Generator.

End ApiGen.

(** * The swagger generator (its generator file and [helper.go]) *)

Module SwaggerGen.

Section Generator.
Context `{Externals}.

Definition tagIgnoreName : string := "onecloud:swagger-gen-ignore".

Definition extractTagByName (comments : list string) (tagName : string) : list string :=
  default [] (ExtractCommentTags "+" comments !! tagName).

Definition extractIgnoreTag (comments : list string) : list string :=
  extractTagByName comments tagIgnoreName.

Definition includeIgnoreTag (t : Types.Type_) : bool :=
  negb (bool_decide (length (extractIgnoreTag (Types.Type_CommentLines t)) = 0)).

(** The method-name keywords of the conventions. *)
Definition Create : string := "ValidateCreateData".
Definition List : string := "ListItemFilter".
Definition Get : string := "GetExtraDetails".
Definition GetCustomizedGetDetailsBody : string := "CustomizedGetDetailsBody".
Definition GetSpec : string := "GetDetails".
Definition GetProperty : string := "GetProperty".
Definition Perform : string := "Perform".
Definition Update : string := "ValidateUpdateData".
Definition Delete : string := "CustomizeDelete".

Record Method := mkMethod {
  resSingular : string;
  resPlural : string;
  receiver : Types.Type_;
  name : string;
  method : Types.Type_ }.

Definition NewMethod (receiver : Types.Type_) (name : string) (method : Types.Type_)
    (singular plural : string) : Method :=
  {| receiver := receiver; name := name; method := method;
     resSingular := singular; resPlural := plural |}.

(** [m.Signature()] followed by a field access: a nil signature panics. *)
Definition Method_Signature (m : Method) : Result Types.Signature :=
  match Types.Type_Signature (method m) with
  | Some sig => inr sig
  | None => inl (Panic "nil pointer dereference")
  end.

(** [xs[idx]] on a slice *)
Definition index {A} (xs : list A) (idx : nat) : Result A :=
  match xs !! idx with
  | Some x => inr x
  | None => inl (Panic "index out of range")
  end.

Definition Method_Params (m : Method) (idx : nat) : Result Types.Type_ :=
  sig ← Method_Signature m;
  index (Types.Signature_Parameters sig) idx.

Definition Method_Resutls (m : Method) (idx : nat) : Result Types.Type_ :=
  sig ← Method_Signature m;
  index (Types.Signature_Results sig) idx.

Definition Method_String (m : Method) : string :=
  Types.Type_String (receiver m) +:+ "." +:+ name m.

(** ** The method convention matcher

    [for name, m := range t.Methods] walks a Go map, in an order the
    language leaves unspecified and that changes from one run of the loop to
    the next.  The order the loop takes is the argument [order]; it is a
    legal order for [t] when [range_order (Type_Methods t) order] holds. *)

Definition range_order {V} (m : gmap string V) (order : list (string * V)) : Prop :=
  order ≡ₚ map_to_list m.

Fixpoint rangeMethods (funcPrefixKeyword keyword keywordPlural : string)
    (t : Types.Type_) (predicateF : option (Method -> Result bool))
    (order : list (string * Types.Type_)) (methods : list Method)
    : Result (list Method) :=
  match order with
  | [] => inr methods
  | (name, m) :: rest =>
      if Strings.HasPrefix name funcPrefixKeyword && negb (includeIgnoreTag m)
      then
        let mWrap := NewMethod t name m keyword keywordPlural in
        useIt ← match predicateF with
                 | Some f => f mWrap
                 | None => inr true
                 end;
        if useIt : bool
        then rangeMethods funcPrefixKeyword keyword keywordPlural t predicateF rest
                          (methods ++ [mWrap])%list
        else rangeMethods funcPrefixKeyword keyword keywordPlural t predicateF rest methods
      else rangeMethods funcPrefixKeyword keyword keywordPlural t predicateF rest methods
  end.

(** A nil method table has no entry to range over, so [order] is empty and
    the result is empty, as for the early return of the source. *)
Definition getTypeMethods (order : list (string * Types.Type_))
    (funcPrefixKeyword keyword keywordPlural : string)
    (t : Types.Type_) (predicateF : option (Method -> Result bool))
    : Result (list Method) :=
  rangeMethods funcPrefixKeyword keyword keywordPlural t predicateF order [].

(** Whether the loop of [getTypeMethods] keeps an entry of the method
    table: the name has the prefix, the method is not ignored and the
    predicate accepts it. *)
Definition keeps (funcPrefixKeyword keyword keywordPlural : string) (t : Types.Type_)
    (predicateF : Method -> Result bool) (nm : string * Types.Type_) : bool :=
  Strings.HasPrefix nm.1 funcPrefixKeyword && negb (includeIgnoreTag nm.2)
  && match predicateF (NewMethod t nm.1 nm.2 keyword keywordPlural) with
     | inr true => true
     | _ => false
     end.

(** [db.IModelManager], as far as the generator uses it. *)
Record IModelManager := mkManager {
  Keyword : string;
  KeywordPlural : string }.

Record typeParser := mkTypeParser {
  managerInstance : IModelManager;
  manager : Types.Type_;
  model : Types.Type_;
  singular : string;
  plural : string }.

Definition getManagerKeywords (man : IModelManager) : string * string :=
  (Keyword man, KeywordPlural man).

Definition newTypeParser (manIns : IModelManager) (man model : Types.Type_) : typeParser :=
  let kw := getManagerKeywords manIns in
  {| managerInstance := manIns; manager := man; model := model;
     singular := kw.1; plural := kw.2 |}.

Definition getMethods (p : typeParser) (order : list (string * Types.Type_))
    (funcPreKeyword : string) (model : Types.Type_)
    (preF : option (Method -> Result bool)) : Result (list Method) :=
  getTypeMethods order funcPreKeyword (singular p) (plural p) model preF.

(** [nil] when nothing matches, else [ms[0]]. *)
Definition getMethod (p : typeParser) (order : list (string * Types.Type_))
    (funcPreKeyword : string) (model : Types.Type_)
    (preF : option (Method -> Result bool)) : Result (option Method) :=
  ms ← getMethods p order funcPreKeyword model preF;
  mret (head ms).

(** The arity test shared by the predicates: [paramsLen] and [retLen]. *)
Definition arity (m : Method) : Result (nat * nat) :=
  sig ← Method_Signature m;
  mret (length (Types.Signature_Parameters sig), length (Types.Signature_Results sig)).

Definition createPred (m : Method) : Result bool :=
  a ← arity m;
  mret (if decide (a.1 <> 5 \/ a.2 <> 2) then false else true).

Definition listPred (m : Method) : Result bool :=
  a ← arity m;
  mret (if decide (a.1 <> 4 \/ a.2 <> 2) then false else true).

Definition getPred (m : Method) : Result bool :=
  a ← arity m;
  mret (if decide ((a.1 = 3 \/ a.1 = 4) /\ a.2 = 2) then true else false).

Definition updatePred (m : Method) : Result bool :=
  a ← arity m;
  mret (if decide (a.1 <> 4 \/ a.2 <> 2) then false else true).

Definition deletePred (m : Method) : Result bool :=
  a ← arity m;
  mret (if decide (a.1 <> 4 \/ a.2 <> 1) then false else true).

(** After the arity test the source validates the body and the output only
    to log a warning; the method is kept either way. *)
Definition performActionPred (m : Method) : Result bool :=
  a ← arity m;
  mret (if decide (a.1 <> 4 \/ a.2 <> 2) then false else true).

Definition getSpecPred (m : Method) : Result bool :=
  a ← arity m;
  mret (if decide (a.1 <> 3 \/ a.2 <> 2) then false else true).

Definition createM (p : typeParser) order : Result (option Method) :=
  getMethod p order Create (manager p) (Some createPred).

Definition listM (p : typeParser) order : Result (option Method) :=
  getMethod p order List (manager p) (Some listPred).

Definition getM (p : typeParser) order : Result (option Method) :=
  getMethod p order Get (model p) (Some getPred).

Definition updateM (p : typeParser) order : Result (option Method) :=
  getMethod p order Update (model p) (Some updatePred).

Definition deleteM (p : typeParser) order : Result (option Method) :=
  getMethod p order Delete (model p) (Some deletePred).

Definition performActionM (p : typeParser) order : Result (list Method) :=
  getMethods p order Perform (model p) (Some performActionPred).

Definition getSpecM (p : typeParser) order : Result (list Method) :=
  getMethods p order GetSpec (model p) (Some getSpecPred).

(** ** Parameters ([helper.go]) *)

Definition privateName (structName methodName : string) : string :=
  if decide (structName = "") then methodName
  else structName +:+ "_" +:+ methodName.

Record parameter := mkParameter {
  p_singular : string;
  p_plural : string;
  operationId : string;
  withId : bool;
  query : option Types.Type_;
  body : option Types.Type_;
  p_errorMsgs : list string }.

Definition newParameter (singular plural id : string) : parameter :=
  {| p_singular := singular; p_plural := plural; operationId := id;
     withId := false; query := None; body := None; p_errorMsgs := [] |}.

Definition set_body (p : parameter) (b : option Types.Type_) : parameter :=
  {| p_singular := p_singular p; p_plural := p_plural p; operationId := operationId p;
     withId := withId p; query := query p; body := b; p_errorMsgs := p_errorMsgs p |}.

Definition set_query (p : parameter) (q : option Types.Type_) : parameter :=
  {| p_singular := p_singular p; p_plural := p_plural p; operationId := operationId p;
     withId := withId p; query := q; body := body p; p_errorMsgs := p_errorMsgs p |}.

Definition set_withId (p : parameter) (b : bool) : parameter :=
  {| p_singular := p_singular p; p_plural := p_plural p; operationId := operationId p;
     withId := b; query := query p; body := body p; p_errorMsgs := p_errorMsgs p |}.

Definition add_errorMsg (p : parameter) (msg : string) : parameter :=
  {| p_singular := p_singular p; p_plural := p_plural p; operationId := operationId p;
     withId := withId p; query := query p; body := body p;
     p_errorMsgs := (p_errorMsgs p ++ [msg])%list |}.

(** [paramterFactory.newParameter] *)
Definition factory_newParameter (f : Method) : parameter :=
  newParameter (resSingular f) (resPlural f) (privateName (resSingular f) (name f)).

Definition param_Create (f : Method) : Result parameter :=
  query ← Method_Params f 3;
  body ← Method_Params f 4;
  let p := factory_newParameter f in
  let p := if isStructPointer body then set_body p (Some body)
           else add_errorMsg p ("unsupport body type " +:+ Types.Type_String body) in
  mret (set_query p (Some query)).

Definition param_List (f : Method) : Result parameter :=
  query ← Method_Params f 3;
  let p := factory_newParameter f in
  mret (if isStructPointer query then set_query p (Types.Type_Elem query)
        else add_errorMsg p ("unsupport query type " +:+ Types.Type_String query)).

Definition param_Get (f : Method) : Result parameter :=
  query ← Method_Params f 2;
  let p := factory_newParameter f in
  let p := if isStructPointer query then set_query p (Types.Type_Elem query) else p in
  mret (set_withId p true).

Definition param_Update (f : Method) : Result parameter :=
  query ← Method_Params f 2;
  body ← Method_Params f 3;
  let p := factory_newParameter f in
  let p := if isStructPointer body then set_body p (Some body)
           else add_errorMsg p ("unsupport body type " +:+ Types.Type_String body) in
  let p := set_query p (Some query) in
  mret (set_withId p true).

Definition param_Delete (f : Method) : Result parameter :=
  query ← Method_Params f 2;
  body ← Method_Params f 3;
  let p := factory_newParameter f in
  let p := if isStructPointer query then set_query p (Some query) else p in
  let p := if isStructPointer body then set_body p (Some body) else p in
  mret (set_withId p true).

Definition param_GetSpec (f : Method) : Result parameter :=
  query ← Method_Params f 2;
  let p := factory_newParameter f in
  let p := if isStructPointer query then set_query p (Types.Type_Elem query) else p in
  mret (set_withId p true).

Definition param_PerformAction (f : Method) : Result parameter :=
  query ← Method_Params f 2;
  body ← Method_Params f 3;
  let p := factory_newParameter f in
  let p := if isStructPointer body then set_body p (Some body) else p in
  let p := set_query p (Some query) in
  mret (set_withId p true).

Definition getValidType (t : option Types.Type_) : option Types.Type_ :=
  match t with
  | None => None
  | Some t =>
      match Types.Type_Kind t with
      | Types.Pointer => Types.Type_Elem t
      | Types.Struct => Some t
      | _ => None
      end
  end.

Definition GetValidType (t : option Types.Type_) : option Types.Type_ :=
  match getValidType t with
  | None => None
  | Some t =>
      if Strings.Contains (Types.Name_Package (Types.Type_Name t)) "yunion.io/x/jsonutils"
      then None else Some t
  end.

Definition getArgs (t : option Types.Type_) : Args := GetArgs t.

(** ** Responses *)

Record response := mkResponse {
  output : option Types.Type_;
  id : string;
  bodyKey : string;
  isList : bool;
  r_errorMsgs : list string }.

Definition response_getOutput (r : response) : option Types.Type_ :=
  GetValidType (output r).

(** [responseFactory.newResponse] *)
Definition newResponse (f : Method) : response :=
  {| output := None;
     id := privateName (resSingular f) (name f) +:+ "Output";
     bodyKey := ""; isList := false; r_errorMsgs := [] |}.

Definition resultByMethod (f : Method) (method : Method) (resultIdx : nat)
    (key : string) (ignoreErr : bool) : Result response :=
  let r := newResponse f in
  sig ← Method_Signature method;
  out ← index (Types.Signature_Results sig) resultIdx;
  let r :=
    if isStructPointer out
    then {| output := Some out; id := id r; bodyKey := bodyKey r;
            isList := isList r; r_errorMsgs := r_errorMsgs r |}
    else if negb ignoreErr
    then {| output := output r; id := id r; bodyKey := bodyKey r; isList := isList r;
            r_errorMsgs := (r_errorMsgs r ++ ["unsupport type " +:+ Types.Type_String out])%list |}
    else r in
  let key := if decide (key = "") then resPlural f else key in
  mret {| output := output r; id := id r; bodyKey := key;
          isList := isList r; r_errorMsgs := r_errorMsgs r |}.

Definition ResultByMethod (f : Method) (method : Method) (resultIdx : nat)
    (key : string) : Result response :=
  resultByMethod f method resultIdx key false.

Definition FirstSingularResult (f : Method) : Result response :=
  ResultByMethod f f 0 (resSingular f).

Definition FirstSingularResultNoError (f : Method) : Result response :=
  resultByMethod f f 0 (resSingular f) true.

Definition ResultByGetMethod (f : Method) (getMethod : Method) : Result response :=
  ResultByMethod f getMethod 0 (resSingular f).

Definition ListResult (f : Method) (getMethod : Method) : Result response :=
  r ← ResultByMethod f getMethod 0 (resPlural f);
  mret {| output := output r; id := id r; bodyKey := bodyKey r;
          isList := true; r_errorMsgs := r_errorMsgs r |}.

(** ** Routes *)

Record route := mkRoute {
  action : string;
  path : string;
  r_parameter : parameter;
  tags : list string;
  summary : string;
  description : list string;
  r_response : gmap Z response }.

Definition apiAction (f : Method) (trimPrefix : string) : string :=
  CamelSplit (Strings.TrimPrefix (name f) trimPrefix) "-".

Definition reviseDescription (r : route) : route :=
  if decide (summary r <> "" /\ length (description r) = 0)
  then {| action := action r; path := path r; r_parameter := r_parameter r;
          tags := tags r; summary := summary r;
          description := (description r ++ [summary r])%list;
          r_response := r_response r |}
  else r.

Definition newRoute (f : Method) (action : string) (input : parameter)
    (output : response) : route :=
  let commentLines := Types.Type_CommentLines (method f) in
  let summary := match commentLines with [] => "" | l :: _ => l end in
  let summary :=
    if decide (length (p_errorMsgs input) <> 0 \/ length (r_errorMsgs output) <> 0)
    then "input or output error exists" else summary in
  let desc : list string := [] in
  let desc :=
    if decide (length (p_errorMsgs input) <> 0)
    then (desc ++ ["input error: " +:+ Strings.Join (p_errorMsgs input) ","])%list
    else desc in
  let desc :=
    if decide (length (r_errorMsgs output) <> 0)
    then (desc ++ ["output error: " +:+ Strings.Join (r_errorMsgs output) ","])%list
    else desc in
  let desc :=
    if decide (1 < length commentLines)
    then (desc ++ drop 1 commentLines)%list else desc in
  reviseDescription
    {| action := action; path := ""; r_parameter := input;
       tags := [resSingular f]; summary := summary; description := desc;
       r_response := {[ 200%Z := output ]} |}.

Definition set_path (r : route) (path : string) : route :=
  {| action := action r; path := path; r_parameter := r_parameter r;
     tags := tags r; summary := summary r; description := description r;
     r_response := r_response r |}.

Definition route_Create (f : Method) (input : parameter) (output : response) : route :=
  set_path (newRoute f "POST" input output) ("/" +:+ resPlural f).

Definition route_List (f : Method) (input : parameter) (output : response) : route :=
  set_path (newRoute f "GET" input output) ("/" +:+ resPlural f).

Definition route_Get (f : Method) (input : parameter) (output : response) : route :=
  set_path (newRoute f "GET" input output) ("/" +:+ resPlural f +:+ "/{id}").

Definition route_Update (f : Method) (input : parameter) (output : response) : route :=
  set_path (newRoute f "PUT" input output) ("/" +:+ resPlural f +:+ "/{id}").

Definition route_Delete (f : Method) (input : parameter) (output : response) : route :=
  set_path (newRoute f "DELETE" input output) ("/" +:+ resPlural f +:+ "/{id}").

Definition route_GetSpec (f : Method) (input : parameter) (output : response) : route :=
  let apiAction := apiAction f GetSpec in
  set_path (newRoute f "GET" input output)
           ("/" +:+ resPlural f +:+ "/{id}/" +:+ apiAction).

Definition route_PerformAction (f : Method) (input : parameter) (output : response) : route :=
  let apiAction := apiAction f Perform in
  set_path (newRoute f "POST" input output)
           ("/" +:+ resPlural f +:+ "/{id}/" +:+ apiAction).

(** ** Writing the comment blocks *)

Section Writer.
Context {G : Type}.
Local Abbreviation Gen := (M (G * SnippetWriter)).

Definition lines (ls : list string) : Gen unit :=
  forEach (fun l => sw_Do ("// " +:+ l +:+ "
") NoArgs) ls.

Definition emptyLine : Gen unit := sw_Do "//
" NoArgs.

Definition line (l : string) : Gen unit := lines [l].

(** [if cond { body }] *)
Definition when (cond : bool) (body : Gen unit) : Gen unit :=
  if cond then body else mret tt.

(** Every route built in this file maps the single code 200, so the range
    over [r.response] has one order only. *)
Definition route_Do (r : route) : Gen unit :=
  sw_Do ("// swagger:route " +:+ action r +:+ " " +:+ path r +:+ " "
         +:+ Strings.Join (tags r) " " +:+ " " +:+ operationId (r_parameter r) +:+ "
") NoArgs;;
  when (negb (bool_decide (String.length (summary r) = 0)))
       (emptyLine;; line (summary r));;
  when (negb (bool_decide (length (description r) = 0)))
       (emptyLine;; lines (description r));;
  emptyLine;;
  line "responses:";;
  forEach (fun cr : Z * response => line (pretty cr.1 +:+ ": " +:+ id cr.2))
          (map_to_list (r_response r));;
  sw_Do "
" NoArgs.

Definition parameter_getQuery (r : parameter) : option Types.Type_ := GetValidType (query r).

Definition parameter_getBody (r : parameter) : option Types.Type_ := GetValidType (body r).

Definition parameter_do (r : parameter) : Gen unit :=
  sw_Do ("type " +:+ operationId r +:+ " struct {
") NoArgs;;
  when (withId r)
       (line ("The Id or Name of " +:+ p_singular r);;
        line "in:path";;
        line "required:true";;
        sw_Do ("Id string " +:+ Strings.bquote +:+ "json:" +:+ Strings.dquote +:+ "id"
               +:+ Strings.dquote +:+ Strings.bquote +:+ "
") NoArgs);;
  match parameter_getQuery r with
  | Some q => sw_Do "$.type|raw$
" (getArgs (Some q))
  | None => mret tt
  end;;
  let body' := parameter_getBody r in
  match body r with
  | Some _ =>
      let args := getArgs body' in
      sw_Do "// in:body
" NoArgs;;
      if decide (p_singular r <> "")
      then
        sw_Do "Body struct {" NoArgs;;
        sw_Do ("Input $.type|raw$ " +:+ Strings.bquote +:+ "json:" +:+ Strings.dquote
               +:+ p_singular r +:+ Strings.dquote +:+ Strings.bquote +:+ "
") args;;
        sw_Do ("} " +:+ Strings.bquote +:+ "json:" +:+ Strings.dquote +:+ "body"
               +:+ Strings.dquote +:+ Strings.bquote) NoArgs
      else
        sw_Do ("Body $.type|raw$ " +:+ Strings.bquote +:+ "json:" +:+ Strings.dquote
               +:+ "body" +:+ Strings.dquote +:+ Strings.bquote) args
  | None => mret tt
  end;;
  sw_Do "}
" NoArgs.

Definition parameter_Do (r : parameter) : Gen unit :=
  line ("swagger:parameters " +:+ operationId r);;
  parameter_do r.

(** [`json:"key"`] followed by a newline *)
Definition json_tag_nl (key : string) : string :=
  Strings.bquote +:+ "json:" +:+ Strings.dquote +:+ key +:+ Strings.dquote
  +:+ Strings.bquote +:+ "
".

Definition bodyStruct (r : response) (output : Types.Type_) : Gen unit :=
  let args := getArgs (Some output) in
  sw_Do "Body struct {
" NoArgs;;
  (if isList r
   then
     sw_Do ("Output []$.type|raw$ " +:+ json_tag_nl (bodyKey r)) args;;
     sw_Do ("Limit int " +:+ json_tag_nl "limit") NoArgs;;
     sw_Do ("Total int " +:+ json_tag_nl "total") NoArgs;;
     sw_Do ("Offset int " +:+ json_tag_nl "offset") NoArgs
   else
     sw_Do ("Output $.type|raw$ " +:+ json_tag_nl (bodyKey r)) args);;
  sw_Do "}
" NoArgs.

Definition response_Do (r : response) : Gen unit :=
  sw_Do ("// swagger:response " +:+ id r +:+ "
") NoArgs;;
  sw_Do ("type " +:+ id r +:+ " struct {
") NoArgs;;
  let output := response_getOutput r in
  let args := getArgs output in
  match output with
  | Some o =>
      line "in:body";;
      if decide (bodyKey r <> "") then bodyStruct r o
      else sw_Do "$.type|raw$" args
  | None => mret tt
  end;;
  sw_Do "}
" NoArgs.

Record commenter := mkCommenter {
  c_route : route;
  c_parameter : parameter;
  c_response : response }.

Definition commenter_Do (c : commenter) : Gen unit :=
  route_Do (c_route c);;
  parameter_Do (c_parameter c);;
  response_Do (c_response c).

(** ** One generator per convention *)

Definition generateCreate (createMethod getMethod : option Method) : Gen unit :=
  match createMethod, getMethod with
  | Some createMethod, Some getMethod =>
      param ← lift (param_Create createMethod);
      resp ← lift (ResultByGetMethod createMethod getMethod);
      let route := route_Create createMethod param resp in
      commenter_Do {| c_route := route; c_parameter := param; c_response := resp |}
  | _, _ => mret tt
  end.

Definition generateList (listMethod getMethod : option Method) : Gen unit :=
  match listMethod, getMethod with
  | Some listMethod, Some getMethod =>
      param ← lift (param_List listMethod);
      resp ← lift (ListResult listMethod getMethod);
      let route := route_List listMethod param resp in
      commenter_Do {| c_route := route; c_parameter := param; c_response := resp |}
  | _, _ => mret tt
  end.

Definition generateGet (method : option Method) : Gen unit :=
  match method with
  | Some method =>
      param ← lift (param_Get method);
      resp ← lift (FirstSingularResult method);
      let route := route_Get method param resp in
      commenter_Do {| c_route := route; c_parameter := param; c_response := resp |}
  | None => mret tt
  end.

Definition generateUpdate (method getMethod : option Method) : Gen unit :=
  match method, getMethod with
  | Some method, Some getMethod =>
      param ← lift (param_Update method);
      resp ← lift (ResultByGetMethod method getMethod);
      let route := route_Update method param resp in
      commenter_Do {| c_route := route; c_parameter := param; c_response := resp |}
  | _, _ => mret tt
  end.

Definition generateDelete (method getMethod : option Method) : Gen unit :=
  match method, getMethod with
  | Some method, Some getMethod =>
      param ← lift (param_Delete method);
      resp ← lift (ResultByGetMethod method getMethod);
      let route := route_Delete method param resp in
      commenter_Do {| c_route := route; c_parameter := param; c_response := resp |}
  | _, _ => mret tt
  end.

Definition generateGetSpec (method : Method) : Gen unit :=
  param ← lift (param_GetSpec method);
  resp ← lift (FirstSingularResult method);
  let route := route_GetSpec method param resp in
  commenter_Do {| c_route := route; c_parameter := param; c_response := resp |}.

Definition generatePerformAction (method : Method) : Gen unit :=
  param ← lift (param_PerformAction method);
  resp ← lift (FirstSingularResultNoError method);
  let route := route_PerformAction method param resp in
  commenter_Do {| c_route := route; c_parameter := param; c_response := resp |}.

(** [applyGenerateFunc]: the methods come from a slice, never nil. *)
Definition applyGenerateFunc (genFunc : Method -> Gen unit)
    (getMethods : Result (list Method)) : Gen unit :=
  ms ← lift getMethods;
  forEach genFunc ms.

(** The orders taken by the seven range loops of one [generateCode]. *)
Record rangeOrders := mkOrders {
  o_get : list (string * Types.Type_);
  o_create : list (string * Types.Type_);
  o_list : list (string * Types.Type_);
  o_update : list (string * Types.Type_);
  o_delete : list (string * Types.Type_);
  o_getSpec : list (string * Types.Type_);
  o_perform : list (string * Types.Type_) }.

(** The orders are legal for a manager type and a model type. *)
Definition legal_orders (manType modelType : Types.Type_) (o : rangeOrders) : Prop :=
  range_order (Types.Type_Methods modelType) (o_get o) /\
  range_order (Types.Type_Methods manType) (o_create o) /\
  range_order (Types.Type_Methods manType) (o_list o) /\
  range_order (Types.Type_Methods modelType) (o_update o) /\
  range_order (Types.Type_Methods modelType) (o_delete o) /\
  range_order (Types.Type_Methods modelType) (o_getSpec o) /\
  range_order (Types.Type_Methods modelType) (o_perform o).

(** [generateCode], given the manager instance the registry holds for the
    model ([Filter] lets only registered models through). *)
Definition generateCode (o : rangeOrders) (manIns : IModelManager)
    (manType modelType : Types.Type_) : Gen unit :=
  let parser := newTypeParser manIns manType modelType in
  getM' ← lift (getM parser (o_get o));
  generateGet getM';;
  cm ← lift (createM parser (o_create o));
  generateCreate cm getM';;
  lm ← lift (listM parser (o_list o));
  generateList lm getM';;
  um ← lift (updateM parser (o_update o));
  generateUpdate um getM';;
  dm ← lift (deleteM parser (o_delete o));
  generateDelete dm getM';;
  applyGenerateFunc generateGetSpec (getSpecM parser (o_getSpec o));;
  applyGenerateFunc generatePerformAction (performActionM parser (o_perform o)).

(** ** The rest of the generator: validity, declarations, the registry *)

(** [isValidType]: [None] is the nil error. *)
Definition isValidType (t : option Types.Type_) : option string :=
  match t with
  | None => Some "type is nil"
  | Some t0 =>
      match GetValidType t with
      | None => Some ("invalid type " +:+ Types.Type_String t0)
      | Some rt =>
          if decide (Types.Name_Name (Types.Type_Name rt) = "struct{}")
          then Some ("type name is empty " +:+ Types.Type_String rt)
          else None
      end
  end.

(** [validInputOutput] ranges over the map [{"input": input, "output":
    output}] and returns at the first invalid entry; [order] is the order
    the range takes. *)
Fixpoint validEntries (order : list (string * option Types.Type_)) : option string :=
  match order with
  | [] => None
  | (key, t) :: rest =>
      match isValidType t with
      | Some err => Some ("invalid " +:+ key +:+ " type: " +:+ err)
      | None => validEntries rest
      end
  end.

Definition inputOutputMap (input output : option Types.Type_)
    : gmap string (option Types.Type_) :=
  {[ "input" := input; "output" := output ]}.

Definition validInputOutput (order : list (string * option Types.Type_)) : option string :=
  validEntries order.

(** *** Routes declared by comment tags *)

Definition tagRouteMethod : string := "onecloud:swagger-gen-route-method".
Definition tagRoutePath : string := "onecloud:swagger-gen-route-path".
Definition tagRouteTag : string := "onecloud:swagger-gen-route-tag".
Definition tagParamPath : string := "onecloud:swagger-gen-param-path".
Definition tagParamQueryIdx : string := "onecloud:swagger-gen-param-query-index".
Definition tagParamBodyIdx : string := "onecloud:swagger-gen-param-body-index".
Definition tagParamBodyKey : string := "onecloud:swagger-gen-param-body-key".
Definition tagRespHeader : string := "onecloud:swagger-gen-resp-header".
Definition tagRespIdx : string := "onecloud:swagger-gen-resp-index".
Definition tagRespBodyKey : string := "onecloud:swagger-gen-resp-body-key".
Definition tagRespBodyList : string := "onecloud:swagger-gen-resp-body-list".
Definition tagRespBodyListOffset : string := "onecloud:swagger-gen-resp-body-list-offset".

Record SwaggerConfigRoute := mkConfigRoute {
  cr_Method : string;
  cr_Path : string;
  cr_Tags : list string }.

(** [nil] when one of the three tags is missing. *)
Definition extractSwaggerRoute (comments : list string) : option SwaggerConfigRoute :=
  match extractTagByName comments tagRouteMethod with
  | [] => None
  | method :: _ =>
      match extractTagByName comments tagRoutePath with
      | [] => None
      | path :: _ =>
          match extractTagByName comments tagRouteTag with
          | [] => None
          | tags => Some {| cr_Method := method; cr_Path := path; cr_Tags := tags |}
          end
      end
  end.

(** [fetchTagIdx]; [atoi] stands for [strconv.Atoi], [None] being its
    error.  The index is compared with the length only, so a negative index
    reaches the slice. *)
Definition fetchTagIdx (atoi : string -> option Z) (params : list Types.Type_)
    (comments : list string) (tagName : string) : Result (option Types.Type_) :=
  match extractTagByName comments tagName with
  | [] => inr None
  | v :: _ =>
      match atoi v with
      | None => inr None
      | Some idx =>
          if decide (idx >= Z.of_nat (length params))%Z then inr None
          else if decide (idx < 0)%Z then inl (Panic "index out of range")
          else inr (params !! Z.to_nat idx)
      end
  end.

(** The loop that reads a tag given twice per entry, first the key and then
    its description; a key left without description describes itself. *)
Fixpoint pairUp (vals : list string) (paths : gmap string string) : gmap string string :=
  match vals with
  | [] => paths
  | [k] => <[ k := k ]> paths
  | k :: v :: rest => pairUp rest (<[ k := v ]> paths)
  end.

(** The configuration records, with the fields the extraction assigns. *)
Record SwaggerConfigParam := mkConfigParam {
  cp_Body : option Types.Type_;
  cp_Query : option Types.Type_;
  cp_Paths : option (gmap string string);
  cp_Key : string }.

Record SwaggerConfigResponse := mkConfigResponse {
  cs_Output : option Types.Type_;
  cs_BodyKey : string;
  cs_Headers : option (gmap string string);
  cs_IsList : bool;
  cs_IsListOffset : bool }.

(** [ut.Signature], read without a nil test. *)
Definition signatureOf (ut : option Types.Type_) : Result Types.Signature :=
  match ut with
  | None => inl (Panic "nil pointer dereference")
  | Some t =>
      match Types.Type_Signature t with
      | None => inl (Panic "nil pointer dereference")
      | Some sig => inr sig
      end
  end.

Definition extractSwaggerParam (atoi : string -> option Z) (ut : option Types.Type_)
    (comments : list string) : Result (option SwaggerConfigParam) :=
  let vals := extractTagByName comments tagParamPath in
  let paths := if decide (0 < length vals) then Some (pairUp vals ∅) else None in
  sig ← signatureOf ut;
  query ← fetchTagIdx atoi (Types.Signature_Parameters sig) comments tagParamQueryIdx;
  body ← fetchTagIdx atoi (Types.Signature_Parameters sig) comments tagParamBodyIdx;
  match paths, query, body with
  | None, None, None => mret None
  | _, _, _ =>
      mret (Some {| cp_Query := query; cp_Body := body; cp_Paths := paths;
                    cp_Key := match extractTagByName comments tagParamBodyKey with
                              | [] => ""
                              | k :: _ => k
                              end |})
  end.

Definition extractSwaggerResponse (atoi : string -> option Z) (ut : option Types.Type_)
    (comments : list string) : Result (option SwaggerConfigResponse) :=
  sig ← signatureOf ut;
  respType ← fetchTagIdx atoi (Types.Signature_Results sig) comments tagRespIdx;
  match respType with
  | None => mret None
  | Some _ =>
      let bodyKey := match extractTagByName comments tagRespBodyKey with
                     | [] => ""
                     | k :: _ => k
                     end in
      let hvals := extractTagByName comments tagRespHeader in
      let headers := if decide (0 < length hvals) then Some (pairUp hvals ∅) else None in
      let isList := bool_decide (0 < length (extractTagByName comments tagRespBodyList)) in
      let isListOffset :=
        isList && bool_decide (0 < length (extractTagByName comments tagRespBodyListOffset)) in
      mret (Some {| cs_Output := respType; cs_BodyKey := bodyKey; cs_Headers := headers;
                    cs_IsList := isList; cs_IsListOffset := isListOffset |})
  end.

Record SwaggerConfig := mkConfig {
  c_Route : SwaggerConfigRoute;
  c_Param : option SwaggerConfigParam;
  c_Response : option SwaggerConfigResponse }.

Definition extractSwaggerConfig (atoi : string -> option Z) (ut : option Types.Type_)
    (comments : list string) : Result (option SwaggerConfig) :=
  match extractSwaggerRoute comments with
  | None => mret None
  | Some route =>
      param ← extractSwaggerParam atoi ut comments;
      resp ← extractSwaggerResponse atoi ut comments;
      mret (Some {| c_Route := route; c_Param := param; c_Response := resp |})
  end.

Definition getFunctionHasSwaggerConfig (atoi : string -> option Z) (t : Types.Type_)
    : Result (option SwaggerConfig) :=
  if decide (Types.Type_Kind t <> Types.DeclarationOf) then mret None
  else extractSwaggerConfig atoi (Types.Type_Underlying t)
                            (Types.Type_SecondClosestCommentLines t).

(** [SwaggerConfigRoute.newRoute] *)
Definition config_newRoute (c : SwaggerConfigRoute) (input : parameter)
    (output : response) : route :=
  {| action := cr_Method c; path := cr_Path c; r_parameter := input;
     tags := cr_Tags c; summary := ""; description := [];
     r_response := {[ 200%Z := output ]} |}.

(** [SwaggerConfigParam.newParameter]: a method of a pointer that may be
    nil; the receiver is dereferenced after the parameter is built. *)
Definition config_newParameter (c : option SwaggerConfigParam) (t : Types.Type_)
    : Result parameter :=
  let n := filepath_Base (Types.Name_Package (Types.Type_Name t)) in
  let param := newParameter "" "" (privateName n (Types.Name_Name (Types.Type_Name t))) in
  match c with
  | None => inl (Panic "nil pointer dereference")
  | Some c => inr (set_body (set_query param (cp_Query c)) (cp_Body c))
  end.

(** [SwaggerConfigResponse.newResponse] *)
Definition config_newResponse (c : option SwaggerConfigResponse) (t : Types.Type_)
    : Result response :=
  let n := filepath_Base (Types.Name_Package (Types.Type_Name t)) in
  match c with
  | None => inl (Panic "nil pointer dereference")
  | Some c =>
      inr {| output := cs_Output c;
             id := privateName n (Types.Name_Name (Types.Type_Name t)) +:+ "Output";
             bodyKey := cs_BodyKey c; isList := false; r_errorMsgs := [] |}
  end.

(** [SwaggerConfig.generate] *)
Definition config_generate (c : SwaggerConfig) (t : Types.Type_) : Gen unit :=
  param ← lift (config_newParameter (c_Param c) t);
  resp ← lift (config_newResponse (c_Response c) t);
  let route := config_newRoute (c_Route c) param resp in
  let commentLines := Types.Type_CommentLines t in
  let route :=
    match commentLines with
    | [] => route
    | l :: _ =>
        {| action := action route; path := path route; r_parameter := r_parameter route;
           tags := tags route; summary := l; description := description route;
           r_response := r_response route |}
    end in
  let desc : list string :=
    if decide (1 < length commentLines) then drop 1 commentLines else [] in
  let route :=
    reviseDescription
      {| action := action route; path := path route; r_parameter := r_parameter route;
         tags := tags route; summary := summary route; description := desc;
         r_response := r_response route |} in
  commenter_Do {| c_route := route; c_parameter := param; c_response := resp |}.

(** [generateDeclarationCode]; the configuration is used without a nil
    test. *)
Definition generateDeclarationCode (atoi : string -> option Z) (t : Types.Type_)
    : Gen unit :=
  config ← lift (getFunctionHasSwaggerConfig atoi t);
  match config with
  | None => fail (Panic "nil pointer dereference")
  | Some c => config_generate c t
  end.

(** *** The registry of the managers ([models] package)

    A manager is registered under the name of its dynamic type, the pointer
    taken off when the manager is a pointer. *)

Inductive rtype :=
| RNamed (n : string)
| RPtr (elem : rtype).

(** [reflect.Type.Name]: the empty string for a type that has no name. *)
Definition rtype_Name (t : rtype) : string :=
  match t with RNamed n => n | RPtr _ => "" end.

Record registered := mkRegistered {
  man_type : rtype;
  man_instance : IModelManager }.

(** [globalManagers]: [None] is the nil map. *)
Definition registry : Type := option (gmap string registered).

Definition RegisterModelManager (man : registered) (globalManagers : registry) : registry :=
  let globalManagers := match globalManagers with None => ∅ | Some m => m end in
  let manType := man_type man in
  let manType := match manType with RPtr e => e | _ => manType end in
  Some (<[ rtype_Name manType := man ]> globalManagers).

Definition GetModelManager (globalManagers : registry) (typeName : string)
    : option registered :=
  match globalManagers with
  | None => None
  | Some m => m !! typeName
  end.

Definition GetModelManagerByType (globalManagers : registry) (t : option Types.Type_)
    : option registered :=
  match t with
  | None => None
  | Some t => GetModelManager globalManagers (Types.Name_Name (Types.Type_Name t))
  end.

(** The name under which [RegisterModelManager] files a manager. *)
Definition managerTypeName (man : registered) : string :=
  rtype_Name (match man_type man with RPtr e => e | t => t end).

(** The loop that ends [init]: every manager of the table is registered;
    [mans] are the values of the table in the order the range takes. *)
Definition registerAll (mans : list registered) (globalManagers : registry) : registry :=
  foldl (fun gm man => RegisterModelManager man gm) globalManagers mans.

Record swaggerGen := mkSwaggerGen {
  sg_sourcePackage : string;
  sg_modelTypes : gset string;
  sg_modelManagers : gmap string Types.Type_ }.

Definition getModelManager (g : swaggerGen) (t : Types.Type_) : option Types.Type_ :=
  sg_modelManagers g !! Types.Type_String t.

Definition getModelManagerInstance (globalManagers : registry) (g : swaggerGen)
    (t : Types.Type_) : option registered :=
  GetModelManagerByType globalManagers (getModelManager g t).

Definition isModelManagerRegistered (globalManagers : registry)
    (mt : option Types.Type_) : bool :=
  match mt with
  | None => false
  | Some _ =>
      match GetModelManagerByType globalManagers mt with
      | None => false
      | Some _ => true
      end
  end.

(** [swaggerGen.Filter] *)
Definition Filter (atoi : string -> option Z) (globalManagers : registry)
    (g : swaggerGen) (t : Types.Type_) : Result bool :=
  if includeIgnoreTag t then mret false
  else
    declared ← (if decide (Types.Type_Kind t = Types.DeclarationOf)
                then swaggerCfg ← getFunctionHasSwaggerConfig atoi t;
                     mret (bool_decide (is_Some swaggerCfg))
                else mret false);
    if declared : bool then mret true
    else if Sets.Has (sg_modelTypes g) (Types.Type_String t)
            && isModelManagerRegistered globalManagers (getModelManager g t)
    then mret true
    else mret false.

(** [swaggerGen.generateCode], called by [GenerateType] with the manager
    type the generator holds for the model.  The manager instance is read
    from the registry; the keywords of an instance that is nil are read
    before anything is written, and that panics. *)
Definition swaggerGen_generateCode (globalManagers : registry) (g : swaggerGen)
    (o : rangeOrders) (modelType : Types.Type_) : Gen unit :=
  match getModelManagerInstance globalManagers g modelType,
        getModelManager g modelType with
  | Some manIns, Some manType =>
      generateCode o (man_instance manIns) manType modelType
  | _, _ => fail (Panic "nil pointer dereference")
  end.

(** [swaggerGen.GenerateType] *)
Definition GenerateType (atoi : string -> option Z) (globalManagers : registry)
    (g : swaggerGen) (o : rangeOrders) (t : Types.Type_) : Gen unit :=
  if decide (Types.Type_Kind t = Types.DeclarationOf)
  then generateDeclarationCode atoi t
  else swaggerGen_generateCode globalManagers g o t.

End Writer.

End Generator.

End SwaggerGen.

(** * A reference implementation of the code outside the sources

    The theorems hold for every [Externals]; the instance below is the one
    the concrete runs of this file use. *)

Module Reference.

Definition is_upper (c : ascii) : bool :=
  Nat.leb 65 (nat_of_ascii c) && Nat.leb (nat_of_ascii c) 90.

Definition to_lower (c : ascii) : ascii :=
  if is_upper c then ascii_of_nat (nat_of_ascii c + 32) else c.

(** A stand-in for [utils.CamelSplit]: every upper-case letter starts a new
    token, tokens are lower-cased and joined with [sep]. *)
Fixpoint camel (first : bool) (s sep : string) : string :=
  match s with
  | EmptyString => EmptyString
  | String c s' =>
      if is_upper c
      then (if first then "" else sep) +:+ String (to_lower c) (camel false s' sep)
      else String c (camel false s' sep)
  end.

Definition camelSplit (str sep : string) : string := camel true str sep.

(** A stand-in for [filepath.Base]: what follows the last slash. *)
Fixpoint base_from (acc s : string) : string :=
  match s with
  | EmptyString => acc
  | String c s' =>
      if Ascii.eqb c "/" then base_from "" s' else base_from (acc +:+ String c "") s'
  end.

Definition base (path : string) : string := base_from "" path.

(** A stand-in for [filepath.Join]: the elements separated by slashes. *)
Definition join (elems : list string) : string := String.concat "/" elems.

(** [key=value] is split at the first equals sign. *)
Fixpoint split_eq (s : string) : string * option string :=
  match s with
  | EmptyString => (EmptyString, None)
  | String c s' =>
      if Ascii.eqb c "=" then (EmptyString, Some s')
      else let kv := split_eq s' in (String c kv.1, kv.2)
  end.

(** A stand-in for gengo's [ExtractCommentTags]: the lines that start with
    the marker, read as [key] or [key=value]. *)
Definition extractCommentTags (marker : string) (lines : list string)
    : gmap string (list string) :=
  foldl (fun (out : gmap string (list string)) (line : string) =>
           if String.prefix marker line
           then
             let kv := split_eq (Strings.TrimPrefix line marker) in
             <[ kv.1 := (default [] (out !! kv.1) ++ [default "" kv.2])%list ]> out
           else out)
        ∅ lines.

(** Modelled from the spec: [common.InSourcePackage] is not among the
    sources; a type is in the source package when it is declared there. *)
Definition inSourcePackage (t : Types.Type_) (srcPkg : string) : bool :=
  bool_decide (Types.Name_Package (Types.Type_Name t) = srcPkg).

(** Modelled from the spec: [isStructPointer] is not among the sources; the
    shape check accepts a pointer to a struct type. *)
Definition structPointer (t : Types.Type_) : bool :=
  match Types.Type_Kind t, Types.Type_Elem t with
  | Types.Pointer, Some e => bool_decide (Types.Type_Kind e = Types.Struct)
  | _, _ => false
  end.

(** Modelled from the spec: [common.GetArgs] is not among the sources; it
    builds the argument map [{"type": t}], as [apiGen.args] does. *)
Definition getArgs (t : option Types.Type_) : Args := TypeArg t.

(** A stand-in for [strconv.Atoi] on decimal numbers with an optional
    minus sign. *)
Fixpoint digits (acc : Z) (s : string) : option Z :=
  match s with
  | EmptyString => Some acc
  | String c s' =>
      let n := nat_of_ascii c in
      if Nat.leb 48 n && Nat.leb n 57
      then digits (10 * acc + Z.of_nat (n - 48)) s'
      else None
  end.

Definition atoi (s : string) : option Z :=
  match s with
  | EmptyString => None
  | String c s' =>
      if Ascii.eqb c "-"
      then match s' with
           | EmptyString => None
           | _ => Z.opp <$> digits 0 s'
           end
      else digits 0 s
  end.

Definition externals : Externals :=
  {| CamelSplit := camelSplit;
     filepath_Base := base;
     filepath_Join := join;
     ExtractCommentTags := extractCommentTags;
     InSourcePackage := inSourcePackage;
     isStructPointer := structPointer;
     GetArgs := getArgs |}.

End Reference.

(** * Concrete inputs

    Types as gengo would hand them to the generators; the runs on them use
    the reference implementation above. *)

Module Examples.

#[local] Existing Instance Reference.externals.

Definition named (pkg nm : string) (k : Types.Kind) : Types.Type_ :=
  Types.mkType (Types.mkName pkg nm "") k [] [] [] None None None ∅ None.

Definition pointerTo (e : Types.Type_) : Types.Type_ :=
  Types.mkType (Types.mkName "" ("*" +:+ Types.Type_String e) "") Types.Pointer
               [] [] [] (Some e) None None ∅ None.

Definition sliceOf (e : Types.Type_) : Types.Type_ :=
  Types.mkType (Types.mkName "" ("[]" +:+ Types.Type_String e) "") Types.Slice
               [] [] [] (Some e) None None ∅ None.

Definition aliasOf (pkg nm : string) (u : Types.Type_) : Types.Type_ :=
  Types.mkType (Types.mkName pkg nm "") Types.Alias [] [] [] None None (Some u) ∅ None.

Definition funcOf (comments : list string) (params results : list Types.Type_)
    : Types.Type_ :=
  Types.mkType (Types.mkName "" "func" "") Types.Func comments [] [] None None None ∅
               (Some (Types.mkSignature None params results false [])).

Definition structOf (pkg nm : string) (members : list Types.Member)
    (methods : gmap string Types.Type_) : Types.Type_ :=
  Types.mkType (Types.mkName pkg nm "") Types.Struct [] [] members None None None
               methods None.

Definition field (nm : string) (emb : bool) (ty : Types.Type_) : Types.Member :=
  Types.mkMember nm emb [] "" ty.

Definition modelsPkg : string := "yunion.io/x/onecloud/pkg/compute/models".
Definition apisComputePkg : string := "yunion.io/x/onecloud/pkg/apis/compute".

Definition tString : Types.Type_ := named "" "string" Types.Builtin.
Definition tError : Types.Type_ := named "" "error" Types.Interface.
Definition tContext : Types.Type_ := named "context" "Context" Types.Interface.
Definition tCred : Types.Type_ :=
  named "yunion.io/x/onecloud/pkg/mcclient" "TokenCredential" Types.Interface.
Definition tOwner : Types.Type_ :=
  named "yunion.io/x/onecloud/pkg/mcclient" "IIdentityProvider" Types.Interface.
Definition tJSONObject : Types.Type_ :=
  named "yunion.io/x/jsonutils" "JSONObject" Types.Interface.
Definition tSQuery : Types.Type_ :=
  pointerTo (named "yunion.io/x/sqlchemy" "SQuery" Types.Struct).
Definition tTriState : Types.Type_ :=
  aliasOf "yunion.io/x/pkg/tristate" "TriState" tString.
Definition tSModelBase : Types.Type_ :=
  structOf ApiGen.CloudCommonDBPackage "SModelBase" [] ∅.
Definition tSDisk : Types.Type_ := structOf modelsPkg "SDisk" [] ∅.
Definition tTime : Types.Type_ := structOf "time" "Time" [] ∅.
Definition tServerCreateInput : Types.Type_ :=
  pointerTo (structOf apisComputePkg "ServerCreateInput" [] ∅).
Definition tServerDetails : Types.Type_ :=
  pointerTo (structOf apisComputePkg "ServerDetails" [] ∅).

(** The generator of the compute models package. *)
Definition gen : ApiGen.apiGen :=
  {| ApiGen.sourcePackage := modelsPkg;
     ApiGen.modelTypes := ∅;
     ApiGen.modelDependTypes := ∅;
     ApiGen.isCommonDBPackage := false;
     ApiGen.needImportPackages := ∅;
     ApiGen.apisPkg := "yunion.io/x/onecloud/pkg/apis" |}.

Definition mDisk : Types.Member := field "Disk" false (pointerTo tSDisk).
Definition mExpiredAt : Types.Member := field "ExpiredAt" false (pointerTo tTime).
Definition mPublic : Types.Member := field "Public" false tTriState.
Definition mName : Types.Member := field "Name" false tString.
Definition mBase : Types.Member := field "SModelBase" true tSModelBase.
Definition mTags : Types.Member := field "Tags" false (sliceOf tString).

Definition tSGuest : Types.Type_ :=
  structOf modelsPkg "SGuest" [mBase; mName; mPublic; mDisk; mExpiredAt] ∅.

Definition tSTagged : Types.Type_ :=
  structOf modelsPkg "STagged" [mName; mTags] ∅.

(** Methods of a model and of its manager. *)
Definition fGetExtraDetails : Types.Type_ :=
  funcOf ["get the details of a server"] [tContext; tCred; tJSONObject]
         [tServerDetails; tError].
Definition fValidateCreateData : Types.Type_ :=
  funcOf [] [tContext; tCred; tOwner; tJSONObject; tServerCreateInput]
         [tServerCreateInput; tError].
Definition fListItemFilter : Types.Type_ :=
  funcOf [] [tContext; tSQuery; tCred; tJSONObject] [tSQuery; tError].
Definition fPerform : Types.Type_ :=
  funcOf [] [tContext; tCred; tJSONObject; tJSONObject] [tJSONObject; tError].

(** Two orders in which the range over the methods of the model may run,
    and an order for the methods of the manager. *)
Definition order1 : list (string * Types.Type_) :=
  [("GetExtraDetails", fGetExtraDetails); ("PerformStart", fPerform);
   ("PerformStop", fPerform)].
Definition order2 : list (string * Types.Type_) :=
  [("GetExtraDetails", fGetExtraDetails); ("PerformStop", fPerform);
   ("PerformStart", fPerform)].
Definition orderM : list (string * Types.Type_) :=
  [("ValidateCreateData", fValidateCreateData);
   ("ValidateCreateDataV2", fValidateCreateData);
   ("ListItemFilter", fListItemFilter)].

Definition tModel : Types.Type_ :=
  structOf modelsPkg "SGuest" [] (list_to_map order1).

Definition tManager : Types.Type_ :=
  structOf modelsPkg "SGuestManager" [] (list_to_map orderM).

Definition manIns : SwaggerGen.IModelManager :=
  {| SwaggerGen.Keyword := "server"; SwaggerGen.KeywordPlural := "servers" |}.

Definition parser : SwaggerGen.typeParser :=
  SwaggerGen.newTypeParser manIns tManager tModel.

Definition mGet : SwaggerGen.Method :=
  SwaggerGen.NewMethod tModel "GetExtraDetails" fGetExtraDetails "server" "servers".
Definition mList : SwaggerGen.Method :=
  SwaggerGen.NewMethod tManager "ListItemFilter" fListItemFilter "server" "servers".
Definition mCreate : SwaggerGen.Method :=
  SwaggerGen.NewMethod tManager "ValidateCreateData" fValidateCreateData "server" "servers".
Definition mCreateV2 : SwaggerGen.Method :=
  SwaggerGen.NewMethod tManager "ValidateCreateDataV2" fValidateCreateData "server" "servers".
Definition mCreateLoose : SwaggerGen.Method :=
  SwaggerGen.NewMethod tManager "ValidateCreateData"
    (funcOf [] [tContext; tCred; tOwner; tJSONObject; tJSONObject]
            [tServerCreateInput; tError])
    "server" "servers".
Definition mStart : SwaggerGen.Method :=
  SwaggerGen.NewMethod tModel "PerformStart" fPerform "server" "servers".
Definition mStop : SwaggerGen.Method :=
  SwaggerGen.NewMethod tModel "PerformStop" fPerform "server" "servers".
Definition mReboot : SwaggerGen.Method :=
  SwaggerGen.NewMethod tModel "PerformReboot" fPerform "server" "servers".

Definition orders (perform : list (string * Types.Type_)) : SwaggerGen.rangeOrders :=
  {| SwaggerGen.o_get := order1; SwaggerGen.o_create := orderM;
     SwaggerGen.o_list := orderM; SwaggerGen.o_update := order1;
     SwaggerGen.o_delete := order1; SwaggerGen.o_getSpec := order1;
     SwaggerGen.o_perform := perform |}.

(** A member of a kind the projector has no rule for. *)
Definition mLabels : Types.Member :=
  field "Labels" false (named "" "map[string]string" Types.Map).

Definition tSLabelled : Types.Type_ :=
  structOf modelsPkg "SLabelled" [mName; mLabels] ∅.

(** A model that holds a disk of its package and a time of another. *)
Definition tSSnapshot : Types.Type_ :=
  structOf modelsPkg "SSnapshot" [mBase; mName; mDisk; mExpiredAt; mPublic] ∅.

(** A handler declared with the route tags, with and without the tags of
    its parameter and its response. *)
Definition routeTags : list string :=
  ["+onecloud:swagger-gen-route-method=GET";
   "+onecloud:swagger-gen-route-path=/servers/{id}/vnc";
   "+onecloud:swagger-gen-route-tag=server"].

Definition handlerOf (nm : string) (tags : list string) : Types.Type_ :=
  Types.mkType (Types.mkName "yunion.io/x/onecloud/pkg/compute/guesthandlers" nm "")
               Types.DeclarationOf ["get the vnc of a server"] tags [] None None
               (Some fGetExtraDetails) ∅ None.

Definition dGetVnc : Types.Type_ := handlerOf "GetVnc" routeTags.

Definition dGetVncNegative : Types.Type_ :=
  handlerOf "GetVnc" (routeTags ++ ["+onecloud:swagger-gen-resp-index=-1"])%list.

Definition dGetVncFull : Types.Type_ :=
  handlerOf "GetVnc" (routeTags ++ ["+onecloud:swagger-gen-param-query-index=2";
                                    "+onecloud:swagger-gen-resp-index=0"])%list.

(** A read method whose result is a type of jsonutils. *)
Definition tJSONDict : Types.Type_ :=
  pointerTo (structOf "yunion.io/x/jsonutils" "JSONDict" [] ∅).

Definition fGetJSON : Types.Type_ :=
  funcOf [] [tContext; tCred; tJSONObject] [tJSONDict; tError].

Definition mGetJSON : SwaggerGen.Method :=
  SwaggerGen.NewMethod tModel "GetExtraDetails" fGetJSON "server" "servers".

(** An update whose body is a type of jsonutils. *)
Definition mUpdateJSON : SwaggerGen.Method :=
  SwaggerGen.NewMethod tModel "ValidateUpdateData"
    (funcOf [] [tContext; tCred; tJSONObject; tJSONDict] [tServerDetails; tError])
    "server" "servers".

(** A model that can be updated and deleted but has no [GetExtraDetails]. *)
Definition tServerUpdateInput : Types.Type_ :=
  pointerTo (structOf apisComputePkg "ServerUpdateInput" [] ∅).

Definition fValidateUpdateData : Types.Type_ :=
  funcOf [] [tContext; tCred; tJSONObject; tServerUpdateInput]
         [tServerUpdateInput; tError].

Definition fCustomizeDelete : Types.Type_ :=
  funcOf [] [tContext; tCred; tJSONObject; tJSONObject] [tError].

Definition orderNoGet : list (string * Types.Type_) :=
  [("ValidateUpdateData", fValidateUpdateData); ("CustomizeDelete", fCustomizeDelete)].

Definition tModelNoGet : Types.Type_ :=
  structOf modelsPkg "SGuest" [] (list_to_map orderNoGet).

Definition parserNoGet : SwaggerGen.typeParser :=
  SwaggerGen.newTypeParser manIns tManager tModelNoGet.

Definition mUpdate : SwaggerGen.Method :=
  SwaggerGen.NewMethod tModelNoGet "ValidateUpdateData" fValidateUpdateData
                       "server" "servers".

Definition mDelete : SwaggerGen.Method :=
  SwaggerGen.NewMethod tModelNoGet "CustomizeDelete" fCustomizeDelete "server" "servers".

Definition ordersNoGet : SwaggerGen.rangeOrders :=
  {| SwaggerGen.o_get := orderNoGet; SwaggerGen.o_create := orderM;
     SwaggerGen.o_list := orderM; SwaggerGen.o_update := orderNoGet;
     SwaggerGen.o_delete := orderNoGet; SwaggerGen.o_getSpec := orderNoGet;
     SwaggerGen.o_perform := orderNoGet |}.

(** The swagger generator of the models package and the registry of its
    managers. *)
Definition guestManager : SwaggerGen.registered :=
  {| SwaggerGen.man_type := SwaggerGen.RPtr (SwaggerGen.RNamed "SGuestManager");
     SwaggerGen.man_instance := manIns |}.

Definition diskManager : SwaggerGen.registered :=
  {| SwaggerGen.man_type := SwaggerGen.RNamed "SDiskManager";
     SwaggerGen.man_instance :=
       {| SwaggerGen.Keyword := "disk"; SwaggerGen.KeywordPlural := "disks" |} |}.

Definition managers : SwaggerGen.registry :=
  SwaggerGen.registerAll [guestManager; diskManager] None.

Definition sgen : SwaggerGen.swaggerGen :=
  {| SwaggerGen.sg_sourcePackage := modelsPkg;
     SwaggerGen.sg_modelTypes := {[ Types.Type_String tModel ]};
     SwaggerGen.sg_modelManagers := {[ Types.Type_String tModel := tManager ]} |}.

(** The json annotation of a field, with a newline. *)
Definition tag (key : string) : string :=
  " " +:+ Strings.bquote +:+ "json:" +:+ Strings.dquote +:+ key +:+ Strings.dquote
  +:+ Strings.bquote +:+ "
".

(** The templates a run handed to the snippet writer, in order. *)
Definition written {G} (r : Result (unit * (G * SnippetWriter))) : option (list string) :=
  match r with
  | inr (_, (_, sw)) => Some (map fst sw)
  | inl _ => None
  end.

End Examples.

(** Unfolds the monad of the generators in the goal. *)
Ltac run :=
  unfold ApiGen.Member_Do, sw_Do, lift, get, modify, fail;
  unfold mbind, mret, M_bind, M_ret, Result_bind, Result_ret; simpl.

(** * Facts about the library pieces *)

Section StringOrder.

Lemma string_compare_eq (a b : string) : String_as_OT.compare a b = Eq <-> a = b.
Proof.
  destruct (String_as_OT.compare_spec a b) as [E | L | L]; split; intros X;
    try done; subst.
  - destruct (StrictOrder_Irreflexive b L).
  - destruct (StrictOrder_Irreflexive b L).
Qed.

Lemma string_compare_gt (a b : string) :
  String_as_OT.compare a b = Gt <-> String_as_OT.compare b a = Lt.
Proof.
  destruct (String_as_OT.compare_spec a b) as [E | L | L].
  - unfold String_as_OT.eq in E. subst. split; [done |].
    intros X. destruct (StrictOrder_Irreflexive b). exact X.
  - split; [done |]. intros X.
    destruct (StrictOrder_Irreflexive a). exact (StrictOrder_Transitive _ _ _ L X).
  - split; [intros _; exact L | done].
Qed.

Lemma string_le_lt_eq (a b : string) : Strings.le a b <-> Strings.lt a b \/ a = b.
Proof.
  unfold Strings.le, Strings.lt.
  destruct (String_as_OT.compare a b) eqn:E.
  - apply string_compare_eq in E. split; [by right | done].
  - split; [by left | done].
  - split; [done |]. intros [X | X]; [done |].
    apply string_compare_eq in X. congruence.
Qed.

#[global] Instance string_lt_strict : StrictOrder Strings.lt.
Proof. exact String_as_OT.lt_strorder. Qed.

#[global] Instance string_le_trans : Transitive Strings.le.
Proof.
  intros a b c Hab Hbc. apply string_le_lt_eq in Hab, Hbc. apply string_le_lt_eq.
  destruct Hab as [Hab | ->]; [| done].
  destruct Hbc as [Hbc | ->]; [| by left].
  left. by etrans.
Qed.

#[global] Instance string_le_total : Total Strings.le.
Proof.
  intros a b. unfold Strings.le.
  destruct (String_as_OT.compare a b) eqn:E; [by left | by left |].
  right. apply string_compare_gt in E. congruence.
Qed.

#[global] Instance string_le_antisym : AntiSymm eq Strings.le.
Proof.
  intros a b Hab Hba. apply string_le_lt_eq in Hab, Hba.
  destruct Hab as [Hab | ->]; [| done].
  destruct Hba as [Hba | ->]; [| done].
  destruct (StrictOrder_Irreflexive a). by etrans.
Qed.

Lemma string_ltb_lt (a b : string) : Strings.ltb a b = true <-> Strings.lt a b.
Proof.
  unfold Strings.ltb, Strings.lt. destruct (String_as_OT.compare a b); split; congruence.
Qed.

End StringOrder.

Section SetsList.

Lemma List_elem_of (s : gset string) (x : string) : x ∈ Sets.List s <-> x ∈ s.
Proof.
  unfold Sets.List. rewrite merge_sort_Permutation. apply elem_of_elements.
Qed.

Lemma List_NoDup (s : gset string) : NoDup (Sets.List s).
Proof.
  unfold Sets.List. rewrite merge_sort_Permutation. apply NoDup_elements.
Qed.

Lemma StronglySorted_le_lt (l : list string) :
  StronglySorted Strings.le l -> NoDup l -> StronglySorted Strings.lt l.
Proof.
  induction 1 as [| a l Hs IH Ha]; intros Hnd; [constructor |].
  apply NoDup_cons in Hnd as [Hin Hnd].
  constructor; [by apply IH |].
  apply Forall_forall. intros x Hx.
  rewrite Forall_forall in Ha. specialize (Ha x Hx).
  apply string_le_lt_eq in Ha as [Ha | ->]; [done | contradiction].
Qed.

(** [List] lists a set in strictly increasing order. *)
Lemma List_sorted (s : gset string) : StronglySorted Strings.lt (Sets.List s).
Proof.
  apply StronglySorted_le_lt; [| apply List_NoDup].
  unfold Sets.List. apply StronglySorted_merge_sort; apply _.
Qed.

(** A strictly increasing listing of a set is the listing [List] returns. *)
Lemma List_unique (s : gset string) (l : list string) :
  StronglySorted Strings.lt l -> (forall x, x ∈ l <-> x ∈ s) -> Sets.List s = l.
Proof.
  intros Hl Hel.
  assert (Hle : forall l', StronglySorted Strings.lt l' -> StronglySorted Strings.le l').
  { induction 1 as [| a l' Hs IH Ha]; constructor; [done |].
    eapply Forall_impl; [exact Ha |]. intros x Hx. apply string_le_lt_eq. by left. }
  assert (Hnd : NoDup l).
  { clear Hel Hle. induction Hl as [| a l Hs IH Ha]; constructor; [| done].
    intros Hin. rewrite Forall_forall in Ha.
    exact (StrictOrder_Irreflexive a (Ha a Hin)). }
  apply (StronglySorted_unique Strings.le).
  - apply Hle, List_sorted.
  - by apply Hle.
  - apply NoDup_Permutation; [apply List_NoDup | done |].
    intros x. rewrite List_elem_of. by rewrite Hel.
Qed.

Lemma List_singleton (x : string) : Sets.List {[ x ]} = [x].
Proof.
  apply List_unique.
  - repeat constructor.
  - intros y. rewrite list_elem_of_singleton. set_solver.
Qed.

Lemma List_pair (x y : string) :
  Strings.lt x y -> Sets.List ({[ y ]} ∪ {[ x ]}) = [x; y].
Proof.
  intros Hxy. apply List_unique.
  - repeat constructor. done.
  - intros z. rewrite !elem_of_cons, elem_of_nil. set_solver.
Qed.

End SetsList.

Section StringAppend.

Lemma string_app_cons (x : ascii) (a b : string) :
  String x a +:+ b = String x (a +:+ b).
Proof. reflexivity. Qed.

Lemma string_app_assoc (a b c : string) : (a +:+ b) +:+ c = a +:+ (b +:+ c).
Proof. induction a as [| x a IH]; [done |]. by rewrite !string_app_cons, IH. Qed.

Lemma string_app_nil_r (a : string) : a +:+ "" = a.
Proof. induction a as [| x a IH]; [done |]. by rewrite string_app_cons, IH. Qed.

Lemma prefix_app (a b : string) : String.prefix a (a +:+ b) = true.
Proof.
  induction a as [| x a IH]; [by destruct b |].
  rewrite string_app_cons. simpl.
  destruct (ascii_dec x x); [exact IH | done].
Qed.

End StringAppend.

(** * The field projector *)

Section Projector.
Context `{Externals}.

Import ApiGen.

(** The text of a field with a fixed type expression and json tags. *)
Lemma Member_format_typed (m : ApiGen.Member) :
  mType m <> "" -> embedded m = false -> jsonTags m <> [] ->
  Member_format m =
    name m +:+ " " +:+ mType m +:+ " " +:+ Strings.bquote +:+ "json:" +:+ Strings.dquote
    +:+ Strings.Join (jsonTags m) "," +:+ Strings.dquote +:+ Strings.bquote +:+ "
".
Proof.
  intros Ht He Hj. unfold Member_format. rewrite He.
  destruct (decide (mType m <> "")) as [_ | N]; [| done].
  destruct (decide (length (jsonTags m) <> 0)) as [_ | N].
  - by rewrite !string_app_assoc.
  - destruct (jsonTags m); [done | simpl in N; lia].
Qed.

Lemma NewModelMember_tags (n : string) :
  jsonTags (NewModelMember n) = [CamelSplit n "_"].
Proof.
  unfold NewModelMember, Member_AddTag, Sets.Insert, Sets.NewString. simpl.
  replace (list_to_set [] : gset string) with (∅ : gset string) by done.
  rewrite !(right_id_L ∅ (∪)). apply List_singleton.
Qed.

(** The text of a field whose type is written by a namer. *)
Lemma Member_format_named (m : ApiGen.Member) :
  mType m = "" -> embedded m = false -> jsonTags m <> [] ->
  Member_format m =
    name m +:+ " $.type|" +:+ namer m +:+ "$ " +:+ Strings.bquote +:+ "json:"
    +:+ Strings.dquote +:+ Strings.Join (jsonTags m) "," +:+ Strings.dquote
    +:+ Strings.bquote +:+ "
".
Proof.
  intros Ht He Hj. unfold Member_format. rewrite He, Ht.
  destruct (decide ("" <> "")) as [N | _]; [done |].
  destruct (decide (length (jsonTags m) <> 0)) as [_ | N].
  - by rewrite !string_app_assoc.
  - destruct (jsonTags m); [done | simpl in N; lia].
Qed.

(** The text of an embedded field: the type expression alone. *)
Lemma Member_format_embedded (m : ApiGen.Member) :
  embedded m = true -> jsonTags m = [] ->
  Member_format m =
    (if decide (mType m <> "") then mType m else "$.type|" +:+ namer m +:+ "$") +:+ "
".
Proof.
  intros He Hj. unfold Member_format. rewrite He, Hj. simpl.
  destruct (decide (0 <> 0)); [done | reflexivity].
Qed.

Lemma AddTag_tags (m : ApiGen.Member) (ts : list string) :
  jsonTags (Member_AddTag m ts) = Sets.List (list_to_set ts ∪ list_to_set (jsonTags m)).
Proof. reflexivity. Qed.

Lemma Member_Type_tags (m : ApiGen.Member) (ty : string) :
  jsonTags (Member_Type m ty) = jsonTags m.
Proof. reflexivity. Qed.

(** C9: a member whose alias type is named [TriState] is emitted as a
    [*bool] field whose json tag list holds [omitempty], whatever the alias
    stands for; any other alias is emitted with the raw name of its
    underlying type and the snake-cased field name as its only tag. *)
Theorem doAlias_tristate (member : Types.Member) (st : apiGen * SnippetWriter) :
  let mt := Types.Member_Type member in
  let jName := CamelSplit (Types.Member_Name member) "_" in
  (Types.Name_Name (Types.Type_Name mt) = "TriState" ->
   exists tags : list string,
     "omitempty" ∈ tags /\
     (forall x, x ∈ tags <-> x = "omitempty" \/ x = jName) /\
     doAlias member st =
       inr (tt, (st.1, st.2 ++
         [(Types.Member_Name member +:+ " *bool " +:+ Strings.bquote +:+ "json:"
           +:+ Strings.dquote +:+ Strings.Join tags "," +:+ Strings.dquote
           +:+ Strings.bquote +:+ "
", NoArgs)])%list))
  /\
  (Types.Name_Name (Types.Type_Name mt) <> "TriState" ->
   forall ut, underlyingType mt = inr ut ->
     doAlias member st =
       inr (tt, (st.1, st.2 ++
         [(Types.Member_Name member +:+ " $.type|raw$ " +:+ Strings.bquote +:+ "json:"
           +:+ Strings.dquote +:+ jName +:+ Strings.dquote +:+ Strings.bquote +:+ "
", TypeArg (Some ut))])%list))
  /\
  (Types.Type_Kind mt = Types.Alias -> isModelBase mt = false ->
   forall t, generateMember t member st = doAlias member st).
Proof.
  intros mt jName. split; [| split].
  - intros Hname.
    set (m := Member_Type (Member_AddTag (NewModelMember (Types.Member_Name member))
                                         ["omitempty"]) "*bool").
    exists (jsonTags m).
    assert (Hel : forall x, x ∈ jsonTags m <-> x = "omitempty" \/ x = jName).
    { intros x. subst m.
      rewrite Member_Type_tags, AddTag_tags, List_elem_of, NewModelMember_tags.
      fold jName. set_solver. }
    assert (Hin : "omitempty" ∈ jsonTags m) by (apply Hel; by left).
    split; [exact Hin |]. split; [exact Hel |].
    unfold doAlias. fold mt. rewrite Hname. unfold TypeMap.
    rewrite lookup_singleton_eq. simpl. fold m. run.
    rewrite (Member_format_typed m); [reflexivity | done | done |].
    intros E. rewrite E in Hin. by apply elem_of_nil in Hin.
  - intros Hname ut Hut. unfold doAlias. fold mt. unfold TypeMap.
    rewrite lookup_singleton_ne by congruence. run. rewrite Hut. simpl.
    rewrite Member_format_named.
    + rewrite NewModelMember_tags. reflexivity.
    + reflexivity.
    + reflexivity.
    + rewrite NewModelMember_tags. done.
  - intros Hk Hb t. unfold generateMember. fold mt. by rewrite Hb, Hk.
Qed.

End Projector.

(** ** Members the projector has a rule for *)

Section SupportedMembers.
Context `{Externals}.

Import ApiGen.

(** The alias chain of [t] ends in a type that is no alias. *)
Fixpoint underlyingType_wf (t : Types.Type_) {struct t} :
  wf_alias t = true -> exists ut, underlyingType t = inr ut.
Proof.
  destruct t as [nm k cl scl ms e ky u mt sg]. simpl.
  destruct k; try (intros _; eexists; reflexivity).
  destruct u as [u |]; [apply underlyingType_wf | done].
Qed.

(** A field that is not embedded starts with its name. *)
Lemma Member_format_prefix (m : ApiGen.Member) :
  embedded m = false -> String.prefix (name m +:+ " ") (Member_format m) = true.
Proof.
  intros He. unfold Member_format. rewrite He.
  destruct (decide (length (jsonTags m) <> 0));
    rewrite <- ?string_app_assoc; rewrite !string_app_assoc;
    rewrite <- (string_app_assoc (name m) " "); apply prefix_app.
Qed.

Lemma forEach_cons {S A} (body : A -> M S unit) (x : A) (xs : list A) (st : S) :
  forEach body (x :: xs) st =
    match body x st with
    | inl e => inl e
    | inr (_, st') => forEach body xs st'
    end.
Proof. reflexivity. Qed.

Ltac name_prefix He :=
  cbn [fst]; rewrite ?He;
  lazymatch goal with
  | |- String.prefix _ (Member_format ?m) = true => exact (Member_format_prefix m eq_refl)
  end.

(** A supported member emits one field; the field depends on the generator
    through its source package and its API package only, and it starts with
    the member's name unless the member is embedded. *)
Lemma generateMember_supported (t : Types.Type_) (mem : Types.Member) (g : apiGen) :
  isModelBase (Types.Member_Type mem) = false ->
  supported mem = true ->
  exists fld : string * Args,
    (forall (g2 : apiGen) (sw2 : SnippetWriter),
      sourcePackage g2 = sourcePackage g -> apisPkg g2 = apisPkg g ->
      exists g2', sourcePackage g2' = sourcePackage g /\ apisPkg g2' = apisPkg g /\
        generateMember t mem (g2, sw2) = inr (tt, (g2', (sw2 ++ [fld])%list)))
    /\ (Types.Member_Embedded mem = false ->
        String.prefix (Types.Member_Name mem +:+ " ") fld.1 = true).
Proof.
  intros Hb Hs. unfold generateMember. rewrite Hb. unfold supported in Hs.
  destruct (Types.Type_Kind (Types.Member_Type mem)) eqn:Hk; try done.
  - (* builtin *)
    eexists. split.
    + intros g2 sw2 Hsp Hap. exists g2. split; [done |]. split; [done |].
      unfold doBuiltin. run. reflexivity.
    + intros He. name_prefix He.
  - (* struct *)
    unfold doStruct.
    destruct (InSourcePackage (Types.Member_Type mem) (sourcePackage g)) eqn:E1;
      [| destruct (GetInputOutputPackageMap (apisPkg g)
                     !! Types.Name_Package (Types.Type_Name (Types.Member_Type mem)))
           as [outPkg |] eqn:E2].
    + eexists. split.
      * intros g2 sw2 Hsp Hap. exists g2. split; [done |]. split; [done |].
        run. unfold inSourcePackage. simpl. rewrite Hsp, E1. reflexivity.
      * intros He. name_prefix He.
    + eexists. split.
      * intros g2 sw2 Hsp Hap. eexists. split; [| split]; cycle 2.
        -- run. unfold inSourcePackage. simpl. rewrite Hsp, E1, Hap, E2. simpl. reflexivity.
        -- simpl. exact Hsp.
        -- simpl. exact Hap.
      * intros He. name_prefix He.
    + eexists. split.
      * intros g2 sw2 Hsp Hap. exists g2. split; [done |]. split; [done |].
        run. unfold inSourcePackage. simpl. rewrite Hsp, E1, Hap, E2. reflexivity.
      * intros He. name_prefix He.
  - (* pointer *)
    apply bool_decide_eq_true in Hs as [elem Hel].
    unfold doPointer, getPointerSourcePackageName, elemOf. rewrite Hel.
    destruct (InSourcePackage elem (sourcePackage g)) eqn:E1.
    + eexists. split.
      * intros g2 sw2 Hsp Hap. exists g2. split; [done |]. split; [done |].
        run. unfold inSourcePackage. simpl. rewrite Hsp, E1. simpl.
        rewrite ?Hsp, ?E1. reflexivity.
      * intros He. name_prefix He.
    + eexists. split.
      * intros g2 sw2 Hsp Hap. exists g2. split; [done |]. split; [done |].
        run. unfold inSourcePackage. simpl. rewrite Hsp, E1. reflexivity.
      * intros He. name_prefix He.
  - (* alias *)
    unfold doAlias.
    destruct (TypeMap !! Types.Name_Name (Types.Type_Name (Types.Member_Type mem)))
      as [ct |] eqn:E1.
    + eexists. split.
      * intros g2 sw2 Hsp Hap. exists g2. split; [done |]. split; [done |].
        run. reflexivity.
      * intros He. name_prefix He.
    + simpl in Hs. destruct (underlyingType_wf _ Hs) as [ut Hut].
      eexists. split.
      * intros g2 sw2 Hsp Hap. exists g2. split; [done |]. split; [done |].
        run. rewrite Hut. reflexivity.
      * intros He. name_prefix He.
  - (* interface *)
    apply negb_true_iff in Hs.
    eexists. split.
    + intros g2 sw2 Hsp Hap. exists g2. split; [done |]. split; [done |].
      unfold doInterface. rewrite Hs. run. reflexivity.
    + intros He. name_prefix He.
Qed.

(** C4: when every member of a model type is the sentinel base or a
    supported member, the projector emits one field per projectable member,
    in the order of the member list: the fields are as many as the
    projectable members, the i-th field is the one the i-th projectable
    member yields on its own, and it starts with that member's name unless
    the member is embedded.  The derived struct is these fields between its
    opening and its closing line. *)
Theorem generateFor_fields (t : Types.Type_) (g : apiGen) :
  Forall (fun mem => isModelBase (Types.Member_Type mem) = true \/ supported mem = true)
         (Types.Type_Members t) ->
  exists fields : list (string * Args),
    length fields = length (projectable t) /\
    Forall2 (fun mem fld =>
               (exists g1, generateMember t mem (g, []) = inr (tt, (g1, [fld]))) /\
               (Types.Member_Embedded mem = false ->
                String.prefix (Types.Member_Name mem +:+ " ") fld.1 = true))
            (projectable t) fields /\
    (forall sw, exists g',
       generateFor t (g, sw) = inr (tt, (g', (sw ++ fields)%list))) /\
    (forall sw, exists g',
       generateStructType t (g, sw) =
         inr (tt, (g', (sw ++ ("type $.type|public$ struct {
", args t) :: fields ++ [("}
", NoArgs)])%list))).
Proof.
  unfold generateFor, projectable.
  assert (Hgen : forall ms,
    Forall (fun mem => isModelBase (Types.Member_Type mem) = true \/ supported mem = true) ms ->
    exists fields : list (string * Args),
      Forall2 (fun mem fld =>
                 (exists g1, generateMember t mem (g, []) = inr (tt, (g1, [fld]))) /\
                 (Types.Member_Embedded mem = false ->
                  String.prefix (Types.Member_Name mem +:+ " ") fld.1 = true))
              (filter (fun mem => isModelBase (Types.Member_Type mem) = false) ms) fields /\
      forall (gi : apiGen) (swi : SnippetWriter),
        sourcePackage gi = sourcePackage g -> apisPkg gi = apisPkg g ->
        exists g', forEach (generateMember t) ms (gi, swi)
                   = inr (tt, (g', (swi ++ fields)%list))).
  { induction ms as [| mem ms IH]; intros Hall.
    - exists []. split; [constructor |]. intros gi swi _ _. exists gi.
      simpl. run. by rewrite app_nil_r.
    - apply Forall_cons in Hall as [Hmem Hall].
      destruct (IH Hall) as (fields & Hf & Hrun).
      destruct (isModelBase (Types.Member_Type mem)) eqn:Hb.
      + exists fields. split.
        * rewrite filter_cons_False; [exact Hf | by rewrite Hb].
        * intros gi swi Hsp Hap. destruct (Hrun gi swi Hsp Hap) as [g' Hg'].
          exists g'. rewrite forEach_cons. unfold generateMember at 1. rewrite Hb.
          exact Hg'.
      + destruct Hmem as [Hmem | Hmem]; [done |].
        destruct (generateMember_supported t mem g Hb Hmem) as (fld & Hfld & Hname).
        exists (fld :: fields). split.
        * rewrite filter_cons_True by done. constructor; [| exact Hf].
          split; [| exact Hname].
          destruct (Hfld g [] eq_refl eq_refl) as (g1 & _ & _ & Hrun0).
          exists g1. exact Hrun0.
        * intros gi swi Hsp Hap.
          destruct (Hfld gi swi Hsp Hap) as (g2 & Hsp2 & Hap2 & Hrun1).
          destruct (Hrun g2 (swi ++ [fld])%list Hsp2 Hap2) as [g' Hg'].
          exists g'. rewrite forEach_cons, Hrun1. cbn beta iota.
          rewrite <- app_assoc in Hg'. exact Hg'. }
  intros Hall. destruct (Hgen _ Hall) as (fields & Hf & Hrun).
  exists fields. split; [symmetry; exact (Forall2_length _ _ _ Hf) |].
  split; [exact Hf |]. split.
  - intros sw. exact (Hrun g sw eq_refl eq_refl).
  - intros sw. unfold generateStructType, generateFor.
    destruct (Hrun g (sw ++ [("type $.type|public$ struct {
", args t)])%list eq_refl eq_refl) as [g' Hg'].
    exists g'. run.
    match goal with
    | |- match ?x with _ => _ end = _ =>
        replace x with (@inr failure _ (tt, (g', ((sw ++ [("type $.type|public$ struct {
", args t)]) ++ fields)%list))) by (symmetry; exact Hg')
    end.
    cbn. rewrite <- !app_assoc. reflexivity.
Qed.

End SupportedMembers.

(** ** Pointer members, and members that abort the run *)

Section PointerAndSlice.
Context `{Externals}.

Import ApiGen.

Lemma star_not_empty (s : string) : "*" +:+ s <> "".
Proof. rewrite string_app_cons. discriminate. Qed.

(** C2, as the code has it: a pointer member whose element is declared in
    the source package is emitted with the type expression [*Name], the
    declared name of the element; a pointer member whose element is declared
    elsewhere is emitted as well, its type written by the raw namer.  In
    both cases the run goes on. *)
Theorem doPointer_field (m : Types.Member) (elem : Types.Type_)
    (st : apiGen * SnippetWriter) :
  Types.Type_Elem (Types.Member_Type m) = Some elem ->
  let typeExpr :=
    if inSourcePackage st.1 elem
    then "*" +:+ Types.Name_Name (Types.Type_Name elem)
    else "$.type|raw$" in
  let text :=
    if Types.Member_Embedded m
    then typeExpr +:+ "
"
    else Types.Member_Name m +:+ " " +:+ typeExpr +:+ " " +:+ Strings.bquote +:+ "json:"
         +:+ Strings.dquote +:+ CamelSplit (Types.Member_Name m) "_" +:+ Strings.dquote
         +:+ Strings.bquote +:+ "
" in
  doPointer m st = inr (tt, (st.1, (st.2 ++ [(text, TypeArg (Some (Types.Member_Type m)))])%list))
  /\
  (Types.Type_Kind (Types.Member_Type m) = Types.Pointer ->
   isModelBase (Types.Member_Type m) = false ->
   forall t, generateMember t m st = doPointer m st).
Proof.
  intros Hel typeExpr text. subst typeExpr text.
  split; [| intros Hk Hb t; unfold generateMember; by rewrite Hb, Hk].
  unfold doPointer, getPointerSourcePackageName, elemOf. rewrite Hel. run.
  destruct (inSourcePackage st.1 elem) eqn:E1; simpl; rewrite ?E1; simpl;
    destruct (Types.Member_Embedded m) eqn:E2; simpl.
  - rewrite Member_format_embedded by done. simpl.
    destruct (decide ("*" +:+ Types.Name_Name (Types.Type_Name elem) <> "")) as [_ | N];
      [done | destruct N; apply star_not_empty].
  - rewrite Member_format_typed.
    + rewrite Member_Type_tags, NewModelMember_tags. reflexivity.
    + apply star_not_empty.
    + done.
    + rewrite Member_Type_tags, NewModelMember_tags. done.
  - rewrite Member_format_embedded by done. reflexivity.
  - rewrite Member_format_named.
    + by rewrite NewModelMember_tags.
    + done.
    + done.
    + by rewrite NewModelMember_tags.
Qed.

(** A loop aborts when one of its rounds always aborts; what holds of every
    failure of a round holds of the failure of the loop. *)
Lemma forEach_aborts {S A} (P : failure -> Prop) (body : A -> M S unit)
    (xs : list A) (x : A) :
  x ∈ xs ->
  (forall st, exists e, body x st = inl e) ->
  (forall y st e, y ∈ xs -> body y st = inl e -> P e) ->
  forall st, exists e, forEach body xs st = inl e /\ P e.
Proof.
  intros Hin Hx HP. induction xs as [| y ys IH]; intros st.
  - by apply elem_of_nil in Hin.
  - rewrite forEach_cons. destruct (body y st) as [e | [[] st']] eqn:Ey.
    + exists e. split; [done |]. eapply HP; [left | exact Ey].
    + apply elem_of_cons in Hin as [-> | Hin].
      * destruct (Hx st) as [e He]. congruence.
      * apply IH; [exact Hin |]. intros z st0 e Hz. apply HP. by right.
Qed.

(** A member as gengo builds it never makes the projector panic. *)
Lemma generateMember_no_panic (t : Types.Type_) (mem : Types.Member)
    (st : apiGen * SnippetWriter) (e : failure) :
  wf_member mem = true -> generateMember t mem st = inl e ->
  exists format args, e = Fatalf format args.
Proof.
  unfold wf_member, generateMember. intros Hwf.
  destruct (isModelBase (Types.Member_Type mem)); [done |].
  destruct (Types.Type_Kind (Types.Member_Type mem)) eqn:Hk;
    try (intros [= <-]; by eexists _, _).
  - unfold doStruct. run.
    destruct (inSourcePackage st.1 (Types.Member_Type mem)); [done |].
    by destruct (GetInputOutputPackageMap (apisPkg st.1) !! _).
  - apply bool_decide_eq_true in Hwf as [elem Hel].
    unfold doPointer, getPointerSourcePackageName, elemOf. rewrite Hel. run.
    destruct (inSourcePackage st.1 elem) eqn:E; simpl; rewrite ?E; done.
  - unfold doAlias.
    destruct (TypeMap !! Types.Name_Name (Types.Type_Name (Types.Member_Type mem))).
    + run. done.
    + simpl in Hwf. destruct (underlyingType_wf _ Hwf) as [ut Hut]. run.
      rewrite Hut. done.
  - unfold doInterface. run.
    destruct (Types.Member_Embedded mem); [| done].
    intros [= <-]. by eexists _, _.
Qed.

(** C5: a member of slice kind (that is not the sentinel base, which the
    projector skips before it looks at kinds) always makes its rule fail
    with the fatal error "--slice not implement", whatever the element type;
    the projection of a type that has such a member aborts, and it aborts
    with a fatal error when the members are as gengo builds them. *)
Theorem generateFor_slice_aborts (t : Types.Type_) (mem : Types.Member)
    (g : apiGen) (sw : SnippetWriter) :
  mem ∈ Types.Type_Members t ->
  Types.Type_Kind (Types.Member_Type mem) = Types.Slice ->
  isModelBase (Types.Member_Type mem) = false ->
  (forall st, generateMember t mem st = inl (Fatalf "--slice not implement" [])) /\
  (exists e, generateFor t (g, sw) = inl e) /\
  (Forall (fun m => wf_member m = true) (Types.Type_Members t) ->
   is_fatal (generateFor t (g, sw))).
Proof.
  intros Hin Hk Hb.
  assert (Hmem : forall st, generateMember t mem st = inl (Fatalf "--slice not implement" [])).
  { intros st. unfold generateMember. by rewrite Hb, Hk. }
  split; [exact Hmem |]. split.
  - destruct (forEach_aborts (fun _ => True) (generateMember t) _ mem Hin) with (st := (g, sw))
      as (e & He & _); [by eexists | done | by exists e].
  - intros Hwf.
    destruct (forEach_aborts (fun e => exists format args, e = Fatalf format args)
                (generateMember t) _ mem Hin) with (st := (g, sw))
      as (e & He & format & args & ->).
    + by eexists.
    + intros y st e Hy. apply generateMember_no_panic.
      rewrite Forall_forall in Hwf. by apply Hwf.
    + unfold generateFor. rewrite He. exact I.
Qed.

End PointerAndSlice.

(** ** The projector on the compute models *)

Section ProjectorRuns.

Import ApiGen Examples.
#[local] Existing Instance Reference.externals.

(** C2 fails as stated: [ExpiredAt] points to [time.Time], a struct of
    another package, and the projector emits the field instead of stopping
    with a fatal error. *)
Lemma doPointer_external_emits :
  inSourcePackage gen tTime = false /\
  ~ is_fatal (doPointer mExpiredAt (gen, [])) /\
  doPointer mExpiredAt (gen, []) =
    inr (tt, (gen, [("ExpiredAt $.type|raw$" +:+ tag "expired_at",
                     TypeArg (Some (pointerTo tTime)))])).
Proof.
  split; [reflexivity |]. split; [| reflexivity].
  intros Hf. vm_compute in Hf. exact Hf.
Qed.

(** The pointer rule on [Disk], whose element is a local struct. *)
Lemma doPointer_field_witness :
  Types.Type_Elem (Types.Member_Type mDisk) = Some tSDisk /\
  doPointer mDisk (gen, []) =
    inr (tt, (gen, [("Disk *SDisk" +:+ tag "disk", TypeArg (Some (pointerTo tSDisk)))])).
Proof.
  split; [reflexivity |].
  exact (proj1 (doPointer_field mDisk tSDisk (gen, []) eq_refl)).
Defined.

(** The tri-state rule on [Public]. *)
Lemma doAlias_tristate_witness :
  Types.Name_Name (Types.Type_Name (Types.Member_Type mPublic)) = "TriState" /\
  exists tags : list string,
    "omitempty" ∈ tags /\
    doAlias mPublic (gen, []) =
      inr (tt, (gen, [("Public *bool " +:+ Strings.bquote +:+ "json:" +:+ Strings.dquote
                       +:+ Strings.Join tags "," +:+ Strings.dquote +:+ Strings.bquote +:+ "
", NoArgs)])).
Proof.
  split; [reflexivity |].
  destruct (proj1 (doAlias_tristate mPublic (gen, [])) eq_refl) as (tags & Hin & _ & Hrun).
  exists tags. split; [exact Hin | exact Hrun].
Defined.

(** The projection of [SGuest]: four fields for five members, the base
    being skipped. *)
Lemma generateFor_fields_witness :
  Forall (fun mem => isModelBase (Types.Member_Type mem) = true \/ supported mem = true)
         (Types.Type_Members tSGuest) /\
  exists (g' : apiGen) (fields : list (string * Args)),
    generateFor tSGuest (gen, []) = inr (tt, (g', fields)) /\ length fields = 4.
Proof.
  assert (Hall : Forall (fun mem => isModelBase (Types.Member_Type mem) = true
                                    \/ supported mem = true)
                        (Types.Type_Members tSGuest)).
  { repeat (apply List.Forall_cons; [vm_compute; auto |]). apply List.Forall_nil. }
  split; [exact Hall |].
  destruct (generateFor_fields tSGuest gen Hall) as (fields & Hlen & _ & Hrun & _).
  destruct (Hrun []) as [g' Hg'].
  exists g', fields. split; [exact Hg' | exact Hlen].
Defined.

(** The projection of [STagged], which has a slice member, is fatal. *)
Lemma generateFor_slice_aborts_witness :
  mTags ∈ Types.Type_Members tSTagged /\
  Types.Type_Kind (Types.Member_Type mTags) = Types.Slice /\
  isModelBase (Types.Member_Type mTags) = false /\
  is_fatal (generateFor tSTagged (gen, [])).
Proof.
  assert (Hin : mTags ∈ Types.Type_Members tSTagged) by (right; left).
  split; [exact Hin |]. split; [reflexivity |]. split; [reflexivity |].
  refine (proj2 (proj2 (generateFor_slice_aborts tSTagged mTags gen [] Hin eq_refl eq_refl)) _).
  repeat (apply List.Forall_cons; [reflexivity |]). apply List.Forall_nil.
Defined.

End ProjectorRuns.

(** ** The json tags of a field *)

Section JsonTags.
Context `{Externals}.

Import ApiGen.

(** [AddTag] keeps the tag list strictly increasing, and adds its tags to
    the ones already there. *)
Lemma AddTag_invariant (tagss : list (list string)) (m0 : ApiGen.Member) :
  StronglySorted Strings.lt (jsonTags m0) ->
  let m := foldl Member_AddTag m0 tagss in
  StronglySorted Strings.lt (jsonTags m) /\
  (forall x, x ∈ jsonTags m <-> x ∈ jsonTags m0 \/ exists ts, ts ∈ tagss /\ x ∈ ts) /\
  name m = name m0 /\ embedded m = embedded m0.
Proof.
  revert m0. induction tagss as [| ts tagss IH]; intros m0 Hs; cbn [foldl]; cbv zeta.
  - split; [exact Hs |]. split; [| split; reflexivity]. intros x. split; [by left |].
    intros [Hx | (ts & Hts & _)]; [exact Hx | by apply elem_of_nil in Hts].
  - destruct (IH (Member_AddTag m0 ts)) as (Hs' & Hel & Hn & He).
    { rewrite AddTag_tags. apply List_sorted. }
    split; [exact Hs' |]. split; [| split; [exact Hn | exact He]].
    intros x. rewrite Hel, AddTag_tags, List_elem_of. split.
    + intros [Hx | (ts' & Hts' & Hx)].
      * apply elem_of_union in Hx as [Hx | Hx]; apply elem_of_list_to_set in Hx.
        -- right. exists ts. split; [left | exact Hx].
        -- left. exact Hx.
      * right. exists ts'. split; [right; exact Hts' | exact Hx].
    + intros [Hx | (ts' & Hts' & Hx)].
      * left. apply elem_of_union. right. apply elem_of_list_to_set. exact Hx.
      * apply elem_of_cons in Hts' as [-> | Hts'].
        -- left. apply elem_of_union. left. apply elem_of_list_to_set. exact Hx.
        -- right. exists ts'. split; [exact Hts' | exact Hx].
Qed.

(** The json annotation of a field that is not embedded. *)
Lemma Member_format_json (m : ApiGen.Member) :
  embedded m = false -> jsonTags m <> [] ->
  exists decl : string,
    String.prefix (name m +:+ " ") decl = true /\
    Member_format m =
      decl +:+ " " +:+ Strings.bquote +:+ "json:" +:+ Strings.dquote
      +:+ Strings.Join (jsonTags m) "," +:+ Strings.dquote +:+ Strings.bquote +:+ "
".
Proof.
  intros He Hj. unfold Member_format. rewrite He.
  set (typePart := if decide (mType m <> "") then mType m
                   else "$.type|" +:+ namer m +:+ "$").
  destruct (decide (length (jsonTags m) <> 0)) as [_ | N].
  - exists (name m +:+ " " +:+ typePart). split.
    + rewrite <- string_app_assoc. apply prefix_app.
    + by rewrite !string_app_assoc.
  - destruct (jsonTags m); [done | simpl in N; lia].
Qed.

(** C10: the tag list of a field is the strictly increasing (so sorted and
    free of duplicates) listing of all the tags that were added, whatever
    the order of the additions; a field that is not embedded and has a tag
    carries that list, joined by commas, in its json annotation; and the
    tri-state override on a field whose snake-cased name comes after
    "omitempty" writes "omitempty" first. *)
Theorem jsonTags_sorted (n : string) (tagss : list (list string)) :
  let m := foldl Member_AddTag (NewMember n) tagss in
  StronglySorted Strings.lt (jsonTags m) /\
  (forall x, x ∈ jsonTags m <-> exists ts, ts ∈ tagss /\ x ∈ ts) /\
  (forall m', jsonTags m' = jsonTags m -> embedded m' = false -> jsonTags m' <> [] ->
     exists decl : string,
       String.prefix (name m' +:+ " ") decl = true /\
       Member_format m' =
         decl +:+ " " +:+ Strings.bquote +:+ "json:" +:+ Strings.dquote
         +:+ Strings.Join (jsonTags m) "," +:+ Strings.dquote +:+ Strings.bquote +:+ "
") /\
  (forall (member : Types.Member) (st : apiGen * SnippetWriter),
     let jName := CamelSplit (Types.Member_Name member) "_" in
     Types.Name_Name (Types.Type_Name (Types.Member_Type member)) = "TriState" ->
     Strings.lt "omitempty" jName ->
     doAlias member st =
       inr (tt, (st.1, st.2 ++
         [(Types.Member_Name member +:+ " *bool " +:+ Strings.bquote +:+ "json:"
           +:+ Strings.dquote +:+ "omitempty," +:+ jName +:+ Strings.dquote
           +:+ Strings.bquote +:+ "
", NoArgs)])%list)).
Proof.
  intros m.
  destruct (AddTag_invariant tagss (NewMember n)) as (Hs & Hel & _ & _);
    [constructor |]. fold m in Hs, Hel.
  split; [exact Hs |]. split; [| split].
  - intros x. rewrite Hel. split; [| by right].
    intros [Hx | Hx]; [by apply elem_of_nil in Hx | done].
  - intros m' Htags He Hne. rewrite <- Htags. by apply Member_format_json.
  - intros member st jName Hname Hlt.
    set (m1 := Member_Type (Member_AddTag (NewModelMember (Types.Member_Name member))
                                          ["omitempty"]) "*bool").
    assert (Htags : jsonTags m1 = ["omitempty"; jName]).
    { subst m1. rewrite Member_Type_tags, AddTag_tags, NewModelMember_tags. fold jName.
      replace (list_to_set ["omitempty"] ∪ list_to_set [jName] : gset string)
        with ({[ jName ]} ∪ {[ "omitempty" ]} : gset string) by set_solver.
      exact (List_pair _ _ Hlt). }
    unfold doAlias. rewrite Hname. unfold TypeMap.
    rewrite lookup_singleton_eq. simpl. fold m1. run.
    rewrite (Member_format_typed m1); [| done | done |].
    + rewrite Htags. reflexivity.
    + by rewrite Htags.
Qed.

End JsonTags.

Section JsonTagsRuns.

Import ApiGen Examples.
#[local] Existing Instance Reference.externals.

(** The tri-state field [Public]: "public" comes after "omitempty", and the
    annotation reads [omitempty,public]. *)
Lemma jsonTags_sorted_witness :
  Types.Name_Name (Types.Type_Name (Types.Member_Type mPublic)) = "TriState" /\
  Strings.lt "omitempty" (CamelSplit (Types.Member_Name mPublic) "_") /\
  doAlias mPublic (gen, []) =
    inr (tt, (gen, [("Public *bool " +:+ Strings.bquote +:+ "json:" +:+ Strings.dquote
                     +:+ "omitempty,public" +:+ Strings.dquote +:+ Strings.bquote +:+ "
", NoArgs)])).
Proof.
  split; [reflexivity |]. split; [reflexivity |].
  exact (proj2 (proj2 (proj2 (jsonTags_sorted "Public" []))) mPublic (gen, [])
               eq_refl eq_refl).
Defined.

End JsonTagsRuns.

(** * The route, parameter and response synthesizer *)

Section Routes.
Context `{Externals}.

Import SwaggerGen.

(** A read method the matcher accepts has a first result. *)
Lemma getPred_results (getMethod : Method) :
  getPred getMethod = inr true ->
  exists sig out,
    Method_Signature getMethod = inr sig /\
    index (Types.Signature_Results sig) 0 = inr out.
Proof.
  unfold getPred, arity. destruct (Method_Signature getMethod) as [e | sig]; [done |].
  cbn. intros Hp. exists sig.
  destruct (Types.Signature_Results sig) as [| out rest] eqn:Hres.
  - simpl in Hp. destruct (decide _) as [[_ N] | _]; [done | done].
  - exists out. done.
Qed.

(** The body wrapper of a list response. *)
Lemma bodyStruct_list {G} (r : response) (o : Types.Type_) (st : G * SnippetWriter) :
  isList r = true ->
  bodyStruct r o st =
    inr (tt, (st.1, st.2 ++
      [("Body struct {
", NoArgs);
       ("Output []$.type|raw$ " +:+ json_tag_nl (bodyKey r), getArgs (Some o));
       ("Limit int " +:+ json_tag_nl "limit", NoArgs);
       ("Total int " +:+ json_tag_nl "total", NoArgs);
       ("Offset int " +:+ json_tag_nl "offset", NoArgs);
       ("}
", NoArgs)])%list).
Proof.
  intros Hl. unfold bodyStruct. rewrite Hl. run. rewrite <- !app_assoc. reflexivity.
Qed.

(** What [response.Do] writes for a list response with a valid output. *)
Lemma response_Do_list {G} (r : response) (o : Types.Type_) (st : G * SnippetWriter) :
  isList r = true -> response_getOutput r = Some o -> bodyKey r <> "" ->
  response_Do r st =
    inr (tt, (st.1, st.2 ++
      [("// swagger:response " +:+ id r +:+ "
", NoArgs);
       ("type " +:+ id r +:+ " struct {
", NoArgs);
       ("// in:body
", NoArgs);
       ("Body struct {
", NoArgs);
       ("Output []$.type|raw$ " +:+ json_tag_nl (bodyKey r), getArgs (Some o));
       ("Limit int " +:+ json_tag_nl "limit", NoArgs);
       ("Total int " +:+ json_tag_nl "total", NoArgs);
       ("Offset int " +:+ json_tag_nl "offset", NoArgs);
       ("}
", NoArgs);
       ("}
", NoArgs)])%list).
Proof.
  intros Hl Ho Hk. unfold response_Do. rewrite Ho.
  destruct (decide (bodyKey r <> "")) as [_ | N]; [| done].
  unfold bodyStruct, line, lines. rewrite Hl. run.
  rewrite <- !app_assoc. reflexivity.
Qed.

(** What [response.Do] writes for a response whose output [GetValidType]
    refuses: the struct is empty. *)
Lemma response_Do_empty {G} (r : response) (st : G * SnippetWriter) :
  response_getOutput r = None ->
  response_Do r st =
    inr (tt, (st.1, st.2 ++
      [("// swagger:response " +:+ id r +:+ "
", NoArgs);
       ("type " +:+ id r +:+ " struct {
", NoArgs);
       ("}
", NoArgs)])%list).
Proof.
  intros Ho. unfold response_Do. rewrite Ho. run. rewrite <- !app_assoc. reflexivity.
Qed.

(** What [response.Do] writes for a valid output under an empty body key:
    the type alone, with no wrapper. *)
Lemma response_Do_bare {G} (r : response) (o : Types.Type_) (st : G * SnippetWriter) :
  response_getOutput r = Some o -> bodyKey r = "" ->
  response_Do r st =
    inr (tt, (st.1, st.2 ++
      [("// swagger:response " +:+ id r +:+ "
", NoArgs);
       ("type " +:+ id r +:+ " struct {
", NoArgs);
       ("// in:body
", NoArgs);
       ("$.type|raw$", getArgs (Some o));
       ("}
", NoArgs)])%list).
Proof.
  intros Ho Hk. unfold response_Do. rewrite Ho.
  destruct (decide (bodyKey r <> "")) as [N | _]; [done |].
  unfold line, lines. run. rewrite <- !app_assoc. reflexivity.
Qed.

End Routes.

(** ** Shape checks of the parameters *)

Section Diagnostics.
Context `{Externals}.

Import SwaggerGen.

(** A route built from a parameter with one diagnostic carries it at the
    head of its description, under the fixed summary. *)
Lemma newRoute_input_error (f : Method) (act msg : string) (p : parameter)
    (out : response) :
  p_errorMsgs p = [msg] ->
  summary (newRoute f act p out) = "input or output error exists" /\
  exists rest, description (newRoute f act p out) = ("input error: " +:+ msg) :: rest.
Proof.
  intros Hp. unfold newRoute, reviseDescription. rewrite Hp. cbn [length].
  destruct (decide (1 <> 0 \/ length (r_errorMsgs out) <> 0)) as [_ | N];
    [| destruct N; by left].
  destruct (decide (1 <> 0)) as [_ | N]; [| by destruct N].
  cbn [summary description app Strings.Join String.concat].
  match goal with
  | |- context [decide (?s <> "" /\ length ?d = 0)] =>
      destruct (decide (s <> "" /\ length d = 0)) as [[_ Hlen] | _]
  end.
  - exfalso. revert Hlen.
    destruct (decide (length (r_errorMsgs out) <> 0));
      destruct (decide (1 < length (Types.Type_CommentLines (method f))));
      rewrite ?length_app; simpl; lia.
  - split; [reflexivity |]. cbn [description].
    destruct (decide (length (r_errorMsgs out) <> 0));
      destruct (decide (1 < length (Types.Type_CommentLines (method f))));
      eexists; simpl; reflexivity.
Qed.


End Diagnostics.

Section DiagnosticRuns.

Import SwaggerGen Examples.
#[local] Existing Instance Reference.externals.



End DiagnosticRuns.

(** * The method convention matcher *)

Section Matcher.
Context `{Externals}.

Import SwaggerGen.

(** The loop of [getTypeMethods] appends the entries it keeps, in the order
    it meets them, provided the predicate answers on every candidate. *)
Lemma rangeMethods_keeps (kw sg pl : string) (t : Types.Type_)
    (predF : Method -> Result bool) (order : list (string * Types.Type_))
    (acc : list Method) :
  (forall nm, nm ∈ order -> Strings.HasPrefix nm.1 kw = true ->
              includeIgnoreTag nm.2 = false ->
              exists b, predF (NewMethod t nm.1 nm.2 sg pl) = inr b) ->
  rangeMethods kw sg pl t (Some predF) order acc =
    inr (acc ++ map (fun nm => NewMethod t nm.1 nm.2 sg pl)
                    (filter (fun nm => keeps kw sg pl t predF nm = true) order))%list.
Proof.
  revert acc. induction order as [| [nm m] order IH]; intros acc Hpred.
  - simpl. by rewrite app_nil_r.
  - assert (Hrest : forall nm0, nm0 ∈ order -> Strings.HasPrefix nm0.1 kw = true ->
                      includeIgnoreTag nm0.2 = false ->
                      exists b, predF (NewMethod t nm0.1 nm0.2 sg pl) = inr b).
    { intros nm0 Hin. apply Hpred. by right. }
    cbn [rangeMethods]. unfold keeps at 1. cbn [fst snd].
    destruct (Strings.HasPrefix nm kw && negb (includeIgnoreTag m)) eqn:Hc.
    + apply andb_true_iff in Hc as [Hp Hi]. apply negb_true_iff in Hi.
      destruct (Hpred (nm, m)) as [b Hb]; [left | exact Hp | exact Hi |].
      cbn [fst snd] in Hb.
      rewrite filter_cons. unfold keeps at 1. cbn [fst snd]. rewrite Hp, Hi, Hb. cbn.
      destruct b.
      * rewrite decide_True by done. rewrite IH by exact Hrest.
        cbn [map]. by rewrite <- app_assoc.
      * rewrite decide_False by done. by apply IH.
    + rewrite filter_cons. unfold keeps at 1. cbn [fst snd]. rewrite Hc. cbn.
      rewrite decide_False by done. by apply IH.
Qed.

(** The Create predicate answers on every method that has a signature. *)
Lemma createPred_arity (m : Method) (sig : Types.Signature) :
  Types.Type_Signature (method m) = Some sig ->
  createPred m =
    inr (bool_decide (length (Types.Signature_Parameters sig) = 5
                      /\ length (Types.Signature_Results sig) = 2)).
Proof.
  intros Hsig. unfold createPred, arity, Method_Signature. rewrite Hsig. cbn.
  f_equal. destruct (decide _) as [Hd | Hd].
  - symmetry. apply bool_decide_eq_false. intros [? ?]. destruct Hd; done.
  - symmetry. apply bool_decide_eq_true. split.
    + destruct (decide (length (Types.Signature_Parameters sig) = 5)); [done |].
      destruct Hd. by left.
    + destruct (decide (length (Types.Signature_Results sig) = 2)); [done |].
      destruct Hd. by right.
Qed.

(** C8, as the code has it: among the methods of the manager whose name has
    the Create prefix and that are not ignored, the candidates of the
    matcher are exactly those with five parameters and two results;
    [createM] returns the first candidate the range over the method table
    meets, and nothing when there is no candidate.  So a method with another
    arity is never selected, and a method with the right arity is selected
    when it is the only candidate. *)
Theorem createM_candidates (p : typeParser) (order : list (string * Types.Type_)) :
  range_order (Types.Type_Methods (manager p)) order ->
  (forall nm m, Types.Type_Methods (manager p) !! nm = Some m ->
                Strings.HasPrefix nm Create = true -> includeIgnoreTag m = false ->
                is_Some (Types.Type_Signature m)) ->
  exists candidates : list Method,
    getMethods p order Create (manager p) (Some createPred) = inr candidates /\
    createM p order = inr (head candidates) /\
    (forall nm m sig,
       Types.Type_Methods (manager p) !! nm = Some m ->
       Strings.HasPrefix nm Create = true -> includeIgnoreTag m = false ->
       Types.Type_Signature m = Some sig ->
       (NewMethod (manager p) nm m (singular p) (plural p) ∈ candidates <->
        length (Types.Signature_Parameters sig) = 5 /\
        length (Types.Signature_Results sig) = 2)) /\
    (forall c, c ∈ candidates ->
       Types.Type_Methods (manager p) !! name c = Some (method c) /\
       Strings.HasPrefix (name c) Create = true /\
       includeIgnoreTag (method c) = false /\
       createPred c = inr true) /\
    (forall c, c ∈ candidates -> (forall c', c' ∈ candidates -> c' = c) ->
       createM p order = inr (Some c)).
Proof.
  intros Hord Hsig.
  assert (Hin : forall nm m, (nm, m) ∈ order <-> Types.Type_Methods (manager p) !! nm = Some m).
  { intros nm m. unfold range_order in Hord. rewrite Hord. apply elem_of_map_to_list. }
  assert (Hrun : getMethods p order Create (manager p) (Some createPred) =
                 inr (map (fun nm => NewMethod (manager p) nm.1 nm.2 (singular p) (plural p))
                          (filter (fun nm => keeps Create (singular p) (plural p) (manager p)
                                                   createPred nm = true) order))).
  { unfold getMethods, getTypeMethods. rewrite rangeMethods_keeps; [reflexivity |].
    intros [nm m] Hnm Hp Hi. cbn [fst snd] in *.
    destruct (Hsig nm m) as [sig Hs]; [by apply Hin | done | done |].
    eexists. by apply createPred_arity. }
  eexists. split; [exact Hrun |].
  split; [unfold createM, getMethod; rewrite Hrun; reflexivity |].
  split; [| split].
  - intros nm m sig Hm Hp Hi Hs. rewrite list_elem_of_fmap. split.
    + intros ([nm' m'] & Heq & Hf). cbn [fst snd] in Heq.
      injection Heq as -> ->.
      apply list_elem_of_filter in Hf as [Hk _]. unfold keeps in Hk. cbn [fst snd] in Hk.
      rewrite (createPred_arity _ sig) in Hk by done.
      rewrite Hp, Hi in Hk. cbn in Hk.
      destruct (bool_decide _) eqn:Hd in Hk; [| done]. by apply bool_decide_eq_true in Hd.
    + intros Har. exists (nm, m). split; [reflexivity |].
      apply list_elem_of_filter. split; [| by apply Hin].
      unfold keeps. cbn [fst snd]. rewrite (createPred_arity _ sig) by done.
      rewrite Hp, Hi. cbn. by rewrite bool_decide_eq_true_2.
  - intros c Hc. apply list_elem_of_fmap in Hc as ([nm m] & -> & Hf). cbn [fst snd name method NewMethod].
    apply list_elem_of_filter in Hf as [Hk Ho]. unfold keeps in Hk. cbn [fst snd] in Hk.
    apply andb_true_iff in Hk as [Hk Hpred]. apply andb_true_iff in Hk as [Hp Hi].
    apply negb_true_iff in Hi.
    split; [by apply Hin |]. split; [exact Hp |]. split; [exact Hi |].
    destruct (createPred _) as [e | []]; done.
  - intros c Hc Hall. unfold createM, getMethod. rewrite Hrun. cbn.
    destruct (map _ _) as [| c0 rest] eqn:Hl; [by apply elem_of_nil in Hc |].
    cbn. rewrite (Hall c0); [reflexivity | left].
Qed.

End Matcher.

Section MatcherRuns.

Import SwaggerGen Examples.
#[local] Existing Instance Reference.externals.

(** An order is legal for the table built from it, and so is every
    permutation of it. *)
Lemma range_order_list_to_map (l l' : list (string * Types.Type_)) :
  NoDup l.*1 -> l' ≡ₚ l -> range_order (list_to_map l : gmap string Types.Type_) l'.
Proof.
  intros Hnd Hp. unfold range_order. rewrite Hp. symmetry. by apply map_to_list_to_map.
Qed.

Lemma NoDup_orderM : NoDup orderM.*1.
Proof. apply (bool_decide_unpack _). vm_compute. exact I. Qed.

Lemma NoDup_order1 : NoDup order1.*1.
Proof. apply (bool_decide_unpack _). vm_compute. exact I. Qed.

Lemma range_order_manager : range_order (Types.Type_Methods tManager) orderM.
Proof. apply range_order_list_to_map; [apply NoDup_orderM | reflexivity]. Qed.

Lemma range_order_model1 : range_order (Types.Type_Methods tModel) order1.
Proof. apply range_order_list_to_map; [apply NoDup_order1 | reflexivity]. Qed.

Lemma range_order_model2 : range_order (Types.Type_Methods tModel) order2.
Proof.
  apply range_order_list_to_map; [apply NoDup_order1 |].
  unfold order1, order2. apply perm_skip, perm_swap.
Qed.

(** C8 fails as stated: the manager has two methods with the Create prefix,
    both with five parameters and two results and neither ignored; the
    matcher selects the first one the range meets, and the other one is not
    selected. *)
Lemma createM_first_only :
  range_order (Types.Type_Methods (manager parser)) orderM /\
  Types.Type_Methods (manager parser) !! "ValidateCreateDataV2" = Some fValidateCreateData /\
  Strings.HasPrefix "ValidateCreateDataV2" Create = true /\
  includeIgnoreTag fValidateCreateData = false /\
  createPred mCreateV2 = inr true /\
  createM parser orderM = inr (Some mCreate) /\
  mCreate <> mCreateV2.
Proof.
  split; [exact range_order_manager |].
  split; [reflexivity |]. split; [reflexivity |]. split; [reflexivity |].
  split; [reflexivity |]. split; [reflexivity |].
  intros E. apply (f_equal name) in E. discriminate E.
Qed.

(** The candidates of the Create convention on the manager. *)
Lemma createM_candidates_witness :
  range_order (Types.Type_Methods (manager parser)) orderM /\
  exists candidates : list Method,
    getMethods parser orderM Create (manager parser) (Some createPred) = inr candidates /\
    createM parser orderM = inr (head candidates) /\
    (mCreate ∈ candidates <-> 5 = 5 /\ 2 = 2).
Proof.
  split; [exact range_order_manager |].
  assert (Hsig : forall nm m, Types.Type_Methods (manager parser) !! nm = Some m ->
                   Strings.HasPrefix nm Create = true -> includeIgnoreTag m = false ->
                   is_Some (Types.Type_Signature m)).
  { intros nm m Hm _ _. apply elem_of_map_to_list in Hm.
    rewrite <- range_order_manager in Hm.
    repeat (apply elem_of_cons in Hm as [[= -> ->] | Hm]; [by eexists |]).
    by apply elem_of_nil in Hm. }
  destruct (createM_candidates parser orderM range_order_manager Hsig)
    as (candidates & Hrun & Hhead & Hiff & _).
  exists candidates. split; [exact Hrun |]. split; [exact Hhead |].
  exact (Hiff "ValidateCreateData" fValidateCreateData _ eq_refl eq_refl eq_refl eq_refl).
Defined.

(** C1 fails on the code: the range over the method table has no fixed
    order.  On the same types, with two legal orders of the range that
    collects the Perform methods, the matcher returns the methods in two
    different orders and [generateCode] writes two different texts. *)
Lemma generateCode_depends_on_order :
  legal_orders tManager tModel (orders order1) /\
  legal_orders tManager tModel (orders order2) /\
  performActionM parser order1 = inr [mStart; mStop] /\
  performActionM parser order2 = inr [mStop; mStart] /\
  is_Some (written (generateCode (G := unit) (orders order1) manIns tManager tModel (tt, []))) /\
  is_Some (written (generateCode (G := unit) (orders order2) manIns tManager tModel (tt, []))) /\
  written (generateCode (G := unit) (orders order1) manIns tManager tModel (tt, []))
  <> written (generateCode (G := unit) (orders order2) manIns tManager tModel (tt, [])).
Proof.
  pose proof range_order_manager as HM.
  pose proof range_order_model1 as H1.
  pose proof range_order_model2 as H2.
  split; [unfold legal_orders; cbn; tauto |].
  split; [unfold legal_orders; cbn; tauto |].
  split; [reflexivity |]. split; [reflexivity |].
  split; [vm_compute; by eexists |].
  split; [vm_compute; by eexists |].
  apply (proj1 (bool_decide_eq_false _)). vm_compute. reflexivity.
Qed.

End MatcherRuns.

(** * Further properties of the model API generator *)

Section TypeHelpers.
Context `{Externals}.

Import ApiGen.

(** The result of [underlyingType] is no alias, and is its own underlying
    type. *)
Fixpoint underlyingType_stable (t u : Types.Type_) {struct t} :
  underlyingType t = inr u ->
  Types.Type_Kind u <> Types.Alias /\ underlyingType u = inr u.
Proof.
  destruct t as [nm k cl scl ms e ky un mt sg]. simpl.
  destruct k eqn:Hk;
    try (intros [= <-]; simpl; split; [discriminate | reflexivity]).
  destruct un as [t' |]; [apply underlyingType_stable | discriminate].
Qed.

(** The alias chain of a type ends when [underlyingType] returns. *)
Fixpoint underlyingType_returns (t u : Types.Type_) {struct t} :
  underlyingType t = inr u -> wf_alias t = true.
Proof.
  destruct t as [nm k cl scl ms e ky un mt sg]. simpl.
  destruct k; try reflexivity.
  destruct un as [t' |]; [apply underlyingType_returns | discriminate].
Qed.

(** X1: [underlyingType] returns exactly when the alias chain of the type
    ends (it panics on a nil link); what it returns is never an alias, and
    resolving it again changes nothing. *)
Theorem underlyingType_resolves (t : Types.Type_) :
  ((exists u, underlyingType t = inr u) <-> wf_alias t = true) /\
  (forall u, underlyingType t = inr u ->
     Types.Type_Kind u <> Types.Alias /\ underlyingType u = inr u) /\
  (forall e, underlyingType t = inl e -> e = Panic "nil pointer dereference") /\
  (Types.Type_Kind t <> Types.Alias -> underlyingType t = inr t).
Proof.
  split; [| split; [| split]].
  - split; [intros [u Hu]; exact (underlyingType_returns _ _ Hu) | apply underlyingType_wf].
  - intros u. apply underlyingType_stable.
  - revert t.
    refine (fix rec (t : Types.Type_) {struct t} := _).
    destruct t as [nm k cl scl ms e ky un mt sg]. simpl.
    destruct k; try discriminate.
    destruct un as [t' |]; [apply rec | by intros e0 [= <-]].
  - destruct t as [nm k cl scl ms e ky un mt sg]. simpl. by destruct k.
Qed.

(** The kinds whose element [getPrimitiveType] follows. *)
Lemma compound_kinds (k : Types.Kind) :
  Sets.Has (Sets.NewString [Types.Kind_string Types.Map; Types.Kind_string Types.Slice;
                            Types.Kind_string Types.Pointer; Types.Kind_string Types.Chan])
           (Types.Kind_string k) = true
  <-> k = Types.Map \/ k = Types.Slice \/ k = Types.Pointer \/ k = Types.Chan.
Proof.
  destruct k; vm_compute; split; intros Hk; try discriminate; try tauto;
    repeat (destruct Hk as [Hk | Hk]; try discriminate); discriminate.
Qed.

Fixpoint getPrimitiveType_stable (t r : Types.Type_) {struct t} :
  getPrimitiveType t = inr r ->
  Sets.Has (Sets.NewString [Types.Kind_string Types.Map; Types.Kind_string Types.Slice;
                            Types.Kind_string Types.Pointer; Types.Kind_string Types.Chan])
           (Types.Kind_string (Types.Type_Kind r)) = false /\
  getPrimitiveType r = inr r.
Proof.
  destruct t as [nm k cl scl ms e ky un mt sg].
  cbn [getPrimitiveType Types.Type_Kind Types.Type_Elem].
  destruct (Sets.Has _ (Types.Kind_string k)) eqn:Hc; cbn [negb].
  - destruct e as [t' |]; [apply getPrimitiveType_stable | discriminate].
  - intros [= <-]. split; [exact Hc |].
    cbn [getPrimitiveType Types.Type_Kind Types.Type_Elem]. by rewrite Hc.
Qed.

(** X2: what [getPrimitiveType] returns is never a map, slice, pointer or
    chan, and is its own primitive type; a type of another kind is returned
    as it is, and a compound type without element makes it panic. *)
Theorem getPrimitiveType_primitive (t : Types.Type_) :
  (forall r, getPrimitiveType t = inr r ->
     Types.Type_Kind r <> Types.Map /\ Types.Type_Kind r <> Types.Slice /\
     Types.Type_Kind r <> Types.Pointer /\ Types.Type_Kind r <> Types.Chan /\
     getPrimitiveType r = inr r) /\
  (Types.Type_Kind t <> Types.Map -> Types.Type_Kind t <> Types.Slice ->
   Types.Type_Kind t <> Types.Pointer -> Types.Type_Kind t <> Types.Chan ->
   getPrimitiveType t = inr t) /\
  ((Types.Type_Kind t = Types.Map \/ Types.Type_Kind t = Types.Slice \/
    Types.Type_Kind t = Types.Pointer \/ Types.Type_Kind t = Types.Chan) ->
   Types.Type_Elem t = None ->
   getPrimitiveType t = inl (Panic "nil pointer dereference")).
Proof.
  split; [| split].
  - intros r Hr. destruct (getPrimitiveType_stable _ _ Hr) as [Hc Hs].
    assert (Hn : ~ (Types.Type_Kind r = Types.Map \/ Types.Type_Kind r = Types.Slice \/
                    Types.Type_Kind r = Types.Pointer \/ Types.Type_Kind r = Types.Chan)).
    { intros Hk. apply compound_kinds in Hk. congruence. }
    repeat split; try exact Hs; intros Hk; apply Hn; tauto.
  - intros H1 H2 H3 H4. destruct t as [nm k cl scl ms e ky un mt sg].
    cbn [getPrimitiveType Types.Type_Kind Types.Type_Elem] in *.
    destruct (Sets.Has _ (Types.Kind_string k)) eqn:Hc; [| reflexivity].
    apply compound_kinds in Hc. tauto.
  - intros Hk He. destruct t as [nm k cl scl ms e ky un mt sg].
    cbn [getPrimitiveType Types.Type_Kind Types.Type_Elem] in *.
    apply compound_kinds in Hk. rewrite Hk, He. reflexivity.
Qed.

End TypeHelpers.

Section MemberBuilder.
Context `{Externals}.

Import ApiGen.

Lemma List_to_set (s : gset string) : list_to_set (Sets.List s) = s.
Proof.
  apply set_eq. intros x. rewrite elem_of_list_to_set. apply List_elem_of.
Qed.

(** X3: adding tags in two calls gives the tag list of one call with all
    the tags, in whichever order the calls are made, and adding the same
    tags again changes nothing. *)
Theorem AddTag_compose (m : ApiGen.Member) (a b : list string) :
  jsonTags (Member_AddTag (Member_AddTag m a) b) = jsonTags (Member_AddTag m (a ++ b)) /\
  jsonTags (Member_AddTag (Member_AddTag m a) b)
    = jsonTags (Member_AddTag (Member_AddTag m b) a) /\
  jsonTags (Member_AddTag (Member_AddTag m a) a) = jsonTags (Member_AddTag m a).
Proof.
  rewrite !AddTag_tags, !List_to_set, !list_to_set_app_L.
  split; [| split]; f_equal; set_solver.
Qed.

Lemma Member_Namer_tags (m : ApiGen.Member) (n : string) :
  jsonTags (Member_Namer m n) = jsonTags m.
Proof. reflexivity. Qed.

Lemma dot_not_empty (a b : string) : a +:+ "." +:+ b <> "".
Proof. destruct a; [rewrite string_app_cons | rewrite string_app_cons]; discriminate. Qed.

(** The two packages the generator redirects to the API packages. *)
Lemma GetInputOutputPackageMap_lookup (a k : string) :
  GetInputOutputPackageMap a !! k =
    if decide (k = CloudCommonDBPackage) then Some a
    else if decide (k = CloudProviderPackage)
         then Some (filepath_Join [a; "cloudprovider"]) else None.
Proof.
  unfold GetInputOutputPackageMap.
  destruct (decide (k = CloudCommonDBPackage)) as [-> | N1].
  - by rewrite lookup_insert_eq.
  - rewrite lookup_insert_ne by done.
    destruct (decide (k = CloudProviderPackage)) as [-> | N2].
    + by rewrite lookup_singleton_eq.
    + by rewrite lookup_singleton_ne.
Qed.

(** X4: a struct member always yields one field.  A struct of the source
    package is written by the public namer; a struct of the common db
    package or of the cloud provider package is written as a type of the
    matching API package, and that package (and nothing else) is added to
    the imports; any other struct is written by the raw namer.  An embedded
    member is the type expression alone, another member has its name and
    the json tag of its snake-cased name. *)
Theorem doStruct_field (member : Types.Member) (st : apiGen * SnippetWriter) :
  let mt := Types.Member_Type member in
  let pkg := Types.Name_Package (Types.Type_Name mt) in
  let redirect :=
    if inSourcePackage st.1 mt then None
    else if decide (pkg = CloudCommonDBPackage) then Some (apisPkg st.1)
    else if decide (pkg = CloudProviderPackage)
         then Some (filepath_Join [apisPkg st.1; "cloudprovider"]) else None in
  let typeExpr :=
    if inSourcePackage st.1 mt then "$.type|public$"
    else match redirect with
         | Some outPkg => filepath_Base outPkg +:+ "." +:+ Types.Name_Name (Types.Type_Name mt)
         | None => "$.type|raw$"
         end in
  let text :=
    if Types.Member_Embedded member
    then typeExpr +:+ "
"
    else Types.Member_Name member +:+ " " +:+ typeExpr +:+ " " +:+ Strings.bquote +:+ "json:"
         +:+ Strings.dquote +:+ CamelSplit (Types.Member_Name member) "_" +:+ Strings.dquote
         +:+ Strings.bquote +:+ "
" in
  exists g' : apiGen,
    doStruct member st = inr (tt, (g', (st.2 ++ [(text, TypeArg (Some mt))])%list)) /\
    needImportPackages g' =
      needImportPackages st.1 ∪ match redirect with Some outPkg => {[ outPkg ]} | None => ∅ end /\
    sourcePackage g' = sourcePackage st.1 /\ apisPkg g' = apisPkg st.1 /\
    modelTypes g' = modelTypes st.1 /\ modelDependTypes g' = modelDependTypes st.1 /\
    isCommonDBPackage g' = isCommonDBPackage st.1.
Proof.
  intros mt pkg redirect typeExpr text. subst redirect typeExpr text.
  unfold doStruct. fold mt. run. fold pkg.
  rewrite GetInputOutputPackageMap_lookup.
  destruct (inSourcePackage st.1 mt) eqn:E1.
  - exists st.1. rewrite (right_id_L ∅ (∪)). repeat split; try reflexivity.
    destruct (Types.Member_Embedded member) eqn:E2; simpl.
    + rewrite Member_format_embedded by done. reflexivity.
    + rewrite Member_format_named; [| done | done |].
      * by rewrite Member_Namer_tags, NewModelMember_tags.
      * by rewrite Member_Namer_tags, NewModelMember_tags.
  - destruct (decide (pkg = CloudCommonDBPackage)) as [E3 | E3];
      [| destruct (decide (pkg = CloudProviderPackage)) as [E4 | E4]].
    + eexists. simpl. split.
      { destruct (Types.Member_Embedded member) eqn:E2; simpl.
        - rewrite Member_format_embedded by done. simpl.
          destruct (decide (_ <> "")) as [_ | N];
            [reflexivity | destruct N; apply dot_not_empty].
        - rewrite Member_format_typed; [| apply dot_not_empty | done |].
          + rewrite Member_Type_tags, NewModelMember_tags. reflexivity.
          + rewrite Member_Type_tags, NewModelMember_tags. done. }
      split; [simpl; unfold Sets.Insert; set_solver | repeat split; reflexivity].
    + eexists. simpl. split.
      { destruct (Types.Member_Embedded member) eqn:E2; simpl.
        - rewrite Member_format_embedded by done. simpl.
          destruct (decide (_ <> "")) as [_ | N];
            [reflexivity | destruct N; apply dot_not_empty].
        - rewrite Member_format_typed; [| apply dot_not_empty | done |].
          + rewrite Member_Type_tags, NewModelMember_tags. reflexivity.
          + rewrite Member_Type_tags, NewModelMember_tags. done. }
      split; [simpl; unfold Sets.Insert; set_solver | repeat split; reflexivity].
    + exists st.1. rewrite (right_id_L ∅ (∪)). repeat split; try reflexivity.
      destruct (Types.Member_Embedded member) eqn:E2; simpl.
      * rewrite Member_format_embedded by done. reflexivity.
      * rewrite Member_format_named; [| done | done |].
        -- by rewrite NewModelMember_tags.
        -- by rewrite NewModelMember_tags.
Qed.

End MemberBuilder.

Section ProjectorEdges.
Context `{Externals}.

Import ApiGen.

(** X5: a member that is not the sentinel base and whose kind has no rule
    (map, array, chan, func and the like), or an embedded interface member,
    makes its rule fail with a fatal error that names it; the projection of
    a type that has such a member aborts, with a fatal error when the
    members are as gengo builds them. *)
Theorem generateFor_unsupported_aborts (t : Types.Type_) (mem : Types.Member)
    (g : apiGen) (sw : SnippetWriter) :
  mem ∈ Types.Type_Members t ->
  isModelBase (Types.Member_Type mem) = false ->
  let k := Types.Type_Kind (Types.Member_Type mem) in
  (k <> Types.Builtin /\ k <> Types.Struct /\ k <> Types.Interface /\
   k <> Types.Alias /\ k <> Types.Pointer /\ k <> Types.Slice) \/
  (k = Types.Interface /\ Types.Member_Embedded mem = true) ->
  (forall st,
     generateMember t mem st =
       inl (if decide (k = Types.Interface)
            then Fatalf "%s used as embedded interface" [Types.Member_String mem]
            else Fatalf "Hit an unsupported type %v.%s, kind is %s"
                        [Types.Type_String t;
                         Types.Name_Name (Types.Type_Name (Types.Member_Type mem));
                         Types.Kind_string k])) /\
  (exists e, generateFor t (g, sw) = inl e) /\
  (Forall (fun m => wf_member m = true) (Types.Type_Members t) ->
   is_fatal (generateFor t (g, sw))).
Proof.
  intros Hin Hb k Hk.
  assert (Hmem : forall st,
     generateMember t mem st =
       inl (if decide (k = Types.Interface)
            then Fatalf "%s used as embedded interface" [Types.Member_String mem]
            else Fatalf "Hit an unsupported type %v.%s, kind is %s"
                        [Types.Type_String t;
                         Types.Name_Name (Types.Type_Name (Types.Member_Type mem));
                         Types.Kind_string k])).
  { intros st. unfold generateMember. rewrite Hb. fold k.
    destruct Hk as [(H1 & H2 & H3 & H4 & H5 & H6) | [Hi He]].
    - destruct (decide (k = Types.Interface)) as [E | _]; [done |].
      destruct k; done.
    - rewrite Hi. destruct (decide _) as [_ | N]; [| done].
      unfold doInterface. rewrite He. run. reflexivity. }
  split; [exact Hmem |]. split.
  - destruct (forEach_aborts (fun _ => True) (generateMember t) _ mem Hin) with (st := (g, sw))
      as (e & He & _); [intros st; rewrite Hmem; by eexists | done | by exists e].
  - intros Hwf.
    destruct (forEach_aborts (fun e => exists format args, e = Fatalf format args)
                (generateMember t) _ mem Hin) with (st := (g, sw))
      as (e & He & format & args & ->).
    + intros st. rewrite Hmem. by eexists.
    + intros y st e Hy. apply generateMember_no_panic.
      rewrite Forall_forall in Hwf. by apply Hwf.
    + unfold generateFor. rewrite He. exact I.
Qed.

(** X6: the members whose type is named [SModelBase] have no part in the
    projection, whatever their kind: the projector does on the whole member
    list what it does on the projectable members alone, and it writes
    nothing for a type that has base members only. *)
Theorem generateFor_skips_base (t : Types.Type_) (st : apiGen * SnippetWriter) :
  generateFor t st = forEach (generateMember t) (projectable t) st /\
  (projectable t = [] -> generateFor t st = inr (tt, st)).
Proof.
  assert (Hskip : forall ms st0,
            forEach (generateMember t) ms st0 =
            forEach (generateMember t)
                    (filter (fun mem => isModelBase (Types.Member_Type mem) = false) ms) st0).
  { induction ms as [| mem ms IH]; intros st0; [reflexivity |].
    destruct (isModelBase (Types.Member_Type mem)) eqn:Hb.
    - rewrite filter_cons_False by (by rewrite Hb).
      rewrite forEach_cons. unfold generateMember at 1. rewrite Hb. apply IH.
    - rewrite filter_cons_True by done. rewrite !forEach_cons.
      destruct (generateMember t mem st0) as [e | [[] st1]]; [reflexivity | apply IH]. }
  split.
  - apply Hskip.
  - intros Hp. transitivity (forEach (generateMember t) (projectable t) st).
    + apply Hskip.
    + by rewrite Hp.
Qed.

End ProjectorEdges.

Section ProjectorInvariant.
Context `{Externals}.

Import ApiGen.

Ltac finish :=
  intros [= <- <-]; simpl;
  repeat split; try reflexivity; try (unfold Sets.Insert; set_solver);
  try (eexists; reflexivity).

(** A rule that returns has written one field, or nothing for the base, and
    has changed the generator in its imports only. *)
Lemma generateMember_success (t : Types.Type_) (mem : Types.Member)
    (g g' : apiGen) (sw sw' : SnippetWriter) :
  generateMember t mem (g, sw) = inr (tt, (g', sw')) ->
  (sourcePackage g' = sourcePackage g /\ apisPkg g' = apisPkg g /\
   modelTypes g' = modelTypes g /\ modelDependTypes g' = modelDependTypes g /\
   isCommonDBPackage g' = isCommonDBPackage g /\
   needImportPackages g ⊆ needImportPackages g') /\
  (if isModelBase (Types.Member_Type mem) then sw' = sw
   else exists fld, sw' = (sw ++ [fld])%list).
Proof.
  unfold generateMember.
  destruct (isModelBase (Types.Member_Type mem)); [finish |].
  destruct (Types.Type_Kind (Types.Member_Type mem)); try discriminate.
  - unfold doBuiltin. run. finish.
  - unfold doStruct. run.
    destruct (inSourcePackage g (Types.Member_Type mem)); [finish |].
    destruct (GetInputOutputPackageMap (apisPkg g) !! _); simpl; finish.
  - unfold doPointer, getPointerSourcePackageName, elemOf.
    destruct (Types.Type_Elem (Types.Member_Type mem)) as [elem |]; run; [| discriminate].
    destruct (inSourcePackage g elem) eqn:E; simpl; rewrite ?E; simpl; finish.
  - unfold doAlias.
    destruct (TypeMap !! _); run; [finish |].
    destruct (underlyingType (Types.Member_Type mem)); simpl; [discriminate | finish].
  - unfold doInterface. run.
    destruct (Types.Member_Embedded mem); simpl; [discriminate | finish].
Qed.

(** X7: whenever the projection of a type returns, what was written before
    is still there, followed by exactly one field for each projectable
    member; the generator is the same but for its imports, which have only
    grown. *)
Theorem generateFor_success (t : Types.Type_) (g g' : apiGen) (sw sw' : SnippetWriter) :
  generateFor t (g, sw) = inr (tt, (g', sw')) ->
  (exists out, sw' = (sw ++ out)%list /\ length out = length (projectable t)) /\
  needImportPackages g ⊆ needImportPackages g' /\
  sourcePackage g' = sourcePackage g /\ apisPkg g' = apisPkg g /\
  modelTypes g' = modelTypes g /\ modelDependTypes g' = modelDependTypes g /\
  isCommonDBPackage g' = isCommonDBPackage g.
Proof.
  unfold generateFor, projectable.
  generalize (Types.Type_Members t) as ms. intros ms. revert g sw.
  induction ms as [| mem ms IH]; intros g sw.
  - simpl. run. intros [= <- <-]. split; [| done].
    exists []. by rewrite app_nil_r.
  - rewrite forEach_cons.
    destruct (generateMember t mem (g, sw)) as [e | [[] [g1 sw1]]] eqn:Hm; [discriminate |].
    intros Hrest.
    apply generateMember_success in Hm as ((Hs & Ha & Hmt & Hd & Hc & Hi) & Hsw).
    apply IH in Hrest as ((out & Hout & Hlen) & Hi' & Hs' & Ha' & Hmt' & Hd' & Hc').
    split; [| repeat split; try congruence; set_solver].
    destruct (isModelBase (Types.Member_Type mem)) eqn:Hb.
    + subst sw1. exists out. split; [exact Hout |].
      rewrite filter_cons_False by (by rewrite Hb). exact Hlen.
    + destruct Hsw as [fld ->]. exists (fld :: out).
      split; [by rewrite Hout, <- app_assoc |].
      rewrite filter_cons_True by done. simpl. by rewrite Hlen.
Qed.

(** X8: [GenerateType] writes a comment line and then the type.  It is
    fatal for a type that is neither a struct nor an alias; a struct is
    handed to [generateStructType] after the comment line.  An alias is
    written as its name followed by its underlying type: for a slice of
    pointers, the slice of pointers to the declared name of the element
    when the element is in the source package, and a fatal error when it is
    not; for a slice of anything else, the slice of the element under the
    public namer; for any other underlying type, that type under the public
    namer.  A nil underlying type, a nil element of the slice and a nil
    element of the pointer make it panic. *)
Theorem GenerateType_kinds (t : Types.Type_) (st : apiGen * SnippetWriter) :
  let header :=
    ("// " +:+ Types.Name_Name (Types.Type_Name t) +:+ " is an autogenerated struct via "
     +:+ Types.Name_String (Types.Type_Name t) +:+ ".
", NoArgs) in
  (Types.Type_Kind t <> Types.Struct -> Types.Type_Kind t <> Types.Alias ->
   GenerateType t st =
     inl (Fatalf "Unsupported type %s" [Types.Kind_string (Types.Type_Kind t)])) /\
  (Types.Type_Kind t = Types.Struct ->
   GenerateType t st = generateStructType t (st.1, (st.2 ++ [header])%list)) /\
  (forall ut elem pt,
     Types.Type_Kind t = Types.Alias -> Types.Type_Underlying t = Some ut ->
     Types.Type_Kind ut = Types.Slice -> Types.Type_Elem ut = Some elem ->
     Types.Type_Kind elem = Types.Pointer -> Types.Type_Elem elem = Some pt ->
     GenerateType t st =
       if inSourcePackage st.1 pt
       then inr (tt, (st.1, st.2 ++
              [header; ("type $.type|public$ ", TypeArg (Some t));
               ("[]*" +:+ Types.Name_Name (Types.Type_Name pt), TypeArg (Some elem));
               ("
", NoArgs)])%list)
       else inl (Fatalf "pointer's elem %q not in package %q"
                        [Types.Name_String (Types.Type_Name pt); sourcePackage st.1])) /\
  (forall ut elem,
     Types.Type_Kind t = Types.Alias -> Types.Type_Underlying t = Some ut ->
     Types.Type_Kind ut = Types.Slice -> Types.Type_Elem ut = Some elem ->
     Types.Type_Kind elem <> Types.Pointer ->
     GenerateType t st =
       inr (tt, (st.1, st.2 ++
              [header; ("type $.type|public$ ", TypeArg (Some t));
               ("[]$.type|public$", TypeArg (Some elem)); ("
", NoArgs)])%list)) /\
  (forall ut,
     Types.Type_Kind t = Types.Alias -> Types.Type_Underlying t = Some ut ->
     Types.Type_Kind ut <> Types.Slice ->
     GenerateType t st =
       inr (tt, (st.1, st.2 ++
              [header; ("type $.type|public$ ", TypeArg (Some t));
               ("$.type|public$ ", TypeArg (Some ut)); ("
", NoArgs)])%list)) /\
  (Types.Type_Kind t = Types.Alias -> Types.Type_Underlying t = None ->
   GenerateType t st = inl (Panic "nil pointer dereference")) /\
  (forall ut,
     Types.Type_Kind t = Types.Alias -> Types.Type_Underlying t = Some ut ->
     Types.Type_Kind ut = Types.Slice -> Types.Type_Elem ut = None ->
     GenerateType t st = inl (Panic "nil pointer dereference")) /\
  (forall ut elem,
     Types.Type_Kind t = Types.Alias -> Types.Type_Underlying t = Some ut ->
     Types.Type_Kind ut = Types.Slice -> Types.Type_Elem ut = Some elem ->
     Types.Type_Kind elem = Types.Pointer -> Types.Type_Elem elem = None ->
     GenerateType t st = inl (Panic "nil pointer dereference")).
Proof.
  intros header. subst header. unfold GenerateType.
  split; [| split; [| split; [| split; [| split; [| split; [| split]]]]]].
  - intros H1 H2. run. by destruct (Types.Type_Kind t).
  - intros Hk. rewrite Hk. reflexivity.
  - intros ut elem pt Hk Hu Hs He Hp Hpt. rewrite Hk.
    unfold generatorAliasType, getPointerSourcePackageName, elemOf.
    rewrite Hu, Hs, He. run.
    destruct (decide (Types.Type_Kind elem = Types.Pointer)) as [_ | N]; [| done].
    rewrite Hpt. simpl.
    destruct (inSourcePackage st.1 pt) eqn:E; simpl; rewrite ?E; simpl; [| reflexivity].
    rewrite <- !app_assoc. reflexivity.
  - intros ut elem Hk Hu Hs He Hp. rewrite Hk.
    unfold generatorAliasType, elemOf. rewrite Hu, Hs, He. run.
    destruct (decide (Types.Type_Kind elem = Types.Pointer)) as [E | _]; [done |].
    simpl. rewrite <- !app_assoc. reflexivity.
  - intros ut Hk Hu Hs. rewrite Hk. unfold generatorAliasType. rewrite Hu. run.
    destruct (Types.Type_Kind ut); try done; simpl; rewrite <- !app_assoc; reflexivity.
  - intros Hk Hu. rewrite Hk. unfold generatorAliasType. rewrite Hu. run. reflexivity.
  - intros ut Hk Hu Hs He. rewrite Hk.
    unfold generatorAliasType, elemOf. rewrite Hu, Hs, He. run. reflexivity.
  - intros ut elem Hk Hu Hs He Hp Hpt. rewrite Hk.
    unfold generatorAliasType, getPointerSourcePackageName, elemOf.
    rewrite Hu, Hs, He. run.
    destruct (decide (Types.Type_Kind elem = Types.Pointer)) as [_ | N]; [| done].
    rewrite Hpt. simpl. reflexivity.
Qed.

End ProjectorInvariant.

Section MatcherOrder.
Context `{Externals}.

Import SwaggerGen.

(** When the loop returns, the predicate has answered on every entry that
    has the prefix and is not ignored. *)
Lemma rangeMethods_answers (kw sg pl : string) (t : Types.Type_)
    (predF : Method -> Result bool) (order : list (string * Types.Type_))
    (acc r : list Method) :
  rangeMethods kw sg pl t (Some predF) order acc = inr r ->
  forall nm, nm ∈ order -> Strings.HasPrefix nm.1 kw = true ->
             includeIgnoreTag nm.2 = false ->
             exists b, predF (NewMethod t nm.1 nm.2 sg pl) = inr b.
Proof.
  revert acc. induction order as [| [n m] order IH]; intros acc Hr nm Hin Hp Hi.
  - by apply elem_of_nil in Hin.
  - cbn [rangeMethods] in Hr. apply elem_of_cons in Hin as [-> | Hin].
    + cbn [fst snd] in *. rewrite Hp, Hi in Hr. cbn in Hr.
      destruct (predF (NewMethod t n m sg pl)) as [e | b]; [discriminate | by exists b].
    + destruct (Strings.HasPrefix n kw && negb (includeIgnoreTag m)).
      * destruct (predF (NewMethod t n m sg pl)) as [e | []]; cbn in Hr;
          [discriminate | |]; by eapply IH.
      * by eapply IH.
Qed.

(** When the loop fails, it fails as the predicate did on an entry that has
    the prefix and is not ignored. *)
Lemma rangeMethods_fails (kw sg pl : string) (t : Types.Type_)
    (predF : Method -> Result bool) (order : list (string * Types.Type_))
    (acc : list Method) (e : failure) :
  rangeMethods kw sg pl t (Some predF) order acc = inl e ->
  exists nm, nm ∈ order /\ Strings.HasPrefix nm.1 kw = true /\
             includeIgnoreTag nm.2 = false /\
             predF (NewMethod t nm.1 nm.2 sg pl) = inl e.
Proof.
  revert acc. induction order as [| [n m] order IH]; intros acc Hr.
  - discriminate.
  - cbn [rangeMethods] in Hr.
    destruct (Strings.HasPrefix n kw && negb (includeIgnoreTag m)) eqn:Hc.
    + apply andb_true_iff in Hc as [Hp Hi]. apply negb_true_iff in Hi.
      destruct (predF (NewMethod t n m sg pl)) as [e' | b] eqn:Hb; cbn in Hr.
      * injection Hr as ->. exists (n, m). split; [left | done].
      * destruct b; apply IH in Hr as (nm & Hin & Hrest); exists nm; (split; [by right | done]).
    + apply IH in Hr as (nm & Hin & Hrest). exists nm. split; [by right | done].
Qed.

(** What [getTypeMethods] returns is the entries it keeps, in the order of
    the range. *)
Lemma getTypeMethods_returns (kw sg pl : string) (t : Types.Type_)
    (predF : Method -> Result bool) (order : list (string * Types.Type_))
    (r : list Method) :
  getTypeMethods order kw sg pl t (Some predF) = inr r ->
  r = map (fun nm => NewMethod t nm.1 nm.2 sg pl)
          (filter (fun nm => keeps kw sg pl t predF nm = true) order).
Proof.
  unfold getTypeMethods. intros Hr.
  pose proof (rangeMethods_answers _ _ _ _ _ _ _ _ Hr) as Hans.
  rewrite (rangeMethods_keeps _ _ _ _ _ _ _ Hans) in Hr. by injection Hr as <-.
Qed.

(** X9: two ranges over the method table of a type give [getTypeMethods]
    the same methods, up to their order: it returns on one exactly when it
    returns on the other, the two results are permutations of each other,
    and they are equal when at most one method is kept. *)
Theorem getTypeMethods_order (kw sg pl : string) (t : Types.Type_)
    (predF : Method -> Result bool) (o1 o2 : list (string * Types.Type_)) :
  range_order (Types.Type_Methods t) o1 ->
  range_order (Types.Type_Methods t) o2 ->
  ((exists r, getTypeMethods o1 kw sg pl t (Some predF) = inr r) <->
   (exists r, getTypeMethods o2 kw sg pl t (Some predF) = inr r)) /\
  (forall r1 r2,
     getTypeMethods o1 kw sg pl t (Some predF) = inr r1 ->
     getTypeMethods o2 kw sg pl t (Some predF) = inr r2 ->
     r1 ≡ₚ r2 /\ (length r1 <= 1 -> r1 = r2)).
Proof.
  unfold range_order. intros H1 H2.
  assert (Hp : o1 ≡ₚ o2) by (by rewrite H1, H2).
  assert (Hmove : forall oa ob, oa ≡ₚ ob ->
            (exists r, getTypeMethods oa kw sg pl t (Some predF) = inr r) ->
            exists r, getTypeMethods ob kw sg pl t (Some predF) = inr r).
  { intros oa ob Hab [r Hr]. unfold getTypeMethods in *.
    pose proof (rangeMethods_answers _ _ _ _ _ _ _ _ Hr) as Hans.
    eexists. apply rangeMethods_keeps.
    intros nm Hin. apply Hans. by rewrite Hab. }
  split.
  - split; apply Hmove; [exact Hp | by symmetry].
  - intros r1 r2 Hr1 Hr2.
    apply getTypeMethods_returns in Hr1, Hr2.
    assert (Hperm : r1 ≡ₚ r2).
    { subst r1 r2. apply Permutation_map. by rewrite Hp. }
    split; [exact Hperm |]. intros Hlen.
    destruct r1 as [| a [| b r1]]; [| | simpl in Hlen; lia].
    + symmetry. by apply Permutation_nil.
    + symmetry. by apply Permutation_length_1_inv.
Qed.

(** X10: [getMethod] returns a method only if the table has it, its name
    has the prefix, it is not ignored and the predicate accepts it, and
    the method carries the receiver and the keywords of the parser; it
    returns nil only if the predicate refuses every such entry; and it
    fails only as the predicate fails on such an entry. *)
Theorem getMethod_candidate (p : typeParser) (order : list (string * Types.Type_))
    (kw : string) (t : Types.Type_) (predF : Method -> Result bool) :
  (forall c, getMethod p order kw t (Some predF) = inr (Some c) ->
     (name c, method c) ∈ order /\ Strings.HasPrefix (name c) kw = true /\
     includeIgnoreTag (method c) = false /\ predF c = inr true /\
     receiver c = t /\ resSingular c = singular p /\ resPlural c = plural p) /\
  (getMethod p order kw t (Some predF) = inr None ->
     forall nm m, (nm, m) ∈ order -> Strings.HasPrefix nm kw = true ->
       includeIgnoreTag m = false ->
       predF (NewMethod t nm m (singular p) (plural p)) = inr false) /\
  (forall e, getMethod p order kw t (Some predF) = inl e ->
     exists nm m, (nm, m) ∈ order /\ Strings.HasPrefix nm kw = true /\
       includeIgnoreTag m = false /\
       predF (NewMethod t nm m (singular p) (plural p)) = inl e).
Proof.
  unfold getMethod, getMethods.
  destruct (getTypeMethods order kw (singular p) (plural p) t (Some predF))
    as [e | ms] eqn:Hms; cbn.
  - split; [intros c [=] |]. split; [intros [=] |].
    intros e' [= <-]. unfold getTypeMethods in Hms.
    apply rangeMethods_fails in Hms as ([nm m] & Hin & Hp & Hi & He).
    by exists nm, m.
  - pose proof Hms as Hans. unfold getTypeMethods in Hans.
    pose proof (rangeMethods_answers _ _ _ _ _ _ _ _ Hans) as Hall.
    apply getTypeMethods_returns in Hms.
    split; [| split; [| intros e [=]]].
    + intros c [= Hc].
      assert (Hin : c ∈ ms) by (destruct ms; [done | injection Hc as ->; left]).
      rewrite Hms in Hin. apply list_elem_of_fmap in Hin as ([nm m] & -> & Hf).
      apply list_elem_of_filter in Hf as [Hk Ho]. unfold keeps in Hk.
      cbn [fst snd] in *. cbn [name method receiver resSingular resPlural NewMethod].
      apply andb_true_iff in Hk as [Hk Hpred]. apply andb_true_iff in Hk as [Hp Hi].
      apply negb_true_iff in Hi.
      split; [exact Ho |]. split; [exact Hp |]. split; [exact Hi |].
      split; [| done].
      destruct (predF _) as [e | []]; done.
    + intros [= Hnone] nm m Hin Hp Hi.
      destruct ms as [| c ms]; [| done].
      destruct (Hall (nm, m) Hin Hp Hi) as [b Hb]. cbn [fst snd] in Hb.
      destruct b; [| exact Hb]. exfalso.
      assert (Hk : (nm, m) ∈ filter (fun nm0 => keeps kw (singular p) (plural p) t predF nm0 = true) order).
      { apply list_elem_of_filter. split; [| exact Hin].
        unfold keeps. cbn [fst snd]. by rewrite Hp, Hi, Hb. }
      destruct (filter _ order); [by apply elem_of_nil in Hk | done].
Qed.

(** The arity a predicate has seen is that of a signature the method has. *)
Lemma arity_signature (f : Method) (np nr : nat) :
  arity f = inr (np, nr) ->
  exists sig, Types.Type_Signature (method f) = Some sig /\
              length (Types.Signature_Parameters sig) = np /\
              length (Types.Signature_Results sig) = nr.
Proof.
  unfold arity, Method_Signature.
  destruct (Types.Type_Signature (method f)) as [sig |]; cbn; [| discriminate].
  intros [= <- <-]. by exists sig.
Qed.

Lemma Method_Params_in_range (f : Method) (sig : Types.Signature) (i : nat) :
  Types.Type_Signature (method f) = Some sig ->
  i < length (Types.Signature_Parameters sig) ->
  exists ty, Method_Params f i = inr ty.
Proof.
  intros Hs Hi. unfold Method_Params, Method_Signature, index. rewrite Hs. cbn.
  destruct (lookup_lt_is_Some_2 _ _ Hi) as [ty ->]. by exists ty.
Qed.

Lemma resultByMethod_in_range (f g : Method) (sig : Types.Signature) (i : nat)
    (key : string) (ignoreErr : bool) :
  Types.Type_Signature (method g) = Some sig ->
  i < length (Types.Signature_Results sig) ->
  exists r, resultByMethod f g i key ignoreErr = inr r.
Proof.
  intros Hs Hi. unfold resultByMethod, Method_Signature, index. rewrite Hs. cbn.
  destruct (lookup_lt_is_Some_2 _ _ Hi) as [ty ->]. cbn. eexists. reflexivity.
Qed.

(** What the predicates leave of an arity test. *)
Ltac accepted Hpred :=
  let a := fresh "a" in let Ha := fresh "Ha" in
  let sig := fresh "sig" in let Hs := fresh "Hs" in
  let Hnp := fresh "Hnp" in let Hnr := fresh "Hnr" in
  match type of Hpred with
  | ?pred ?f = inr true =>
      unfold pred in Hpred;
      destruct (arity f) as [? | [np nr]] eqn:Ha; cbn in Hpred; [discriminate |];
      apply arity_signature in Ha as (sig & Hs & Hnp & Hnr);
      destruct (decide _) as [Hd | Hd] in Hpred; try discriminate; clear Hpred
  end.

Ltac params Hs i :=
  let ty := fresh "ty" in let Hty := fresh "Hty" in
  destruct (Method_Params_in_range _ _ i Hs) as [ty Hty]; [lia |]; rewrite Hty; cbn.


Lemma createPred_in_range (f : Method) :
  createPred f = inr true -> exists p, param_Create f = inr p.
Proof.
  intros Hpred. accepted Hpred. unfold param_Create. params Hs 3. params Hs 4.
  eexists; reflexivity.
Qed.

Lemma listPred_in_range (f : Method) :
  listPred f = inr true -> exists p, param_List f = inr p.
Proof.
  intros Hpred. accepted Hpred. unfold param_List. params Hs 3. eexists; reflexivity.
Qed.

Lemma getPred_in_range (f : Method) :
  getPred f = inr true ->
  (exists p, param_Get f = inr p) /\ (exists r, FirstSingularResult f = inr r) /\
  forall g, (exists r, ResultByGetMethod g f = inr r) /\
            (exists r, ListResult g f = inr r).
Proof.
  intros Hpred. accepted Hpred. destruct Hd as [Hnp' Hnr'].
  split; [| split].
  - unfold param_Get. params Hs 2. eexists; reflexivity.
  - apply (resultByMethod_in_range f f sig); [done | lia].
  - intros g. split.
    + apply (resultByMethod_in_range g f sig); [done | lia].
    + unfold ListResult, ResultByMethod.
      destruct (resultByMethod_in_range g f sig 0 (resPlural g) false) as [r ->];
        [done | lia |]. cbn. eexists; reflexivity.
Qed.

Lemma updatePred_in_range (f : Method) :
  updatePred f = inr true -> exists p, param_Update f = inr p.
Proof.
  intros Hpred. accepted Hpred. unfold param_Update. params Hs 2. params Hs 3.
  eexists; reflexivity.
Qed.

Lemma deletePred_in_range (f : Method) :
  deletePred f = inr true -> exists p, param_Delete f = inr p.
Proof.
  intros Hpred. accepted Hpred. unfold param_Delete. params Hs 2. params Hs 3.
  eexists; reflexivity.
Qed.

Lemma getSpecPred_in_range (f : Method) :
  getSpecPred f = inr true ->
  (exists p, param_GetSpec f = inr p) /\ (exists r, FirstSingularResult f = inr r).
Proof.
  intros Hpred. accepted Hpred. split.
  - unfold param_GetSpec. params Hs 2. eexists; reflexivity.
  - apply (resultByMethod_in_range f f sig); [done | lia].
Qed.

Lemma performActionPred_in_range (f : Method) :
  performActionPred f = inr true ->
  (exists p, param_PerformAction f = inr p) /\
  (exists r, FirstSingularResultNoError f = inr r).
Proof.
  intros Hpred. accepted Hpred. split.
  - unfold param_PerformAction. params Hs 2. params Hs 3. eexists; reflexivity.
  - apply (resultByMethod_in_range f f sig); [done | lia].
Qed.

(** X11: a method that a predicate accepts has the parameters and the
    results its factories read, so the factories of its convention return:
    none of them goes out of range or meets a nil signature. *)
Theorem accepted_factories (f : Method) :
  (createPred f = inr true -> exists p, param_Create f = inr p) /\
  (listPred f = inr true -> exists p, param_List f = inr p) /\
  (getPred f = inr true ->
     (exists p, param_Get f = inr p) /\ (exists r, FirstSingularResult f = inr r) /\
     forall g, (exists r, ResultByGetMethod g f = inr r) /\
               (exists r, ListResult g f = inr r)) /\
  (updatePred f = inr true -> exists p, param_Update f = inr p) /\
  (deletePred f = inr true -> exists p, param_Delete f = inr p) /\
  (getSpecPred f = inr true ->
     (exists p, param_GetSpec f = inr p) /\ (exists r, FirstSingularResult f = inr r)) /\
  (performActionPred f = inr true ->
     (exists p, param_PerformAction f = inr p) /\
     (exists r, FirstSingularResultNoError f = inr r)).
Proof.
  split; [apply createPred_in_range |].
  split; [apply listPred_in_range |].
  split; [apply getPred_in_range |].
  split; [apply updatePred_in_range |].
  split; [apply deletePred_in_range |].
  split; [apply getSpecPred_in_range | apply performActionPred_in_range].
Qed.

(** ** The generators only write *)

(** A computation that returns, leaves the generator as it was and appends
    to the writer. *)
Local Abbreviation writes c :=
  (forall g sw, exists a out, c (g, sw) = inr (a, (g, (sw ++ out)%list))).

Lemma writes_ret {G A} (a : A) : writes (mret a : M (G * SnippetWriter) A).
Proof. intros g sw. exists a, []. by rewrite app_nil_r. Qed.

Lemma writes_bind {G A B} (c : M (G * SnippetWriter) A) (k : A -> M (G * SnippetWriter) B) :
  writes c -> (forall a, writes (k a)) -> writes (c ≫= k).
Proof.
  intros Hc Hk g sw. destruct (Hc g sw) as (a & out & Ea).
  destruct (Hk a g (sw ++ out)%list) as (b & out' & Eb).
  exists b, (out ++ out')%list. unfold mbind, M_bind. rewrite Ea. cbn.
  etrans; [exact Eb |]. by rewrite app_assoc.
Qed.

Lemma writes_lift_bind {G A B} (r : Result A) (a : A)
    (k : A -> M (G * SnippetWriter) B) :
  r = inr a -> writes (k a) -> writes (lift r ≫= k).
Proof. intros -> Hk g sw. exact (Hk g sw). Qed.

Lemma writes_sw_Do {G} (format : string) (args : Args) :
  writes (sw_Do format args : M (G * SnippetWriter) unit).
Proof. intros g sw. by exists tt, [(format, args)]. Qed.

Lemma writes_forEach {G A} (body : A -> M (G * SnippetWriter) unit) (xs : list A) :
  (forall x, x ∈ xs -> writes (body x)) -> writes (forEach body xs).
Proof.
  induction xs as [| x xs IH]; intros Hb.
  - apply writes_ret.
  - cbn [forEach]. apply writes_bind; [apply Hb; left |].
    intros _. apply IH. intros y Hy. apply Hb. by right.
Qed.

Lemma writes_when {G} (b : bool) (c : M (G * SnippetWriter) unit) :
  writes c -> writes (when b c).
Proof. intros Hc. destruct b; [exact Hc | apply writes_ret]. Qed.

Ltac writes_step :=
  first [ apply writes_sw_Do
        | apply writes_ret
        | apply writes_when
        | apply writes_forEach; intros ? _
        | apply writes_bind; [| intros ?] ].

Lemma writes_commenter_Do {G} (c : commenter) :
  writes (commenter_Do c : M (G * SnippetWriter) unit).
Proof.
  unfold commenter_Do, route_Do, parameter_Do, parameter_do, response_Do, bodyStruct,
    line, lines, emptyLine.
  repeat first
    [ writes_step
    | match goal with
      | |- context [match ?x with Some _ => _ | None => _ end] => destruct x
      | |- context [if ?x then _ else _] => destruct x
      end ].
Qed.

(** Every predicate answers on a method that has a signature. *)
Lemma preds_answer (m : Method) :
  is_Some (Types.Type_Signature (method m)) ->
  (exists b, createPred m = inr b) /\ (exists b, listPred m = inr b) /\
  (exists b, getPred m = inr b) /\ (exists b, updatePred m = inr b) /\
  (exists b, deletePred m = inr b) /\ (exists b, getSpecPred m = inr b) /\
  (exists b, performActionPred m = inr b).
Proof.
  intros [sig Hs].
  unfold createPred, listPred, getPred, updatePred, deletePred, getSpecPred,
    performActionPred, arity, Method_Signature.
  rewrite Hs. cbn. repeat split; eexists; reflexivity.
Qed.

(** Over a table whose methods have signatures the matcher returns, and
    what it returns was accepted by the predicate. *)
Lemma getMethods_accepted (p : typeParser) (order : list (string * Types.Type_))
    (kw : string) (t : Types.Type_) (predF : Method -> Result bool) :
  (forall nm m, (nm, m) ∈ order ->
                exists b, predF (NewMethod t nm m (singular p) (plural p)) = inr b) ->
  exists ms, getMethods p order kw t (Some predF) = inr ms /\
             forall c, c ∈ ms -> predF c = inr true.
Proof.
  intros Hans. unfold getMethods, getTypeMethods.
  rewrite rangeMethods_keeps by (intros [nm m] Hin _ _; by apply Hans).
  eexists. split; [reflexivity |]. intros c Hc. cbn [app] in Hc.
  apply list_elem_of_fmap in Hc as ([nm m] & -> & Hf).
  apply list_elem_of_filter in Hf as [Hk _]. unfold keeps in Hk. cbn [fst snd] in *.
  apply andb_true_iff in Hk as [_ Hk].
  destruct (predF _) as [e | []]; done.
Qed.

Lemma getMethod_accepted (p : typeParser) (order : list (string * Types.Type_))
    (kw : string) (t : Types.Type_) (predF : Method -> Result bool) :
  (forall nm m, (nm, m) ∈ order ->
                exists b, predF (NewMethod t nm m (singular p) (plural p)) = inr b) ->
  exists mo, getMethod p order kw t (Some predF) = inr mo /\
             forall c, mo = Some c -> predF c = inr true.
Proof.
  intros Hans. destruct (getMethods_accepted p order kw t predF Hans) as (ms & Hms & Hacc).
  unfold getMethod. rewrite Hms. cbn. eexists. split; [reflexivity |].
  intros c Hc. apply Hacc. destruct ms; [done | injection Hc as ->; left].
Qed.

(** X12: when every method of the manager type and of the model type has a
    signature, [generateCode] returns under every legal order of its seven
    range loops: no matcher and no factory panics.  It leaves the generator
    as it was and only appends to what the writer holds. *)
Theorem generateCode_returns {G} (o : rangeOrders) (manIns : IModelManager)
    (manType modelType : Types.Type_) :
  legal_orders manType modelType o ->
  (forall nm m, Types.Type_Methods manType !! nm = Some m ->
                is_Some (Types.Type_Signature m)) ->
  (forall nm m, Types.Type_Methods modelType !! nm = Some m ->
                is_Some (Types.Type_Signature m)) ->
  forall (g : G) (sw : SnippetWriter),
    exists out, generateCode o manIns manType modelType (g, sw)
                = inr (tt, (g, (sw ++ out)%list)).
Proof.
  intros (Lget & Lcreate & Llist & Lupdate & Ldelete & LgetSpec & Lperform) Hman Hmodel.
  unfold range_order in *.
  assert (Hsig : forall (t : Types.Type_) (order : list (string * Types.Type_)) nm m sg pl,
            order ≡ₚ map_to_list (Types.Type_Methods t) ->
            (forall nm m, Types.Type_Methods t !! nm = Some m ->
                          is_Some (Types.Type_Signature m)) ->
            (nm, m) ∈ order ->
            is_Some (Types.Type_Signature (method (NewMethod t nm m sg pl)))).
  { intros t order nm m sg pl Hord Hall Hin. cbn. apply (Hall nm).
    rewrite Hord in Hin. by apply elem_of_map_to_list in Hin. }
  set (parser := newTypeParser manIns manType modelType).
  assert (Hwrites : writes (generateCode (G := G) o manIns manType modelType)).
  { unfold generateCode. fold parser.
    destruct (getMethod_accepted parser (o_get o) Get (model parser) getPred)
      as (gm & Hgm & Hgacc).
    { intros nm m Hin. by apply preds_answer, (Hsig _ (o_get o)). }
    destruct (getMethod_accepted parser (o_create o) Create (manager parser) createPred)
      as (cm & Hcm & Hcacc).
    { intros nm m Hin. by apply preds_answer, (Hsig _ (o_create o)). }
    destruct (getMethod_accepted parser (o_list o) List (manager parser) listPred)
      as (lm & Hlm & Hlacc).
    { intros nm m Hin. by apply preds_answer, (Hsig _ (o_list o)). }
    destruct (getMethod_accepted parser (o_update o) Update (model parser) updatePred)
      as (um & Hum & Huacc).
    { intros nm m Hin. by apply preds_answer, (Hsig _ (o_update o)). }
    destruct (getMethod_accepted parser (o_delete o) Delete (model parser) deletePred)
      as (dm & Hdm & Hdacc).
    { intros nm m Hin. by apply preds_answer, (Hsig _ (o_delete o)). }
    destruct (getMethods_accepted parser (o_getSpec o) GetSpec (model parser) getSpecPred)
      as (sm & Hsm & Hsacc).
    { intros nm m Hin. by apply preds_answer, (Hsig _ (o_getSpec o)). }
    destruct (getMethods_accepted parser (o_perform o) Perform (model parser)
                                  performActionPred) as (pm & Hpm & Hpacc).
    { intros nm m Hin. by apply preds_answer, (Hsig _ (o_perform o)). }
    assert (Hget : forall c, gm = Some c ->
              (exists p, param_Get c = inr p) /\ (exists r, FirstSingularResult c = inr r) /\
              forall f, (exists r, ResultByGetMethod f c = inr r) /\
                        (exists r, ListResult f c = inr r)).
    { intros c Hc. by apply getPred_in_range, Hgacc. }
    apply (writes_lift_bind _ gm); [exact Hgm |].
    apply writes_bind.
    { unfold generateGet. destruct gm as [c |]; [| apply writes_ret].
      destruct (Hget c eq_refl) as ([p Hp] & [r Hr] & _).
      apply (writes_lift_bind _ p); [exact Hp |].
      apply (writes_lift_bind _ r); [exact Hr |]. apply writes_commenter_Do. }
    intros _. apply (writes_lift_bind _ cm); [exact Hcm |].
    apply writes_bind.
    { unfold generateCreate. destruct cm as [c |]; [| apply writes_ret].
      destruct gm as [c' |]; [| apply writes_ret].
      destruct (createPred_in_range c (Hcacc c eq_refl)) as [p Hp].
      destruct (Hget c' eq_refl) as (_ & _ & Hres). destruct (Hres c) as ([r Hr] & _).
      apply (writes_lift_bind _ p); [exact Hp |].
      apply (writes_lift_bind _ r); [exact Hr |]. apply writes_commenter_Do. }
    intros _. apply (writes_lift_bind _ lm); [exact Hlm |].
    apply writes_bind.
    { unfold generateList. destruct lm as [c |]; [| apply writes_ret].
      destruct gm as [c' |]; [| apply writes_ret].
      destruct (listPred_in_range c (Hlacc c eq_refl)) as [p Hp].
      destruct (Hget c' eq_refl) as (_ & _ & Hres). destruct (Hres c) as (_ & [r Hr]).
      apply (writes_lift_bind _ p); [exact Hp |].
      apply (writes_lift_bind _ r); [exact Hr |]. apply writes_commenter_Do. }
    intros _. apply (writes_lift_bind _ um); [exact Hum |].
    apply writes_bind.
    { unfold generateUpdate. destruct um as [c |]; [| apply writes_ret].
      destruct gm as [c' |]; [| apply writes_ret].
      destruct (updatePred_in_range c (Huacc c eq_refl)) as [p Hp].
      destruct (Hget c' eq_refl) as (_ & _ & Hres). destruct (Hres c) as ([r Hr] & _).
      apply (writes_lift_bind _ p); [exact Hp |].
      apply (writes_lift_bind _ r); [exact Hr |]. apply writes_commenter_Do. }
    intros _. apply (writes_lift_bind _ dm); [exact Hdm |].
    apply writes_bind.
    { unfold generateDelete. destruct dm as [c |]; [| apply writes_ret].
      destruct gm as [c' |]; [| apply writes_ret].
      destruct (deletePred_in_range c (Hdacc c eq_refl)) as [p Hp].
      destruct (Hget c' eq_refl) as (_ & _ & Hres). destruct (Hres c) as ([r Hr] & _).
      apply (writes_lift_bind _ p); [exact Hp |].
      apply (writes_lift_bind _ r); [exact Hr |]. apply writes_commenter_Do. }
    intros _. apply writes_bind.
    { unfold applyGenerateFunc, getSpecM. apply (writes_lift_bind _ sm); [exact Hsm |].
      apply writes_forEach. intros c Hc. unfold generateGetSpec.
      destruct (getSpecPred_in_range c (Hsacc c Hc)) as ([p Hp] & [r Hr]).
      apply (writes_lift_bind _ p); [exact Hp |].
      apply (writes_lift_bind _ r); [exact Hr |]. apply writes_commenter_Do. }
    intros _. unfold applyGenerateFunc, performActionM.
    apply (writes_lift_bind _ pm); [exact Hpm |].
    apply writes_forEach. intros c Hc. unfold generatePerformAction.
    destruct (performActionPred_in_range c (Hpacc c Hc)) as ([p Hp] & [r Hr]).
    apply (writes_lift_bind _ p); [exact Hp |].
    apply (writes_lift_bind _ r); [exact Hr |]. apply writes_commenter_Do. }
  intros g sw. destruct (Hwrites g sw) as ([] & out & E). by exists out.
Qed.

End MatcherOrder.

Section RouteShape.
Context `{Externals}.

Import SwaggerGen.

(** [reviseDescription] touches the description only, and only an empty
    one. *)
Lemma reviseDescription_fields (r : route) :
  action (reviseDescription r) = action r /\ path (reviseDescription r) = path r /\
  r_parameter (reviseDescription r) = r_parameter r /\ tags (reviseDescription r) = tags r /\
  summary (reviseDescription r) = summary r /\
  r_response (reviseDescription r) = r_response r /\
  (description r <> [] -> description (reviseDescription r) = description r) /\
  (description r = [] ->
   description (reviseDescription r) = if decide (summary r = "") then [] else [summary r]).
Proof.
  unfold reviseDescription.
  destruct (decide (summary r <> "" /\ length (description r) = 0)) as [[Hs Hl] | N];
    cbn [action path r_parameter tags summary r_response description].
  - do 6 (split; [reflexivity |]). split.
    + intros Hd. by destruct (description r).
    + intros ->. by rewrite decide_False.
  - do 6 (split; [reflexivity |]). split; [done |].
    intros Hd. rewrite Hd. destruct (decide (summary r = "")) as [_ | Hs]; [done |].
    destruct N. by rewrite Hd.
Qed.

(** X13: after [reviseDescription] a route that has a summary has a
    description; a second call changes nothing; and no field but the
    description is touched.  The route of a declaration, built by
    [SwaggerConfigRoute.newRoute] and revised, and the route of a
    convention, built by [newRoute], both end with this call. *)
Theorem reviseDescription_invariant (r : route) :
  (summary (reviseDescription r) <> "" -> description (reviseDescription r) <> []) /\
  reviseDescription (reviseDescription r) = reviseDescription r /\
  summary (reviseDescription r) = summary r /\
  (forall f act input output,
     summary (newRoute f act input output) <> "" ->
     description (newRoute f act input output) <> []).
Proof.
  assert (Hinv : forall r0, summary (reviseDescription r0) <> "" ->
                            description (reviseDescription r0) <> []).
  { intros r0. unfold reviseDescription.
    destruct (decide (summary r0 <> "" /\ length (description r0) = 0)) as [[Hs Hl] | N];
      cbn [summary description].
    - intros _. by destruct (description r0).
    - intros Hs Hd. apply N. by rewrite Hd. }
  split; [apply Hinv |]. split; [| split].
  - unfold reviseDescription at 1.
    destruct (decide _) as [[Hs Hl] | N]; [| reflexivity].
    exfalso. apply Hinv in Hs. by destruct (description (reviseDescription r)).
  - apply reviseDescription_fields.
  - intros f act input output. unfold newRoute. apply Hinv.
Qed.

(** A route built from a response that has diagnostics carries them in its
    description, under the fixed summary. *)
Lemma newRoute_output_error (f : Method) (act : string) (p : parameter) (out : response) :
  r_errorMsgs out <> [] ->
  summary (newRoute f act p out) = "input or output error exists" /\
  ("output error: " +:+ Strings.Join (r_errorMsgs out) ",")
    ∈ description (newRoute f act p out).
Proof.
  intros Hne.
  assert (Hlen : length (r_errorMsgs out) <> 0) by (by destruct (r_errorMsgs out)).
  unfold newRoute.
  match goal with
  | |- context [reviseDescription ?r0] =>
      destruct (reviseDescription_fields r0) as (_ & _ & _ & _ & Hs & _ & Hd & _);
      rewrite Hs; cbn [summary description] in *
  end.
  destruct (decide (length (p_errorMsgs p) <> 0 \/ length (r_errorMsgs out) <> 0))
    as [_ | N]; [| destruct N; by right].
  split; [reflexivity |].
  destruct (decide (length (r_errorMsgs out) <> 0)) as [_ | N]; [| done].
  assert (Hin : forall pre post : list string,
            ("output error: " +:+ Strings.Join (r_errorMsgs out) ",")
              ∈ ((pre ++ ["output error: " +:+ Strings.Join (r_errorMsgs out) ","]) ++ post)%list).
  { intros pre post. rewrite !elem_of_app. left. right. left. }
  destruct (decide (length (p_errorMsgs p) <> 0));
    destruct (decide (1 < length (Types.Type_CommentLines (method f))));
    (rewrite Hd; [| cbn; try (intros E; by apply app_eq_nil in E as [? E]); done]).
  - apply Hin.
  - rewrite <- (app_nil_r (_ ++ [_])). apply Hin.
  - apply (Hin []).
  - left.
Qed.

(** X14: the route of a convention.  [newRoute] fills the action, the tag
    of the resource and the response under the code 200, and leaves the
    path empty.  With no diagnostic the summary is the first comment line
    of the method and the description the lines after it, or the summary
    itself when there is no other line; with a diagnostic of the response
    the summary is the fixed error text and the description holds the
    diagnostics. *)
Theorem newRoute_shape (f : Method) (act : string) (p : parameter) (r : response) :
  let comments := Types.Type_CommentLines (method f) in
  let rt := newRoute f act p r in
  (action rt = act /\ path rt = "" /\ tags rt = [resSingular f] /\
   r_parameter rt = p /\ r_response rt = {[ 200%Z := r ]}) /\
  (p_errorMsgs p = [] -> r_errorMsgs r = [] ->
   summary rt = hd "" comments /\
   description rt = match comments with
                    | [] => []
                    | [l] => if decide (l = "") then [] else [l]
                    | _ :: rest => rest
                    end) /\
  (r_errorMsgs r <> [] ->
   summary rt = "input or output error exists" /\
   ("output error: " +:+ Strings.Join (r_errorMsgs r) ",") ∈ description rt).
Proof.
  intros comments rt. split; [| split].
  - subst rt. unfold newRoute.
    match goal with
    | |- context [reviseDescription ?r0] =>
        destruct (reviseDescription_fields r0) as (Ha & Hp & Hpar & Ht & _ & Hr & _)
    end.
    rewrite Ha, Hp, Hpar, Ht, Hr. done.
  - intros Hp Hr. subst rt. unfold newRoute. rewrite Hp, Hr. cbn [length].
    destruct (decide (0 <> 0 \/ 0 <> 0)) as [[N | N] | _]; [done | done |].
    destruct (decide (0 <> 0)) as [N | _]; [done |].
    match goal with
    | |- context [reviseDescription ?r0] =>
        destruct (reviseDescription_fields r0) as (_ & _ & _ & _ & Hs & _ & Hd & He)
    end.
    rewrite Hs. cbn [summary description] in *. fold comments in Hd, He |- *.
    split; [by destruct comments |].
    destruct comments as [| l [| l2 rest]]; cbn [length] in *.
    + destruct (decide (1 < 0)); [lia |]. by rewrite He.
    + destruct (decide (1 < 1)); [lia |]. by rewrite He.
    + destruct (decide (1 < S (S (length rest)))); [| lia]. by rewrite Hd.
  - apply newRoute_output_error.
Qed.

(** X15: the diagnostics of a response.  [resultByMethod] reads the result
    [resultIdx] of the method.  A result that passes the shape check
    becomes the output and nothing is recorded; one that fails it leaves
    the output nil and records "unsupport type", unless errors are ignored,
    as they are for the result of an action.  A recorded diagnostic reaches
    the route built from the response.  The body key falls back on the
    plural keyword. *)
Theorem resultByMethod_diagnostics (f g : Method) (resultIdx : nat) (key : string)
    (ignoreErr : bool) (out : Types.Type_) :
  Method_Resutls g resultIdx = inr out ->
  exists r,
    resultByMethod f g resultIdx key ignoreErr = inr r /\
    id r = privateName (resSingular f) (name f) +:+ "Output" /\
    isList r = false /\
    bodyKey r = (if decide (key = "") then resPlural f else key) /\
    (isStructPointer out = true -> output r = Some out /\ r_errorMsgs r = []) /\
    (isStructPointer out = false ->
     output r = None /\
     r_errorMsgs r = if ignoreErr then []
                     else ["unsupport type " +:+ Types.Type_String out]) /\
    (isStructPointer out = false -> ignoreErr = false ->
     forall act p,
       summary (newRoute f act p r) = "input or output error exists" /\
       ("output error: unsupport type " +:+ Types.Type_String out)
         ∈ description (newRoute f act p r)).
Proof.
  unfold Method_Resutls, resultByMethod.
  destruct (Method_Signature g) as [e | sig]; cbn; [discriminate |].
  intros Hout. rewrite Hout. cbn.
  eexists. split; [reflexivity |]. cbn [id isList bodyKey output r_errorMsgs].
  split; [by destruct (isStructPointer out), ignoreErr |].
  split; [by destruct (isStructPointer out), ignoreErr |].
  split; [by destruct (isStructPointer out), ignoreErr |].
  split; [by intros -> |]. split; [intros ->; by destruct ignoreErr |].
  intros -> -> act p. cbn [negb].
  match goal with
  | |- context [newRoute f act p ?r0] =>
      destruct (newRoute_output_error f act p r0) as [Hs Hd]; [done |]
  end.
  split; [exact Hs |]. exact Hd.
Qed.

(** What [lines] writes. *)
Lemma lines_run {G} (ls : list string) (g : G) (sw : SnippetWriter) :
  lines ls (g, sw) =
    inr (tt, (g, (sw ++ map (fun l => ("// " +:+ l +:+ "
", NoArgs)) ls)%list)).
Proof.
  unfold lines. revert sw. induction ls as [| l ls IH]; intros sw.
  - cbn. by rewrite app_nil_r.
  - cbn [forEach map]. unfold mbind, M_bind, sw_Do, modify. cbn [fst snd].
    etrans; [apply IH |]. by rewrite <- app_assoc.
Qed.

(** X16: what [route.Do] writes for a route with the one response code 200:
    the [swagger:route] line with the action, the path, the tags and the
    operation id; the summary and the description, each after an empty
    comment line and only when not empty; then the responses block with the
    id of the response, and an empty line. *)
Theorem route_Do_writes {G} (r : route) (resp : response) (g : G) (sw : SnippetWriter) :
  r_response r = {[ 200%Z := resp ]} ->
  route_Do r (g, sw) =
    inr (tt, (g, (sw ++
      [("// swagger:route " +:+ action r +:+ " " +:+ path r +:+ " "
        +:+ Strings.Join (tags r) " " +:+ " " +:+ operationId (r_parameter r) +:+ "
", NoArgs)] ++
      (if decide (summary r = "") then []
       else [("//
", NoArgs); ("// " +:+ summary r +:+ "
", NoArgs)]) ++
      (if decide (description r = []) then []
       else ("//
", NoArgs) :: map (fun l => ("// " +:+ l +:+ "
", NoArgs)) (description r)) ++
      [("//
", NoArgs); ("// responses:
", NoArgs); ("// 200: " +:+ id resp +:+ "
", NoArgs); ("
", NoArgs)])%list)).
Proof.
  intros Hresp. unfold route_Do. rewrite Hresp, map_to_list_singleton.
  assert (Hsum : bool_decide (String.length (summary r) = 0)
                 = bool_decide (summary r = "")).
  { apply bool_decide_ext. by destruct (summary r). }
  assert (Hdesc : bool_decide (length (description r) = 0)
                  = bool_decide (description r = [])).
  { apply bool_decide_ext. by destruct (description r). }
  rewrite Hsum, Hdesc. unfold when, line, emptyLine.
  unfold mbind, M_bind, sw_Do, modify. cbn [fst snd forEach].
  destruct (decide (summary r = "")) as [Hs | Hs];
    [rewrite (bool_decide_eq_true_2 _ Hs) | rewrite (bool_decide_eq_false_2 _ Hs)];
    (destruct (decide (description r = [])) as [Hd | Hd];
     [rewrite (bool_decide_eq_true_2 _ Hd) | rewrite (bool_decide_eq_false_2 _ Hd)]);
    cbn [negb]; unfold mret, M_ret; rewrite ?lines_run; cbn [map fst snd];
    unfold mbind, M_bind, mret, M_ret; cbn [fst snd];
    rewrite ?lines_run; cbn [map fst snd]; rewrite <- ?app_assoc; reflexivity.
Qed.

(** X17: an argument or a result that is set but is no valid type.  When
    the body of a parameter is set and [GetValidType] refuses it, the body
    block is written all the same, with the nil type as its template
    argument, after the id block and the query of the parameter if it has
    them, and wrapped under the singular keyword if there is one; the
    response of an output that [GetValidType] refuses is written as an empty
    struct. *)
Theorem invalid_types_written {G} (g : G) (sw : SnippetWriter) :
  (forall (r : parameter) (b : Types.Type_),
     body r = Some b -> parameter_getBody r = None ->
     parameter_do r (g, sw) =
       inr (tt, (g, (sw ++
         [("type " +:+ operationId r +:+ " struct {
", NoArgs)] ++
         (if withId r
          then [("// " +:+ ("The Id or Name of " +:+ p_singular r) +:+ "
", NoArgs);
                ("// in:path
", NoArgs);
                ("// required:true
", NoArgs);
                ("Id string " +:+ Strings.bquote +:+ "json:" +:+ Strings.dquote +:+ "id"
                 +:+ Strings.dquote +:+ Strings.bquote +:+ "
", NoArgs)]
          else []) ++
         match parameter_getQuery r with
         | Some q => [("$.type|raw$
", getArgs (Some q))]
         | None => []
         end ++
         [("// in:body
", NoArgs)] ++
         (if decide (p_singular r <> "")
          then [("Body struct {", NoArgs);
                ("Input $.type|raw$ " +:+ Strings.bquote +:+ "json:" +:+ Strings.dquote
                 +:+ p_singular r +:+ Strings.dquote +:+ Strings.bquote +:+ "
", getArgs None);
                ("} " +:+ Strings.bquote +:+ "json:" +:+ Strings.dquote +:+ "body"
                 +:+ Strings.dquote +:+ Strings.bquote, NoArgs)]
          else [("Body $.type|raw$ " +:+ Strings.bquote +:+ "json:" +:+ Strings.dquote
                 +:+ "body" +:+ Strings.dquote +:+ Strings.bquote, getArgs None)]) ++
         [("}
", NoArgs)])%list))) /\
  (forall r : response,
     response_getOutput r = None ->
     response_Do r (g, sw) =
       inr (tt, (g, (sw ++
         [("// swagger:response " +:+ id r +:+ "
", NoArgs);
          ("type " +:+ id r +:+ " struct {
", NoArgs);
          ("}
", NoArgs)])%list))).
Proof.
  split.
  - intros r b Hb Hgb. unfold parameter_do. rewrite Hb, Hgb.
    unfold when, line, lines.
    destruct (withId r); destruct (parameter_getQuery r) as [q |];
      destruct (decide (p_singular r <> "")) as [Hs | Hs];
      run; rewrite <- ?app_assoc; reflexivity.
  - intros r Ho. unfold response_Do. rewrite Ho. run.
    rewrite <- !app_assoc. reflexivity.
Qed.

(** X18: [GetValidType] returns a type exactly for a struct, which it
    returns as it is, and for a pointer, of which it returns the element
    whatever the kind of the element, provided the package of the returned
    type does not mention jsonutils.  [isValidType] accepts exactly the
    types for which the returned type is not the anonymous struct. *)
Theorem GetValidType_characterised (t : option Types.Type_) (r : Types.Type_) :
  (GetValidType t = Some r <->
   Strings.Contains (Types.Name_Package (Types.Type_Name r)) "yunion.io/x/jsonutils" = false /\
   exists t0, t = Some t0 /\
     ((Types.Type_Kind t0 = Types.Struct /\ r = t0) \/
      (Types.Type_Kind t0 = Types.Pointer /\ Types.Type_Elem t0 = Some r))) /\
  (isValidType t = None <->
   exists r0, GetValidType t = Some r0 /\
              Types.Name_Name (Types.Type_Name r0) <> "struct{}").
Proof.
  split.
  - unfold GetValidType, getValidType. split.
    + destruct t as [t0 |]; [| done].
      destruct (Types.Type_Kind t0) eqn:Hk; try done.
      * destruct (Strings.Contains _ _) eqn:Hc; [done |].
        intros [= <-]. split; [exact Hc |]. exists t0. split; [done | by left].
      * destruct (Types.Type_Elem t0) as [e |] eqn:He; [| done].
        destruct (Strings.Contains _ _) eqn:Hc; [done |].
        intros [= <-]. split; [exact Hc |]. exists t0. split; [done | by right].
    + intros (Hc & t0 & -> & [[Hk ->] | [Hk He]]); rewrite Hk.
      * by rewrite Hc.
      * by rewrite He, Hc.
  - unfold isValidType. destruct t as [t0 |].
    + destruct (GetValidType (Some t0)) as [rt |].
      * destruct (decide (Types.Name_Name (Types.Type_Name rt) = "struct{}")) as [E | N].
        -- split; [done |]. intros (r0 & [= <-] & Hn). done.
        -- split; [| done]. intros _. by exists rt.
      * split; [done |]. by intros (r0 & [=] & _).
    + split; [done |]. by intros (r0 & [=] & _).
Qed.

(** The range over the two entries of the map of [validInputOutput] takes
    one of two orders. *)
Lemma inputOutputMap_orders (input output : option Types.Type_)
    (order : list (string * option Types.Type_)) :
  range_order (inputOutputMap input output) order ->
  order = [("input", input); ("output", output)] \/
  order = [("output", output); ("input", input)].
Proof.
  unfold range_order, inputOutputMap. intros Hord.
  rewrite map_to_list_insert in Hord by done.
  rewrite map_to_list_singleton in Hord.
  symmetry in Hord. by apply Permutation_length_2_inv in Hord.
Qed.

(** X19: [validInputOutput] ranges over a map of two entries.  Whatever the
    order of the range, it returns nil exactly when the input and the
    output are both valid; and when at most one of them is invalid the
    error it returns is the same under both orders. *)
Theorem validInputOutput_order (input output : option Types.Type_)
    (o1 o2 : list (string * option Types.Type_)) :
  range_order (inputOutputMap input output) o1 ->
  range_order (inputOutputMap input output) o2 ->
  (validInputOutput o1 = None <->
   isValidType input = None /\ isValidType output = None) /\
  (isValidType input = None \/ isValidType output = None ->
   validInputOutput o1 = validInputOutput o2).
Proof.
  intros H1 H2.
  apply inputOutputMap_orders in H1 as [-> | ->];
    apply inputOutputMap_orders in H2 as [-> | ->];
    unfold validInputOutput; cbn [validEntries];
    destruct (isValidType input) as [ei |], (isValidType output) as [eo |];
    (split; [split; [try done; by intros [? ?] | try done; by intros [? ?]] |]);
    intros [Hv | Hv]; done.
Qed.

End RouteShape.

Section Declarations.
Context `{Externals}.

Import SwaggerGen.

(** X20: the index tags.  [fetchTagIdx] returns a type only for a tag whose
    first value is a number within the bounds of the list, and then the
    type at that place; it returns nil for a missing tag, a value that is no
    number and a number past the end; and a negative number, which the test
    against the length lets through, makes it panic with an index out of
    range. *)
Theorem fetchTagIdx_bounds (atoi : string -> option Z) (params : list Types.Type_)
    (comments : list string) (tagName : string) :
  (forall ty, fetchTagIdx atoi params comments tagName = inr (Some ty) <->
     exists v rest idx,
       extractTagByName comments tagName = v :: rest /\ atoi v = Some idx /\
       (0 <= idx < Z.of_nat (length params))%Z /\ params !! Z.to_nat idx = Some ty) /\
  (fetchTagIdx atoi params comments tagName = inr None <->
     extractTagByName comments tagName = [] \/
     exists v rest,
       extractTagByName comments tagName = v :: rest /\
       (atoi v = None \/
        exists idx, atoi v = Some idx /\ (Z.of_nat (length params) <= idx)%Z)) /\
  (forall e, fetchTagIdx atoi params comments tagName = inl e <->
     e = Panic "index out of range" /\
     exists v rest idx,
       extractTagByName comments tagName = v :: rest /\ atoi v = Some idx /\
       (idx < 0)%Z).
Proof.
  unfold fetchTagIdx.
  destruct (extractTagByName comments tagName) as [| v rest].
  { split; [| split].
    - intros ty. split; [done |]. by intros (? & ? & ? & [=] & _).
    - split; [by left | done].
    - intros e. split; [done |]. by intros (_ & ? & ? & ? & [=] & _). }
  destruct (atoi v) as [idx |] eqn:Ha.
  2:{ split; [| split].
      - intros ty. split; [done |].
        intros (v' & rest' & idx & [= <- <-] & Ha' & _). congruence.
      - split; [| done]. intros _. right. exists v, rest. split; [done | by left].
      - intros e. split; [done |].
        intros (_ & v' & rest' & idx & [= <- <-] & Ha' & _). congruence. }
  destruct (decide (idx >= Z.of_nat (length params))%Z) as [Hge | Hlt].
  { split; [| split].
    - intros ty. split; [done |].
      intros (v' & rest' & idx' & [= <- <-] & Ha' & Hb & _).
      rewrite Ha in Ha'. injection Ha' as <-. lia.
    - split; [| done]. intros _. right. exists v, rest. split; [done |].
      right. exists idx. split; [done | lia].
    - intros e. split; [done |].
      intros (_ & v' & rest' & idx' & [= <- <-] & Ha' & Hneg).
      rewrite Ha in Ha'. injection Ha' as <-. lia. }
  destruct (decide (idx < 0)%Z) as [Hneg | Hpos].
  { split; [| split].
    - intros ty. split; [done |].
      intros (v' & rest' & idx' & [= <- <-] & Ha' & Hb & _).
      rewrite Ha in Ha'. injection Ha' as <-. lia.
    - split; [done |]. intros [[=] | (v' & rest' & [= <- <-] & [Hn | (idx' & Ha' & Hb)])].
      + congruence.
      + rewrite Ha in Ha'. injection Ha' as <-. lia.
    - intros e. split.
      + intros [= <-]. split; [done |]. by exists v, rest, idx.
      + by intros [-> _]. }
  assert (Hin : Z.to_nat idx < length params) by lia.
  destruct (lookup_lt_is_Some_2 _ _ Hin) as [ty0 Hty].
  rewrite Hty. split; [| split].
  - intros ty. split.
    + intros [= <-]. exists v, rest, idx. repeat split; try done; lia.
    + intros (v' & rest' & idx' & [= <- <-] & Ha' & Hb & Hl).
      rewrite Ha in Ha'. injection Ha' as <-. congruence.
  - split; [done |]. intros [[=] | (v' & rest' & [= <- <-] & [Hn | (idx' & Ha' & Hb)])].
    + congruence.
    + rewrite Ha in Ha'. injection Ha' as <-. lia.
  - intros e. split; [done |].
    intros (_ & v' & rest' & idx' & [= <- <-] & Ha' & Hb).
    rewrite Ha in Ha'. injection Ha' as <-. lia.
Qed.

(** X21: [Filter] and [GenerateType] on a declaration.  A declaration that
    carries the ignore tag is filtered out.  Otherwise [Filter] reads the
    configuration of the declaration, which is nil exactly when one of the
    three route tags is missing: a panic while the tags are read, as for a
    negative index tag, is a panic of [Filter]; and a declaration whose
    configuration is read passes, also when the parameter or the response
    of the configuration is nil because no parameter tag or no usable
    response index is given.  [GenerateType] then calls a method on the nil
    pointer and panics before anything is written; it panics as well when
    the configuration itself is nil, and as the reading of the tags does. *)
Theorem declaration_nil_config_panics {G} (atoi : string -> option Z)
    (globalManagers : registry) (g : swaggerGen) (o : rangeOrders)
    (t : Types.Type_) (st : G * SnippetWriter) :
  Types.Type_Kind t = Types.DeclarationOf ->
  (getFunctionHasSwaggerConfig atoi t = inr None <->
   extractTagByName (Types.Type_SecondClosestCommentLines t) tagRouteMethod = [] \/
   extractTagByName (Types.Type_SecondClosestCommentLines t) tagRoutePath = [] \/
   extractTagByName (Types.Type_SecondClosestCommentLines t) tagRouteTag = []) /\
  (includeIgnoreTag t = true ->
   SwaggerGen.Filter atoi globalManagers g t = inr false) /\
  (includeIgnoreTag t = false ->
   forall e, getFunctionHasSwaggerConfig atoi t = inl e ->
     SwaggerGen.Filter atoi globalManagers g t = inl e) /\
  (includeIgnoreTag t = false ->
   forall c, getFunctionHasSwaggerConfig atoi t = inr (Some c) ->
     SwaggerGen.Filter atoi globalManagers g t = inr true) /\
  (forall c, getFunctionHasSwaggerConfig atoi t = inr (Some c) ->
     c_Param c = None \/ c_Response c = None ->
     SwaggerGen.GenerateType atoi globalManagers g o t st
       = inl (Panic "nil pointer dereference")) /\
  (getFunctionHasSwaggerConfig atoi t = inr None ->
   SwaggerGen.GenerateType atoi globalManagers g o t st
     = inl (Panic "nil pointer dereference")) /\
  (forall e, getFunctionHasSwaggerConfig atoi t = inl e ->
     SwaggerGen.GenerateType atoi globalManagers g o t st = inl e).
Proof.
  intros Hk.
  assert (Hgen : SwaggerGen.GenerateType atoi globalManagers g o t st
                 = generateDeclarationCode atoi t st).
  { unfold SwaggerGen.GenerateType.
    by destruct (decide (Types.Type_Kind t = Types.DeclarationOf)). }
  split; [| split; [| split; [| split; [| split; [| split]]]]].
  - unfold getFunctionHasSwaggerConfig.
    destruct (decide (Types.Type_Kind t <> Types.DeclarationOf)) as [N | _]; [done |].
    unfold extractSwaggerConfig, extractSwaggerRoute.
    destruct (extractTagByName _ tagRouteMethod) as [| m ms]; [split; [by left | done] |].
    destruct (extractTagByName _ tagRoutePath) as [| pt pts];
      [split; [by right; left | done] |].
    destruct (extractTagByName _ tagRouteTag) as [| tg tgs];
      [split; [by right; right | done] |].
    destruct (extractSwaggerParam _ _ _) as [e | param]; cbn;
      [split; [done | by intros [? | [? | ?]]] |].
    destruct (extractSwaggerResponse _ _ _) as [e | resp]; cbn;
      split; try done; by intros [? | [? | ?]].
  - intros Hi. unfold SwaggerGen.Filter. by rewrite Hi.
  - intros Hi e Hc. unfold SwaggerGen.Filter. rewrite Hi.
    destruct (decide (Types.Type_Kind t = Types.DeclarationOf)) as [_ | N]; [| done].
    rewrite Hc. reflexivity.
  - intros Hi c Hc. unfold SwaggerGen.Filter. rewrite Hi.
    destruct (decide (Types.Type_Kind t = Types.DeclarationOf)) as [_ | N]; [| done].
    rewrite Hc. cbn. reflexivity.
  - intros c Hc Hnil. rewrite Hgen.
    unfold generateDeclarationCode. rewrite Hc.
    unfold config_generate, config_newParameter, config_newResponse.
    unfold lift, mbind, M_bind. cbn beta iota.
    destruct (c_Param c) as [cp |], (c_Response c) as [cs |];
      try (by destruct Hnil); reflexivity.
  - intros Hc. rewrite Hgen. unfold generateDeclarationCode. rewrite Hc. reflexivity.
  - intros e Hc. rewrite Hgen. unfold generateDeclarationCode. rewrite Hc. reflexivity.
Qed.

(** X22: a model that passes [Filter] has its manager type in the table of
    the generator and its manager in the registry, so [GenerateType] finds
    both and runs [generateCode] with them; and [Filter] never fails on a
    type that is no declaration. *)
Theorem Filter_model_generates {G} (atoi : string -> option Z)
    (globalManagers : registry) (g : swaggerGen) (o : rangeOrders) (t : Types.Type_) :
  Types.Type_Kind t <> Types.DeclarationOf ->
  (exists b, SwaggerGen.Filter atoi globalManagers g t = inr b) /\
  (SwaggerGen.Filter atoi globalManagers g t = inr true ->
   includeIgnoreTag t = false /\
   Sets.Has (sg_modelTypes g) (Types.Type_String t) = true /\
   exists manType manIns,
     getModelManager g t = Some manType /\
     GetModelManager globalManagers (Types.Name_Name (Types.Type_Name manType))
       = Some manIns /\
     forall st : G * SnippetWriter,
       SwaggerGen.GenerateType atoi globalManagers g o t st
       = generateCode o (man_instance manIns) manType t st).
Proof.
  intros Hk. unfold SwaggerGen.Filter.
  destruct (includeIgnoreTag t); [split; [by eexists | done] |].
  destruct (decide (Types.Type_Kind t = Types.DeclarationOf)) as [E | _]; [done |].
  cbn. split; [destruct (_ && _); by eexists |].
  destruct (Sets.Has (sg_modelTypes g) (Types.Type_String t)) eqn:Hhas; [| done].
  cbn [andb]. unfold isModelManagerRegistered.
  destruct (getModelManager g t) as [manType |] eqn:Hman; [| done].
  destruct (GetModelManagerByType globalManagers (Some manType)) as [manIns |] eqn:Hins;
    [| done].
  intros _. split; [done |]. split; [done |]. exists manType, manIns.
  split; [done |]. split; [exact Hins |].
  intros st. unfold SwaggerGen.GenerateType, swaggerGen_generateCode,
    getModelManagerInstance.
  destruct (decide (Types.Type_Kind t = Types.DeclarationOf)) as [E | _]; [done |].
  by rewrite Hman, Hins.
Qed.

(** [RegisterModelManager] is an insertion under the type name. *)
Lemma RegisterModelManager_insert (man : registered) (gm : registry) :
  RegisterModelManager man gm
  = Some (<[ managerTypeName man := man ]> (default ∅ gm)).
Proof.
  unfold RegisterModelManager, managerTypeName. by destruct gm, (man_type man).
Qed.

(** X23: a registered manager is found again under the name of its type,
    the pointer taken off once: the name itself for a named type and for a
    pointer to one, the empty name for a pointer to a pointer.  Registering
    leaves every other name as it was, and replaces a manager registered
    before under the same name. *)
Theorem registry_round_trip (man : registered) (gm : registry) :
  GetModelManager (RegisterModelManager man gm) (managerTypeName man) = Some man /\
  (forall k, k <> managerTypeName man ->
     GetModelManager (RegisterModelManager man gm) k = GetModelManager gm k) /\
  (forall t, Types.Name_Name (Types.Type_Name t) = managerTypeName man ->
     GetModelManagerByType (RegisterModelManager man gm) (Some t) = Some man) /\
  GetModelManagerByType (RegisterModelManager man gm) None = None /\
  (forall n, man_type man = RNamed n \/ man_type man = RPtr (RNamed n) ->
     managerTypeName man = n) /\
  (forall e, man_type man = RPtr (RPtr e) -> managerTypeName man = "").
Proof.
  rewrite RegisterModelManager_insert. unfold GetModelManagerByType, GetModelManager.
  split; [apply lookup_insert_eq |]. split; [| split; [| split; [| split]]].
  - intros k Hk. rewrite lookup_insert_ne by done. by destruct gm.
  - intros t ->. apply lookup_insert_eq.
  - reflexivity.
  - unfold managerTypeName. by intros n [-> | ->].
  - unfold managerTypeName. by intros e ->.
Qed.

(** The registry after the loop of [init], as one map. *)
Lemma registerAll_cons (man : registered) (mans : list registered) (gm : registry) :
  registerAll (man :: mans) gm = registerAll mans (RegisterModelManager man gm).
Proof. reflexivity. Qed.

Lemma registerAll_swap (x y : registered) (gm : registry) :
  managerTypeName x <> managerTypeName y ->
  RegisterModelManager y (RegisterModelManager x gm)
  = RegisterModelManager x (RegisterModelManager y gm).
Proof.
  intros Hne. rewrite !RegisterModelManager_insert. cbn [default].
  f_equal. by apply insert_insert_ne.
Qed.

(** X24: the loop of [init] registers the managers of a table in the order
    of a range over a map.  When no two managers have the same type name
    the registry it builds is the same under every order, and every manager
    of the table is found under its name. *)
Theorem registerAll_order (mans1 mans2 : list registered) (gm : registry) :
  mans1 ≡ₚ mans2 ->
  NoDup (map managerTypeName mans1) ->
  registerAll mans1 gm = registerAll mans2 gm /\
  forall man, man ∈ mans1 ->
    GetModelManager (registerAll mans2 gm) (managerTypeName man) = Some man.
Proof.
  intros Hperm Hnd.
  assert (Heq : registerAll mans1 gm = registerAll mans2 gm).
  { revert gm Hnd. induction Hperm as [| x l l' Hp IH | x y l | l l' l'' Hp1 IH1 Hp2 IH2];
      intros gm Hnd.
    - reflexivity.
    - rewrite !registerAll_cons. apply IH. cbn in Hnd. by apply NoDup_cons_1_2 in Hnd.
    - rewrite !registerAll_cons. f_equal. apply registerAll_swap.
      cbn in Hnd. apply NoDup_cons_1_1 in Hnd. intros E. apply Hnd. rewrite E. left.
    - etrans; [by apply IH1 |]. apply IH2.
      assert (Hm : map managerTypeName l ≡ₚ map managerTypeName l')
        by (by apply Permutation_map).
      by rewrite <- Hm. }
  split; [exact Heq |]. rewrite <- Heq. clear Heq Hperm mans2.
  revert gm Hnd. induction mans1 as [| x mans IH]; intros gm Hnd man Hin.
  - by apply elem_of_nil in Hin.
  - rewrite registerAll_cons. cbn in Hnd.
    pose proof (NoDup_cons_1_1 _ _ Hnd) as Hx. pose proof (NoDup_cons_1_2 _ _ Hnd) as Hrest.
    apply elem_of_cons in Hin as [-> | Hin]; [| by apply IH].
    clear IH. revert gm Hx. clear Hnd Hrest.
    induction mans as [| y mans IH]; intros gm Hx.
    + unfold registerAll. cbn [foldl]. rewrite RegisterModelManager_insert.
      apply lookup_insert_eq.
    + rewrite registerAll_cons. rewrite registerAll_swap.
      * apply IH. intros Hin. apply Hx. by right.
      * intros E. apply Hx. rewrite E. left.
Qed.

End Declarations.

Section Classifier.
Context `{Externals}.

Import ApiGen.

(** One pair of sets is inside another. *)
Local Abbreviation within s s' := (s.1 ⊆ s'.1 /\ s.2 ⊆ s'.2).

Lemma within_refl (s : Sets2) : within s s.
Proof. done. Qed.

Lemma within_trans (s1 s2 s3 : Sets2) : within s1 s2 -> within s2 s3 -> within s1 s3.
Proof. intros [? ?] [? ?]. split; set_solver. Qed.

Lemma within_insertOut (names : list string) (s : Sets2) : within s (insertOut names s).
Proof. unfold insertOut, Sets.Insert. cbn. split; set_solver. Qed.

Lemma within_insertDepend (names : list string) (s : Sets2) :
  within s (insertDepend names s).
Proof. unfold insertDepend, Sets.Insert. cbn. split; set_solver. Qed.

Lemma insertOut_has (names : list string) (s : Sets2) (n : string) :
  n ∈ names -> n ∈ (insertOut names s).1.
Proof. unfold insertOut, Sets.Insert. cbn. set_solver. Qed.

Lemma insertDepend_has (names : list string) (s : Sets2) (n : string) :
  n ∈ names -> n ∈ (insertDepend names s).2.
Proof. unfold insertDepend, Sets.Insert. cbn. set_solver. Qed.

(** A call that only adds to the two sets. *)
Local Abbreviation grows rec :=
  (forall (t : Types.Type_) (s s' : Sets2), rec t s = Some (inr s') -> within s s').

Lemma addMember_grows (g : apiGen) (rec : Types.Type_ -> Sets2 -> option (Result Sets2))
    (m : Types.Member) (s s' : Sets2) :
  grows rec -> addMember g rec m s = Some (inr s') -> within s s'.
Proof.
  intros Hrec. unfold addMember.
  destruct (Types.Type_Kind (Types.Member_Type m)); try (by intros [= <-]).
  - destruct (isModelBase _); [by intros [= <-] |].
    destruct (negb _).
    + intros [= <-]. apply within_insertDepend.
    + intros Hr. apply Hrec in Hr. eapply within_trans; [apply within_insertOut | exact Hr].
  - destruct (Types.Type_Elem _) as [et |]; [| done].
    destruct (negb _).
    + intros [= <-]. apply within_insertDepend.
    + intros Hr. apply Hrec in Hr. eapply within_trans; [apply within_insertOut | exact Hr].
  - destruct (underlyingType _ ≫= getPrimitiveType) as [e | umt]; [done |].
    destruct (_ && _).
    + intros [= <-]. apply within_insertDepend.
    + intros Hr. apply Hrec in Hr. eapply within_trans; [apply within_insertOut | exact Hr].
Qed.

(** The loop over the members returns the sets of its last member; every
    member was classified on the way, from sets that held what was there
    at the start and into sets that are in the result. *)
Lemma addMembers_steps (g : apiGen) (rec : Types.Type_ -> Sets2 -> option (Result Sets2))
    (ms : list Types.Member) (s s' : Sets2) :
  grows rec -> addMembers g rec ms s = Some (inr s') ->
  within s s' /\
  forall m, m ∈ ms ->
    exists s0 s1, within s s0 /\ addMember g rec m s0 = Some (inr s1) /\ within s1 s'.
Proof.
  intros Hrec. revert s. induction ms as [| m ms IH]; intros s.
  - intros [= <-]. split; [done |]. intros m Hm. by apply elem_of_nil in Hm.
  - cbn [addMembers].
    destruct (addMember g rec m s) as [[e | s1] |] eqn:Hm; [done | | done].
    intros Hrest. destruct (IH _ Hrest) as [Hw Hall].
    pose proof (addMember_grows _ _ _ _ _ Hrec Hm) as Hw1.
    split; [by eapply within_trans |].
    intros m' Hin. apply elem_of_cons in Hin as [-> | Hin].
    + exists s, s1. done.
    + destruct (Hall m' Hin) as (s0 & s2 & Hw0 & Hm' & Hw2).
      exists s0, s2. split; [by eapply within_trans | done].
Qed.

Lemma addDependTypes_within (fuel : nat) (g : apiGen) :
  grows (addDependTypes fuel g).
Proof.
  induction fuel as [| fuel IH]; intros t s s'; [done |].
  cbn [addDependTypes].
  destruct (decide (Types.Type_Kind t = Types.Alias)) as [Ha | Ha].
  - destruct (underlyingType t ≫= getPrimitiveType) as [e | t']; cbn; [done |].
    intros Hr. apply addMembers_steps in Hr as [Hw _]; [| exact IH].
    eapply within_trans; [apply within_insertOut | exact Hw].
  - cbn. intros Hr. by apply addMembers_steps in Hr as [Hw _].
Qed.

(** X25: the classifier only adds.  When [addDependTypes] returns, the set
    of the models and the set of the types they depend on hold what they
    held before; for an alias the primitive type under it has been added to
    the models; and the same holds for [collectTypes], which also adds
    every struct of the source package that is tagged or is a resource
    model. *)
Theorem classifier_grows (fuel : nat) (isResourceModel : Types.Type_ -> bool -> bool)
    (g : apiGen) :
  (forall t s s', addDependTypes fuel g t s = Some (inr s') ->
     s.1 ⊆ s'.1 /\ s.2 ⊆ s'.2 /\
     (Types.Type_Kind t = Types.Alias ->
      exists t', underlyingType t ≫= getPrimitiveType = inr t' /\
                 Types.Type_String t' ∈ s'.1)) /\
  (forall pkgTypes s s',
     collectTypes fuel isResourceModel g pkgTypes s = Some (inr s') ->
     s.1 ⊆ s'.1 /\ s.2 ⊆ s'.2 /\
     forall t, t ∈ pkgTypes -> Types.Type_Kind t = Types.Struct ->
       inSourcePackage g t = true ->
       includeType t || isResourceModel t (isCommonDBPackage g) = true ->
       Types.Type_String t ∈ s'.1).
Proof.
  split.
  - intros t s s' Hr. destruct (addDependTypes_within _ _ _ _ _ Hr) as [H1 H2].
    split; [exact H1 |]. split; [exact H2 |]. intros Ha.
    destruct fuel as [| fuel]; [done |]. cbn [addDependTypes] in Hr.
    destruct (decide (Types.Type_Kind t = Types.Alias)) as [_ | N]; [| done].
    destruct (underlyingType t ≫= getPrimitiveType) as [e | t']; cbn in Hr; [done |].
    exists t'. split; [done |].
    apply addMembers_steps in Hr as [[Hw _] _]; [| apply addDependTypes_within].
    apply Hw. apply insertOut_has. left.
  - induction pkgTypes as [| t ts IH]; intros s s'.
    + intros [= <-]. split; [done |]. split; [done |].
      intros t Ht. by apply elem_of_nil in Ht.
    + cbn [collectTypes].
      destruct (collectType fuel isResourceModel g t s) as [[e | s1] |] eqn:Ht;
        [done | | done].
      intros Hrest. destruct (IH _ _ Hrest) as (H1 & H2 & Hall).
      assert (Hstep : within s s1 /\
                (Types.Type_Kind t = Types.Struct -> inSourcePackage g t = true ->
                 includeType t || isResourceModel t (isCommonDBPackage g) = true ->
                 Types.Type_String t ∈ s1.1)).
      { unfold collectType in Ht.
        destruct (bool_decide (Types.Type_Kind t = Types.Struct)) eqn:Hk; cbn [negb] in Ht.
        2:{ injection Ht as <-. split; [done |]. intros Hs.
            apply bool_decide_eq_false in Hk. done. }
        destruct (inSourcePackage g t); cbn [negb] in Ht.
        2:{ injection Ht as <-. split; [done |]. done. }
        destruct (includeType t || isResourceModel t (isCommonDBPackage g)).
        2:{ injection Ht as <-. split; [done |]. done. }
        apply addDependTypes_within in Ht. split.
        - eapply within_trans; [apply within_insertOut | exact Ht].
        - intros _ _ _. apply Ht. apply insertOut_has. left. }
      destruct Hstep as [[Hs1 Hs2] Hthis].
      split; [set_solver |]. split; [set_solver |].
      intros t0 Hin Hk Hsrc Hinc. apply elem_of_cons in Hin as [-> | Hin].
      * apply H1. by apply Hthis.
      * by apply Hall.
Qed.

(** X26: every member of a struct is classified.  When [addDependTypes]
    returns on a type that is no alias, then for each member: a struct
    other than the model base, and the element of a pointer, is among the
    models when it is in the source package and among the dependencies
    otherwise; an alias is among the dependencies when neither it nor the
    primitive type under it is in the source package, and otherwise both
    names are among the models, in or out of the source package. *)
Theorem addDependTypes_classifies (fuel : nat) (g : apiGen) (t : Types.Type_)
    (s s' : Sets2) (m : Types.Member) :
  addDependTypes fuel g t s = Some (inr s') ->
  Types.Type_Kind t <> Types.Alias ->
  m ∈ Types.Type_Members t ->
  let mt := Types.Member_Type m in
  (Types.Type_Kind mt = Types.Struct -> isModelBase mt = false ->
   if inSourcePackage g mt then Types.Type_String mt ∈ s'.1
   else Types.Type_String mt ∈ s'.2) /\
  (Types.Type_Kind mt = Types.Pointer ->
   exists et, Types.Type_Elem mt = Some et /\
     if inSourcePackage g et then Types.Type_String et ∈ s'.1
     else Types.Type_String et ∈ s'.2) /\
  (Types.Type_Kind mt = Types.Alias ->
   exists umt, underlyingType mt ≫= getPrimitiveType = inr umt /\
     if negb (inSourcePackage g mt) && negb (inSourcePackage g umt)
     then Types.Type_String mt ∈ s'.2
     else Types.Type_String mt ∈ s'.1 /\ Types.Type_String umt ∈ s'.1).
Proof.
  intros Hr Hk Hin mt.
  destruct fuel as [| fuel]; [done |]. cbn [addDependTypes] in Hr.
  destruct (decide (Types.Type_Kind t = Types.Alias)) as [E | _]; [done |]. cbn in Hr.
  apply addMembers_steps in Hr as [_ Hall]; [| apply addDependTypes_within].
  destruct (Hall m Hin) as (s0 & s1 & _ & Hm & [Hw1 Hw2]). clear Hall.
  unfold addMember in Hm. fold mt in Hm.
  split; [| split]; intros Hkm; rewrite Hkm in Hm.
  - intros Hb. rewrite Hb in Hm.
    destruct (inSourcePackage g mt); cbn [negb] in Hm.
    + apply addDependTypes_within in Hm as [Hm _].
      apply Hw1, Hm, insertOut_has. left.
    + injection Hm as <-. apply Hw2, insertDepend_has. left.
  - destruct (Types.Type_Elem mt) as [et |]; [| done]. exists et. split; [done |].
    destruct (inSourcePackage g et); cbn [negb] in Hm.
    + apply addDependTypes_within in Hm as [Hm _].
      apply Hw1, Hm, insertOut_has. left.
    + injection Hm as <-. apply Hw2, insertDepend_has. left.
  - destruct (underlyingType mt ≫= getPrimitiveType) as [e | umt]; [done |].
    exists umt. split; [done |].
    destruct (negb (inSourcePackage g mt) && negb (inSourcePackage g umt)).
    + injection Hm as <-. apply Hw2, insertDepend_has. left.
    + apply addDependTypes_within in Hm as [Hm _].
      split; apply Hw1, Hm, insertOut_has; [left | right; left].
Qed.

(** The depth of a type, unfolded once. *)
Lemma depth_eq (t : Types.Type_) :
  depth t =
    S (max (foldr (fun m d => max (depth (Types.Member_Type m)) d) 0 (Types.Type_Members t))
           (max (from_option depth 0 (Types.Type_Elem t))
                (from_option depth 0 (Types.Type_Underlying t)))).
Proof. by destruct t. Qed.

Lemma depth_member (t : Types.Type_) (m : Types.Member) :
  m ∈ Types.Type_Members t -> depth (Types.Member_Type m) < depth t.
Proof.
  intros Hin. rewrite (depth_eq t).
  assert (Hle : depth (Types.Member_Type m)
                <= foldr (fun m d => max (depth (Types.Member_Type m)) d) 0
                         (Types.Type_Members t)).
  { induction (Types.Type_Members t) as [| m' ms IH]; [by apply elem_of_nil in Hin |].
    cbn [foldr]. apply elem_of_cons in Hin as [-> | Hin]; [lia |].
    specialize (IH Hin). lia. }
  lia.
Qed.

Lemma depth_elem (t e : Types.Type_) : Types.Type_Elem t = Some e -> depth e < depth t.
Proof. intros He. rewrite (depth_eq t), He. cbn. lia. Qed.

Lemma depth_underlying (t u : Types.Type_) :
  Types.Type_Underlying t = Some u -> depth u < depth t.
Proof. intros Hu. rewrite (depth_eq t), Hu. cbn. lia. Qed.

Fixpoint depth_underlyingType (t u : Types.Type_) {struct t} :
  underlyingType t = inr u ->
  depth u <= depth t /\ (Types.Type_Kind t = Types.Alias -> depth u < depth t).
Proof.
  destruct t as [nm k cl scl ms e ky un mt sg].
  cbn [underlyingType Types.Type_Kind Types.Type_Underlying].
  destruct k; try (intros [= <-]; split; [lia | discriminate]).
  destruct un as [t' |]; [| discriminate].
  intros Hu. apply depth_underlyingType in Hu as [Hle _].
  assert (Hlt : depth t' < depth (Types.mkType nm Types.Alias cl scl ms e ky (Some t') mt sg))
    by (by apply depth_underlying).
  split; [lia | intros _; lia].
Qed.

Fixpoint depth_getPrimitiveType (t r : Types.Type_) {struct t} :
  getPrimitiveType t = inr r -> depth r <= depth t.
Proof.
  destruct t as [nm k cl scl ms e ky un mt sg].
  cbn [getPrimitiveType Types.Type_Kind Types.Type_Elem].
  destruct (negb _); [intros [= <-]; lia |].
  destruct e as [t' |]; [| discriminate].
  intros Hr. apply depth_getPrimitiveType in Hr.
  assert (Hlt : depth t' < depth (Types.mkType nm k cl scl ms (Some t') ky un mt sg))
    by (by apply depth_elem).
  lia.
Qed.

Lemma depth_primitive (t r : Types.Type_) :
  underlyingType t ≫= getPrimitiveType = inr r ->
  depth r <= depth t /\ (Types.Type_Kind t = Types.Alias -> depth r < depth t).
Proof.
  destruct (underlyingType t) as [e | u] eqn:Hu; cbn; [done |].
  intros Hr. apply depth_getPrimitiveType in Hr.
  apply depth_underlyingType in Hu as [Hle Hlt]. split; [lia |].
  intros Ha. specialize (Hlt Ha). lia.
Qed.

Lemma addMembers_returns (g : apiGen) (rec : Types.Type_ -> Sets2 -> option (Result Sets2))
    (n : nat) (ms : list Types.Member) (s : Sets2) :
  (forall t s, depth t <= n -> is_Some (rec t s)) ->
  (forall m, m ∈ ms -> depth (Types.Member_Type m) <= n) ->
  is_Some (addMembers g rec ms s).
Proof.
  intros Hrec. revert s. induction ms as [| m ms IH]; intros s Hms; [by eexists |].
  cbn [addMembers].
  assert (Hm : is_Some (addMember g rec m s)).
  { pose proof (Hms m ltac:(left)) as Hd. unfold addMember.
    destruct (Types.Type_Kind (Types.Member_Type m)) eqn:Hk; try (by eexists).
    - destruct (isModelBase _); [by eexists |].
      destruct (negb _); [by eexists | by apply Hrec].
    - destruct (Types.Type_Elem _) as [et |] eqn:He; [| by eexists].
      destruct (negb _); [by eexists |]. apply Hrec.
      apply depth_elem in He. lia.
    - destruct (underlyingType _ ≫= getPrimitiveType) as [e | umt] eqn:Hu; [by eexists |].
      destruct (_ && _); [by eexists |]. apply Hrec.
      apply depth_primitive in Hu as [Hle _]. lia. }
  destruct Hm as [[e | s1] Hm]; rewrite Hm; [by eexists |].
  apply IH. intros m' Hin. apply Hms. by right.
Qed.

Lemma addMembers_more (g : apiGen)
    (rec rec' : Types.Type_ -> Sets2 -> option (Result Sets2))
    (ms : list Types.Member) (s : Sets2) (r : Result Sets2) :
  (forall t s r, rec t s = Some r -> rec' t s = Some r) ->
  addMembers g rec ms s = Some r -> addMembers g rec' ms s = Some r.
Proof.
  intros Hrec. revert s. induction ms as [| m ms IH]; intros s; [done |].
  cbn [addMembers].
  assert (Hm : forall r0, addMember g rec m s = Some r0 -> addMember g rec' m s = Some r0).
  { intros r0. unfold addMember.
    destruct (Types.Type_Kind (Types.Member_Type m)); try done.
    - destruct (isModelBase _); [done |]. destruct (negb _); [done | apply Hrec].
    - destruct (Types.Type_Elem _); [| done]. destruct (negb _); [done | apply Hrec].
    - destruct (underlyingType _ ≫= getPrimitiveType); [done |].
      destruct (_ && _); [done | apply Hrec]. }
  destruct (addMember g rec m s) as [[e | s1] |]; [| | done].
  - intros [= <-]. by rewrite (Hm (inl e)).
  - rewrite (Hm (inr s1)) by done. apply IH.
Qed.


End Classifier.

(** * Runs of the further properties *)

Section ProjectorEdgeRuns.

Import ApiGen Examples.
#[local] Existing Instance Reference.externals.

(** The projection of [SLabelled], which has a map member, is fatal. *)
Lemma generateFor_unsupported_aborts_witness :
  mLabels ∈ Types.Type_Members tSLabelled /\
  isModelBase (Types.Member_Type mLabels) = false /\
  generateMember tSLabelled mLabels (gen, []) =
    inl (Fatalf "Hit an unsupported type %v.%s, kind is %s"
                [Types.Type_String tSLabelled; "map[string]string"; "Map"]) /\
  is_fatal (generateFor tSLabelled (gen, [])).
Proof.
  assert (Hin : mLabels ∈ Types.Type_Members tSLabelled) by (right; left).
  assert (Hk : let k := Types.Type_Kind (Types.Member_Type mLabels) in
               (k <> Types.Builtin /\ k <> Types.Struct /\ k <> Types.Interface /\
                k <> Types.Alias /\ k <> Types.Pointer /\ k <> Types.Slice) \/
               (k = Types.Interface /\ Types.Member_Embedded mLabels = true)).
  { left. repeat split; discriminate. }
  destruct (generateFor_unsupported_aborts tSLabelled mLabels gen [] Hin eq_refl Hk)
    as (Hm & _ & Hf).
  split; [exact Hin |]. split; [reflexivity |]. split; [exact (Hm (gen, [])) |].
  apply Hf. repeat (apply List.Forall_cons; [reflexivity |]). apply List.Forall_nil.
Defined.

(** The projection of [SSnapshot]: four fields for five members. *)
Lemma generateFor_success_witness :
  exists (g' : apiGen) (sw' : SnippetWriter),
    generateFor tSSnapshot (gen, []) = inr (tt, (g', sw')) /\
    length sw' = 4 /\ sourcePackage g' = modelsPkg.
Proof.
  destruct (generateFor tSSnapshot (gen, [])) as [e | [[] [g' sw']]] eqn:Hrun.
  - exfalso. vm_compute in Hrun. discriminate Hrun.
  - exists g', sw'. split; [reflexivity |].
    destruct (generateFor_success tSSnapshot gen g' [] sw' Hrun)
      as ((out & Hout & Hlen) & _ & Hsrc & _).
    split; [| exact Hsrc]. rewrite Hout. exact Hlen.
Defined.

(** The classification of the members of [SSnapshot]: the disk is a model
    of the package, the time a dependency. *)
Lemma addDependTypes_classifies_witness :
  exists s' : Sets2,
    addDependTypes 3 gen tSSnapshot (∅, ∅) = Some (inr s') /\
    Types.Type_String tSDisk ∈ s'.1 /\ Types.Type_String tTime ∈ s'.2.
Proof.
  destruct (addDependTypes 3 gen tSSnapshot (∅, ∅)) as [[e | s'] |] eqn:Hrun.
  - exfalso. vm_compute in Hrun. discriminate Hrun.
  - exists s'. split; [reflexivity |].
    assert (Hk : Types.Type_Kind tSSnapshot <> Types.Alias) by discriminate.
    split.
    + assert (Hin : mDisk ∈ Types.Type_Members tSSnapshot) by (right; right; left).
      destruct (proj1 (proj2 (addDependTypes_classifies 3 gen tSSnapshot (∅, ∅) s' mDisk
                                Hrun Hk Hin)) eq_refl) as (et & He & Hc).
      cbn in He. injection He as <-. exact Hc.
    + assert (Hin : mExpiredAt ∈ Types.Type_Members tSSnapshot)
        by (right; right; right; left).
      destruct (proj1 (proj2 (addDependTypes_classifies 3 gen tSSnapshot (∅, ∅) s'
                                mExpiredAt Hrun Hk Hin)) eq_refl) as (et & He & Hc).
      cbn in He. injection He as <-. exact Hc.
  - exfalso. vm_compute in Hrun. discriminate Hrun.
Defined.

End ProjectorEdgeRuns.

Section SwaggerRuns.

Import SwaggerGen Examples.
#[local] Existing Instance Reference.externals.

(** The Perform methods of the model under the two orders of the range. *)
Lemma getTypeMethods_order_witness :
  range_order (Types.Type_Methods tModel) order1 /\
  range_order (Types.Type_Methods tModel) order2 /\
  getTypeMethods order1 Perform "server" "servers" tModel (Some performActionPred)
    = inr [mStart; mStop] /\
  getTypeMethods order2 Perform "server" "servers" tModel (Some performActionPred)
    = inr [mStop; mStart] /\
  [mStart; mStop] ≡ₚ [mStop; mStart].
Proof.
  split; [exact range_order_model1 |]. split; [exact range_order_model2 |].
  split; [reflexivity |]. split; [reflexivity |].
  exact (proj1 (proj2 (getTypeMethods_order Perform "server" "servers" tModel
                         performActionPred order1 order2
                         range_order_model1 range_order_model2)
                      [mStart; mStop] [mStop; mStart] eq_refl eq_refl)).
Defined.

(** Every method of an example table has a signature. *)
Lemma signatures_of (order : list (string * Types.Type_)) (t : Types.Type_) :
  range_order (Types.Type_Methods t) order ->
  Forall (fun nm => is_Some (Types.Type_Signature nm.2)) order ->
  forall nm m, Types.Type_Methods t !! nm = Some m -> is_Some (Types.Type_Signature m).
Proof.
  intros Hord Hall nm m Hm. apply elem_of_map_to_list in Hm.
  unfold range_order in Hord. rewrite <- Hord in Hm.
  rewrite Forall_forall in Hall. exact (Hall (nm, m) Hm).
Qed.

(** The run of [generateCode] on the server model and its manager. *)
Lemma generateCode_returns_witness :
  legal_orders tManager tModel (orders order1) /\
  exists out : SnippetWriter,
    generateCode (G := unit) (orders order1) manIns tManager tModel (tt, [])
    = inr (tt, (tt, out)).
Proof.
  assert (Hlegal : legal_orders tManager tModel (orders order1)).
  { pose proof range_order_manager. pose proof range_order_model1.
    unfold legal_orders. cbn. tauto. }
  split; [exact Hlegal |].
  assert (Hman : forall nm m, Types.Type_Methods tManager !! nm = Some m ->
                              is_Some (Types.Type_Signature m)).
  { apply (signatures_of orderM); [exact range_order_manager |].
    repeat (apply List.Forall_cons; [by eexists |]). apply List.Forall_nil. }
  assert (Hmodel : forall nm m, Types.Type_Methods tModel !! nm = Some m ->
                                is_Some (Types.Type_Signature m)).
  { apply (signatures_of order1); [exact range_order_model1 |].
    repeat (apply List.Forall_cons; [by eexists |]). apply List.Forall_nil. }
  destruct (generateCode_returns (G := unit) (orders order1) manIns tManager tModel
              Hlegal Hman Hmodel tt []) as [out Hout].
  exists out. exact Hout.
Defined.

(** The result of [PerformStart] is no struct pointer: the response records
    it, and the route shows it. *)
Lemma resultByMethod_diagnostics_witness :
  Method_Resutls mStart 0 = inr tJSONObject /\
  isStructPointer tJSONObject = false /\
  exists r : response,
    resultByMethod mStart mStart 0 "server" false = inr r /\
    output r = None /\
    r_errorMsgs r = ["unsupport type yunion.io/x/jsonutils.JSONObject"] /\
    summary (newRoute mStart "POST" (factory_newParameter mStart) r)
      = "input or output error exists".
Proof.
  split; [reflexivity |]. split; [reflexivity |].
  destruct (resultByMethod_diagnostics mStart mStart 0 "server" false tJSONObject eq_refl)
    as (r & Hr & _ & _ & _ & _ & Hbad & Hroute).
  exists r. split; [exact Hr |].
  destruct (Hbad eq_refl) as [Ho He]. split; [exact Ho |]. split; [exact He |].
  exact (proj1 (Hroute eq_refl eq_refl "POST" (factory_newParameter mStart))).
Defined.

(** What is written for the route of [GetExtraDetails]. *)
Lemma route_Do_writes_witness :
  r_response (route_Get mGet (factory_newParameter mGet) (newResponse mGet))
    = {[ 200%Z := newResponse mGet ]} /\
  written (route_Do (G := unit)
             (route_Get mGet (factory_newParameter mGet) (newResponse mGet)) (tt, []))
  = Some ["// swagger:route GET /servers/{id} server server_GetExtraDetails
";
          "//
"; "// get the details of a server
"; "//
";
          "// get the details of a server
"; "//
"; "// responses:
";
          "// 200: server_GetExtraDetailsOutput
"; "
"].
Proof.
  assert (Hresp : r_response (route_Get mGet (factory_newParameter mGet) (newResponse mGet))
                  = {[ 200%Z := newResponse mGet ]}) by reflexivity.
  split; [exact Hresp |].
  exact (eq_trans (f_equal written
                     (route_Do_writes (G := unit) _ (newResponse mGet) tt [] Hresp))
                  eq_refl).
Defined.

(** The parameter of an update whose body is [*jsonutils.JSONDict]: the
    body block is written with the nil type. *)
Lemma invalid_types_written_witness :
  exists p : parameter,
    param_Update mUpdateJSON = inr p /\
    body p = Some tJSONDict /\ parameter_getBody p = None /\ withId p = true /\
    parameter_do (G := unit) p (tt, []) =
      inr (tt, (tt,
        [("type server_ValidateUpdateData struct {
", NoArgs);
         ("// The Id or Name of server
", NoArgs);
         ("// in:path
", NoArgs);
         ("// required:true
", NoArgs);
         ("Id string " +:+ json_tag_nl "id", NoArgs);
         ("// in:body
", NoArgs);
         ("Body struct {", NoArgs);
         ("Input $.type|raw$ " +:+ json_tag_nl "server", TypeArg None);
         ("} " +:+ Strings.bquote +:+ "json:" +:+ Strings.dquote +:+ "body"
          +:+ Strings.dquote +:+ Strings.bquote, NoArgs);
         ("}
", NoArgs)])).
Proof.
  destruct (param_Update mUpdateJSON) as [e | p] eqn:Hp.
  - exfalso. vm_compute in Hp. discriminate Hp.
  - exists p. split; [reflexivity |].
    vm_compute in Hp. injection Hp as <-.
    split; [reflexivity |]. split; [reflexivity |]. split; [reflexivity |].
    match goal with
    | |- parameter_do ?p0 _ = _ =>
        exact (eq_trans (proj1 (invalid_types_written (G := unit) tt []) p0 tJSONDict
                           eq_refl eq_refl) eq_refl)
    end.
Defined.

(** A valid input with an invalid output, under the two orders. *)
Lemma validInputOutput_order_witness :
  range_order (inputOutputMap (Some tServerCreateInput) (Some tJSONObject))
              [("input", Some tServerCreateInput); ("output", Some tJSONObject)] /\
  range_order (inputOutputMap (Some tServerCreateInput) (Some tJSONObject))
              [("output", Some tJSONObject); ("input", Some tServerCreateInput)] /\
  isValidType (Some tServerCreateInput) = None /\
  validInputOutput [("input", Some tServerCreateInput); ("output", Some tJSONObject)]
  = validInputOutput [("output", Some tJSONObject); ("input", Some tServerCreateInput)].
Proof.
  assert (H1 : range_order (inputOutputMap (Some tServerCreateInput) (Some tJSONObject))
                 [("input", Some tServerCreateInput); ("output", Some tJSONObject)]).
  { unfold range_order, inputOutputMap.
    rewrite map_to_list_insert by done. by rewrite map_to_list_singleton. }
  assert (H2 : range_order (inputOutputMap (Some tServerCreateInput) (Some tJSONObject))
                 [("output", Some tJSONObject); ("input", Some tServerCreateInput)]).
  { unfold range_order in *. rewrite <- H1. apply perm_swap. }
  split; [exact H1 |]. split; [exact H2 |]. split; [reflexivity |].
  exact (proj2 (validInputOutput_order _ _ _ _ H1 H2) (or_introl eq_refl)).
Defined.

(** The handler [GetVnc] has the route tags only: it passes the filter and
    its generation panics.  With a negative response index the filter
    itself panics. *)
Lemma declaration_nil_config_panics_witness :
  Types.Type_Kind dGetVnc = Types.DeclarationOf /\
  includeIgnoreTag dGetVnc = false /\
  SwaggerGen.Filter Reference.atoi managers sgen dGetVnc = inr true /\
  SwaggerGen.GenerateType (G := unit) Reference.atoi managers sgen (orders order1)
    dGetVnc (tt, []) = inl (Panic "nil pointer dereference") /\
  SwaggerGen.Filter Reference.atoi managers sgen dGetVncNegative
    = inl (Panic "index out of range").
Proof.
  split; [reflexivity |].
  assert (Hi : includeIgnoreTag dGetVnc = false) by (vm_compute; reflexivity).
  split; [exact Hi |].
  assert (Hc : getFunctionHasSwaggerConfig Reference.atoi dGetVnc
               = inr (Some {| c_Route := {| cr_Method := "GET";
                                             cr_Path := "/servers/{id}/vnc";
                                             cr_Tags := ["server"] |};
                              c_Param := None; c_Response := None |}))
    by (vm_compute; reflexivity).
  destruct (declaration_nil_config_panics (G := unit) Reference.atoi managers sgen
              (orders order1) dGetVnc (tt, []) eq_refl) as (_ & _ & _ & Hpass & Hnil & _).
  split; [exact (Hpass Hi _ Hc) |]. split; [exact (Hnil _ Hc (or_introl eq_refl)) |].
  assert (Hi' : includeIgnoreTag dGetVncNegative = false) by (vm_compute; reflexivity).
  assert (Hc' : getFunctionHasSwaggerConfig Reference.atoi dGetVncNegative
                = inl (Panic "index out of range")) by (vm_compute; reflexivity).
  destruct (declaration_nil_config_panics (G := unit) Reference.atoi managers sgen
              (orders order1) dGetVncNegative (tt, []) eq_refl) as (_ & _ & Hfail & _).
  exact (Hfail Hi' _ Hc').
Defined.

(** The server model passes the filter, and its generation runs
    [generateCode] with the manager the registry holds. *)
Lemma Filter_model_generates_witness :
  Types.Type_Kind tModel <> Types.DeclarationOf /\
  SwaggerGen.Filter Reference.atoi managers sgen tModel = inr true /\
  exists manType manIns0,
    getModelManager sgen tModel = Some manType /\
    forall st : unit * SnippetWriter,
      SwaggerGen.GenerateType Reference.atoi managers sgen (orders order1) tModel st
      = generateCode (orders order1) (man_instance manIns0) manType tModel st.
Proof.
  assert (Hk : Types.Type_Kind tModel <> Types.DeclarationOf) by discriminate.
  assert (Hf : SwaggerGen.Filter Reference.atoi managers sgen tModel = inr true)
    by (vm_compute; reflexivity).
  split; [exact Hk |]. split; [exact Hf |].
  destruct (proj2 (Filter_model_generates (G := unit) Reference.atoi managers sgen
                     (orders order1) tModel Hk) Hf)
    as (_ & _ & manType & manIns0 & Hman & _ & Hgen).
  exists manType, manIns0. split; [exact Hman | exact Hgen].
Defined.

(** Two managers registered in either order. *)
Lemma registerAll_order_witness :
  [guestManager; diskManager] ≡ₚ [diskManager; guestManager] /\
  NoDup (map managerTypeName [guestManager; diskManager]) /\
  registerAll [guestManager; diskManager] None
  = registerAll [diskManager; guestManager] None /\
  GetModelManager (registerAll [diskManager; guestManager] None) "SGuestManager"
  = Some guestManager.
Proof.
  assert (Hp : [guestManager; diskManager] ≡ₚ [diskManager; guestManager])
    by apply perm_swap.
  assert (Hnd : NoDup (map managerTypeName [guestManager; diskManager])).
  { apply (bool_decide_unpack _). vm_compute. exact I. }
  split; [exact Hp |]. split; [exact Hnd |].
  destruct (registerAll_order _ _ None Hp Hnd) as [Heq Hget].
  split; [exact Heq |]. apply (Hget guestManager). left.
Defined.

End SwaggerRuns.

Section DeclaredRoutes.
Context `{Externals}.

Import SwaggerGen.

Local Abbreviation writes c :=
  (forall g sw, exists a out, c (g, sw) = inr (a, (g, (sw ++ out)%list))).

(** A computation that writes [h] first. *)
Local Abbreviation starts c h :=
  (forall g sw, exists a rest, c (g, sw) = inr (a, (g, (sw ++ h :: rest)%list))).

Lemma starts_sw_Do {G A} (format : string) (args : Args)
    (k : unit -> M (G * SnippetWriter) A) :
  writes (k tt) -> starts (sw_Do format args ≫= k) (format, args).
Proof.
  intros Hk g sw. destruct (Hk g (sw ++ [(format, args)])%list) as (a & out & E).
  exists a, out. unfold mbind, M_bind, sw_Do, modify. cbn [fst snd].
  etrans; [exact E |]. by rewrite <- app_assoc.
Qed.

Lemma starts_bind {G A B} (c : M (G * SnippetWriter) A)
    (k : A -> M (G * SnippetWriter) B) (h : string * Args) :
  starts c h -> (forall a, writes (k a)) -> starts (c ≫= k) h.
Proof.
  intros Hc Hk g sw. destruct (Hc g sw) as (a & rest & Ea).
  destruct (Hk a g (sw ++ h :: rest)%list) as (b & out & Eb).
  exists b, (rest ++ out)%list. unfold mbind, M_bind. rewrite Ea. cbn.
  etrans; [exact Eb |]. by rewrite <- app_assoc.
Qed.

Ltac writes_all :=
  repeat first
    [ apply writes_sw_Do
    | apply writes_ret
    | apply writes_when
    | apply writes_forEach; intros ? _
    | apply writes_bind; [| intros ?]
    | match goal with
      | |- context [match ?x with Some _ => _ | None => _ end] => destruct x
      | |- context [if ?x then _ else _] => destruct x
      end ].

(** The first thing a commenter writes is the route line; the rest follows
    it and the generator is left as it was. *)
Lemma commenter_Do_head {G} (c : commenter) :
  starts (commenter_Do c : M (G * SnippetWriter) unit)
    ("// swagger:route " +:+ action (c_route c) +:+ " " +:+ path (c_route c) +:+ " "
     +:+ Strings.Join (tags (c_route c)) " " +:+ " "
     +:+ operationId (r_parameter (c_route c)) +:+ "
", NoArgs).
Proof.
  unfold commenter_Do. apply starts_bind.
  - unfold route_Do. apply starts_sw_Do.
    unfold line, lines, emptyLine. writes_all.
  - intros _. unfold parameter_Do, parameter_do, response_Do, bodyStruct, line, lines.
    writes_all.
Qed.

(** X28: a declaration whose configuration has a parameter and a response.
    The route of the configuration is read from the three route tags: the
    first value of the method tag, the first value of the path tag and all
    values of the tag tag.  [GenerateType] returns, leaves the generator as
    it was, and the first line it writes is the route line with this method,
    path and tags and with the operation id made of the base of the package
    and the name of the declaration. *)
Theorem declaration_generates {G} (atoi : string -> option Z)
    (globalManagers : registry) (sg : swaggerGen) (o : rangeOrders)
    (t : Types.Type_) (c : SwaggerConfig) (g : G) (sw : SnippetWriter) :
  Types.Type_Kind t = Types.DeclarationOf ->
  getFunctionHasSwaggerConfig atoi t = inr (Some c) ->
  is_Some (c_Param c) -> is_Some (c_Response c) ->
  (exists m ms p ps,
     extractTagByName (Types.Type_SecondClosestCommentLines t) tagRouteMethod = m :: ms /\
     extractTagByName (Types.Type_SecondClosestCommentLines t) tagRoutePath = p :: ps /\
     extractTagByName (Types.Type_SecondClosestCommentLines t) tagRouteTag
       = cr_Tags (c_Route c) /\
     cr_Method (c_Route c) = m /\ cr_Path (c_Route c) = p /\ cr_Tags (c_Route c) <> []) /\
  exists rest,
    SwaggerGen.GenerateType atoi globalManagers sg o t (g, sw) =
      inr (tt, (g, (sw ++
        ("// swagger:route " +:+ cr_Method (c_Route c) +:+ " " +:+ cr_Path (c_Route c)
         +:+ " " +:+ Strings.Join (cr_Tags (c_Route c)) " " +:+ " "
         +:+ privateName (filepath_Base (Types.Name_Package (Types.Type_Name t)))
                         (Types.Name_Name (Types.Type_Name t)) +:+ "
", NoArgs) :: rest)%list)).
Proof.
  intros Hk Hc [cp Hp] [cs Hs]. split.
  - unfold getFunctionHasSwaggerConfig in Hc.
    destruct (decide (Types.Type_Kind t <> Types.DeclarationOf)) as [N | _]; [done |].
    unfold extractSwaggerConfig, extractSwaggerRoute in Hc.
    destruct (extractTagByName _ tagRouteMethod) as [| m ms]; [done |].
    destruct (extractTagByName _ tagRoutePath) as [| p ps]; [done |].
    destruct (extractTagByName _ tagRouteTag) as [| tg tgs] eqn:Ht; [done |].
    destruct (extractSwaggerParam _ _ _) as [e | param]; [done |].
    destruct (extractSwaggerResponse _ _ _) as [e | resp]; [done |].
    cbn in Hc. injection Hc as <-. cbn [c_Route cr_Method cr_Path cr_Tags].
    exists m, ms, p, ps. done.
  - unfold SwaggerGen.GenerateType.
    destruct (decide (Types.Type_Kind t = Types.DeclarationOf)) as [_ | N]; [| done].
    unfold generateDeclarationCode. rewrite Hc.
    unfold lift at 1. unfold mbind at 1. unfold M_bind at 1. cbn beta iota.
    unfold config_generate, config_newParameter, config_newResponse. rewrite Hp, Hs.
    unfold lift, mbind at 1 2, M_bind at 1 2. cbn beta iota.
    match goal with
    | |- context [commenter_Do ?cm] =>
        destruct (commenter_Do_head (G := G) cm g sw) as ([] & rest & Hrun)
    end.
    exists rest. etrans; [exact Hrun |].
    match goal with
    | |- context [reviseDescription ?r0] =>
        destruct (reviseDescription_fields r0) as (Ha & Hpa & Hpar & Htg & _)
    end.
    cbn [c_route] in *. rewrite Ha, Hpa, Hpar, Htg.
    destruct (Types.Type_CommentLines t); reflexivity.
Qed.

(** X29: the loop that pairs the values of a path or header tag.  The keys
    of the map it builds are the values at the even places, besides the
    keys the map had; a key is bound to the value that follows it, or to
    itself when it is the last value. *)
Theorem pairUp_keys (vals : list string) (paths : gmap string string) (k : string) :
  (is_Some (pairUp vals paths !! k) <->
   is_Some (paths !! k) \/ exists i, Nat.even i = true /\ vals !! i = Some k) /\
  (forall v, pairUp vals paths !! k = Some v ->
     paths !! k = Some v \/
     exists i, Nat.even i = true /\ vals !! i = Some k /\
               (vals !! S i = Some v \/ (vals !! S i = None /\ v = k))).
Proof.
  revert vals paths.
  refine (fix rec (vals : list string) {struct vals} := _).
  intros paths. destruct vals as [| a [| b rest]].
  - cbn [pairUp]. split.
    + split; [by left |]. intros [Hs | (i & _ & Hi)]; [done | by destruct i].
    + intros v Hv. by left.
  - cbn [pairUp]. split.
    + destruct (decide (a = k)) as [-> | Hne].
      * rewrite lookup_insert_eq. split; [| by eexists].
        intros _. right. exists 0. done.
      * rewrite lookup_insert_ne by done. split; [by left |].
        intros [Hs | (i & _ & Hi)]; [done |].
        destruct i as [| i]; [by injection Hi | by destruct i].
    + intros v. destruct (decide (a = k)) as [-> | Hne].
      * rewrite lookup_insert_eq. intros [= <-]. right. exists 0.
        split; [done |]. split; [done |]. by right.
      * rewrite lookup_insert_ne by done. by left.
  - cbn [pairUp]. destruct (rec rest (<[ a := b ]> paths)) as [Hdom Hval]. split.
    + rewrite Hdom. split.
      * intros [Hs | (i & He & Hi)].
        -- destruct (decide (a = k)) as [-> | Hne].
           ++ right. exists 0. done.
           ++ rewrite lookup_insert_ne in Hs by done. by left.
        -- right. exists (S (S i)). done.
      * intros [Hs | (i & He & Hi)].
        -- left. destruct (decide (a = k)) as [-> | Hne].
           ++ rewrite lookup_insert_eq. by eexists.
           ++ by rewrite lookup_insert_ne.
        -- destruct i as [| [| i]].
           ++ injection Hi as ->. left. rewrite lookup_insert_eq. by eexists.
           ++ done.
           ++ right. exists i. done.
    + intros v Hv. apply Hval in Hv as [Hv | (i & He & Hi & Hnext)].
      * destruct (decide (a = k)) as [-> | Hne].
        -- rewrite lookup_insert_eq in Hv. injection Hv as <-. right. exists 0.
           split; [done |]. split; [done |]. by left.
        -- rewrite lookup_insert_ne in Hv by done. by left.
      * right. exists (S (S i)). done.
Qed.

End DeclaredRoutes.

Section DeclaredRouteRuns.

Import SwaggerGen Examples.
#[local] Existing Instance Reference.externals.

(** The handler [GetVnc] with its query and response tags. *)
Lemma declaration_generates_witness :
  Types.Type_Kind dGetVncFull = Types.DeclarationOf /\
  exists rest,
    SwaggerGen.GenerateType (G := unit) Reference.atoi managers sgen (orders order1)
      dGetVncFull (tt, []) =
      inr (tt, (tt, ("// swagger:route GET /servers/{id}/vnc server guesthandlers_GetVnc
", NoArgs) :: rest)).
Proof.
  split; [reflexivity |].
  assert (Hc : getFunctionHasSwaggerConfig Reference.atoi dGetVncFull
               = inr (Some {| c_Route := {| cr_Method := "GET";
                                             cr_Path := "/servers/{id}/vnc";
                                             cr_Tags := ["server"] |};
                              c_Param := Some {| cp_Body := None;
                                                 cp_Query := Some tJSONObject;
                                                 cp_Paths := None; cp_Key := "" |};
                              c_Response := Some {| cs_Output := Some tServerDetails;
                                                    cs_BodyKey := ""; cs_Headers := None;
                                                    cs_IsList := false;
                                                    cs_IsListOffset := false |} |}))
    by (vm_compute; reflexivity).
  destruct (declaration_generates (G := unit) Reference.atoi managers sgen (orders order1)
              dGetVncFull _ tt [] eq_refl Hc ltac:(by eexists) ltac:(by eexists))
    as [_ [rest Hrun]].
  exists rest. exact Hrun.
Defined.

End DeclaredRouteRuns.

(** * The routes of the matched methods *)

Section MatchedRoutes.
Context `{Externals}.

Import SwaggerGen.

(** A method the matcher returns was accepted by the predicate and carries
    the keywords of the parser. *)
Lemma getMethods_returned (p : typeParser) (order : list (string * Types.Type_))
    (kw : string) (t : Types.Type_) (predF : Method -> Result bool)
    (ms : list Method) (c : Method) :
  getMethods p order kw t (Some predF) = inr ms -> c ∈ ms ->
  predF c = inr true /\ resSingular c = singular p /\ resPlural c = plural p.
Proof.
  unfold getMethods. intros Hms Hc. apply getTypeMethods_returns in Hms. subst ms.
  apply list_elem_of_fmap in Hc as ([nm m] & -> & Hf).
  apply list_elem_of_filter in Hf as [Hk _]. unfold keeps in Hk. cbn [fst snd] in Hk.
  apply andb_true_iff in Hk as [_ Hk]. split; [| done].
  destruct (predF _) as [e | []]; done.
Qed.

Lemma getMethod_returned (p : typeParser) (order : list (string * Types.Type_))
    (kw : string) (t : Types.Type_) (predF : Method -> Result bool) (c : Method) :
  getMethod p order kw t (Some predF) = inr (Some c) ->
  predF c = inr true /\ resSingular c = singular p /\ resPlural c = plural p.
Proof.
  unfold getMethod.
  destruct (getMethods p order kw t (Some predF)) as [e | ms] eqn:Hms; cbn; [done |].
  intros [= Hc]. apply (getMethods_returned _ _ _ _ _ _ _ Hms).
  destruct ms; [done | injection Hc as ->; left].
Qed.

(** Every parameter factory names the operation after the resource and the
    method. *)
Lemma param_operationId (f : Method) (pp : parameter) :
  param_Create f = inr pp \/ param_List f = inr pp \/ param_Get f = inr pp \/
  param_Update f = inr pp \/ param_Delete f = inr pp \/ param_GetSpec f = inr pp \/
  param_PerformAction f = inr pp ->
  operationId pp = privateName (resSingular f) (name f).
Proof.
  unfold param_Create, param_List, param_Get, param_Update, param_Delete, param_GetSpec,
    param_PerformAction.
  intros Hp.
  repeat (destruct Hp as [Hp | Hp]);
    repeat match type of Hp with
           | context [Method_Params f ?i] =>
               destruct (Method_Params f i) as [? | ?]; cbn in Hp; [discriminate |]
           end;
    injection Hp as <-;
    repeat match goal with
           | |- context [if isStructPointer ?x then _ else _] => destruct (isStructPointer x)
           end;
    reflexivity.
Qed.

(** The fields of a route of a convention that the route line shows. *)
Lemma route_line_fields (f : Method) (act pth : string) (pp : parameter) (r : response) :
  action (set_path (newRoute f act pp r) pth) = act /\
  path (set_path (newRoute f act pp r) pth) = pth /\
  tags (set_path (newRoute f act pp r) pth) = [resSingular f] /\
  r_parameter (set_path (newRoute f act pp r) pth) = pp.
Proof.
  unfold set_path, newRoute. cbn [action path tags r_parameter].
  match goal with
  | |- context [reviseDescription ?r0] =>
      destruct (reviseDescription_fields r0) as (Ha & _ & Hpar & Ht & _)
  end.
  rewrite Ha, Hpar, Ht. done.
Qed.

Lemma lift_bind_run {S A B} (r : Result A) (a : A) (k : A -> M S B) (st : S) :
  r = inr a -> (lift r ≫= k) st = k a st.
Proof. by intros ->. Qed.

(** What a generator writes first, once its two factories have returned. *)
Lemma generate_route_line {G} (f : Method) (act pth : string) (pp : parameter)
    (r : response) (g : G) (sw : SnippetWriter) :
  operationId pp = privateName (resSingular f) (name f) ->
  exists rest,
    commenter_Do {| c_route := set_path (newRoute f act pp r) pth;
                    c_parameter := pp; c_response := r |} (g, sw) =
      inr (tt, (g, (sw ++
        ("// swagger:route " +:+ act +:+ " " +:+ pth +:+ " " +:+ resSingular f +:+ " "
         +:+ privateName (resSingular f) (name f) +:+ "
", NoArgs) :: rest)%list)).
Proof.
  intros Hop.
  destruct (commenter_Do_head (G := G)
              {| c_route := set_path (newRoute f act pp r) pth;
                 c_parameter := pp; c_response := r |} g sw) as ([] & rest & Hrun).
  exists rest. etrans; [exact Hrun |]. cbn [c_route].
  destruct (route_line_fields f act pth pp r) as (Ha & Hp & Ht & Hpar).
  rewrite Ha, Hp, Ht, Hpar, Hop. reflexivity.
Qed.

(** C7, as the code has it, for a resource with the plural keyword
    "servers".  A matched Get method yields a route with the path
    [/servers/{id}].  A matched Update or Delete method yields a route with
    the path [/servers/{id}], and a matched Create or List method a route
    with the path [/servers], when the model has a matched Get method as
    well; without one nothing is written for them.  A matched action method
    named [PerformReboot] yields a route with the path
    [/servers/{id}/reboot], the action being the method name without its
    prefix, re-cased by [CamelSplit].  The route is the first line the
    generator of the convention writes. *)
Theorem matched_routes {G} (p : typeParser) (g : G) (sw : SnippetWriter) :
  plural p = "servers" ->
  let yields (run : M (G * SnippetWriter) unit) (f : Method) (act pth : string) :=
    exists rest,
      run (g, sw) =
        inr (tt, (g, (sw ++
          ("// swagger:route " +:+ act +:+ " " +:+ pth +:+ " " +:+ resSingular f +:+ " "
           +:+ privateName (resSingular f) (name f) +:+ "
", NoArgs) :: rest)%list)) in
  (forall order f,
     getM p order = inr (Some f) ->
     yields (generateGet (Some f)) f "GET" "/servers/{id}") /\
  (forall order order' f gm,
     updateM p order = inr (Some f) -> getM p order' = inr (Some gm) ->
     yields (generateUpdate (Some f) (Some gm)) f "PUT" "/servers/{id}") /\
  (forall order order' f gm,
     deleteM p order = inr (Some f) -> getM p order' = inr (Some gm) ->
     yields (generateDelete (Some f) (Some gm)) f "DELETE" "/servers/{id}") /\
  (forall order order' f gm,
     createM p order = inr (Some f) -> getM p order' = inr (Some gm) ->
     yields (generateCreate (Some f) (Some gm)) f "POST" "/servers") /\
  (forall order order' f gm,
     listM p order = inr (Some f) -> getM p order' = inr (Some gm) ->
     yields (generateList (Some f) (Some gm)) f "GET" "/servers") /\
  (forall order ms f,
     performActionM p order = inr ms -> f ∈ ms ->
     name f = Perform +:+ "Reboot" -> CamelSplit "Reboot" "-" = "reboot" ->
     yields (generatePerformAction f) f "POST" "/servers/{id}/reboot") /\
  (forall (f : Method) (st : G * SnippetWriter),
     generateUpdate (Some f) None st = inr (tt, st) /\
     generateDelete (Some f) None st = inr (tt, st) /\
     generateCreate (Some f) None st = inr (tt, st) /\
     generateList (Some f) None st = inr (tt, st)).
Proof.
  intros Hpl yields. subst yields. cbn beta.
  assert (Hgm : forall order' gm, getM p order' = inr (Some gm) ->
            (exists pp, param_Get gm = inr pp) /\
            (exists r, FirstSingularResult gm = inr r) /\
            forall f, (exists r, ResultByGetMethod f gm = inr r) /\
                      (exists r, ListResult f gm = inr r)).
  { intros order' gm Hg. apply getMethod_returned in Hg as (Hpred & _).
    by apply getPred_in_range. }
  split; [| split; [| split; [| split; [| split; [| split]]]]].
  - intros order f Hf. destruct (Hgm _ _ Hf) as ([pp Hpp] & [r Hr] & _).
    apply getMethod_returned in Hf as (_ & _ & Hp). rewrite Hpl in Hp.
    destruct (generate_route_line (G := G) f "GET" ("/" +:+ resPlural f +:+ "/{id}") pp r g sw)
      as [rest Hrun].
    { apply param_operationId. tauto. }
    exists rest. unfold generateGet.
    etrans; [apply (lift_bind_run _ pp _ _ Hpp) |].
    etrans; [apply (lift_bind_run _ r _ _ Hr) |].
    etrans; [exact Hrun |]. by rewrite Hp.
  - intros order order' f gm Hf Hg. destruct (Hgm _ _ Hg) as (_ & _ & Hres).
    destruct (Hres f) as ([r Hr] & _).
    apply getMethod_returned in Hf as (Hpred & _ & Hp). rewrite Hpl in Hp.
    destruct (updatePred_in_range f Hpred) as [pp Hpp].
    destruct (generate_route_line (G := G) f "PUT" ("/" +:+ resPlural f +:+ "/{id}") pp r g sw)
      as [rest Hrun].
    { apply param_operationId. tauto. }
    exists rest. unfold generateUpdate.
    etrans; [apply (lift_bind_run _ pp _ _ Hpp) |].
    etrans; [apply (lift_bind_run _ r _ _ Hr) |].
    etrans; [exact Hrun |]. by rewrite Hp.
  - intros order order' f gm Hf Hg. destruct (Hgm _ _ Hg) as (_ & _ & Hres).
    destruct (Hres f) as ([r Hr] & _).
    apply getMethod_returned in Hf as (Hpred & _ & Hp). rewrite Hpl in Hp.
    destruct (deletePred_in_range f Hpred) as [pp Hpp].
    destruct (generate_route_line (G := G) f "DELETE" ("/" +:+ resPlural f +:+ "/{id}")
                pp r g sw) as [rest Hrun].
    { apply param_operationId. tauto. }
    exists rest. unfold generateDelete.
    etrans; [apply (lift_bind_run _ pp _ _ Hpp) |].
    etrans; [apply (lift_bind_run _ r _ _ Hr) |].
    etrans; [exact Hrun |]. by rewrite Hp.
  - intros order order' f gm Hf Hg. destruct (Hgm _ _ Hg) as (_ & _ & Hres).
    destruct (Hres f) as ([r Hr] & _).
    apply getMethod_returned in Hf as (Hpred & _ & Hp). rewrite Hpl in Hp.
    destruct (createPred_in_range f Hpred) as [pp Hpp].
    destruct (generate_route_line (G := G) f "POST" ("/" +:+ resPlural f) pp r g sw)
      as [rest Hrun].
    { apply param_operationId. tauto. }
    exists rest. unfold generateCreate.
    etrans; [apply (lift_bind_run _ pp _ _ Hpp) |].
    etrans; [apply (lift_bind_run _ r _ _ Hr) |].
    etrans; [exact Hrun |]. by rewrite Hp.
  - intros order order' f gm Hf Hg. destruct (Hgm _ _ Hg) as (_ & _ & Hres).
    destruct (Hres f) as (_ & [r Hr]).
    apply getMethod_returned in Hf as (Hpred & _ & Hp). rewrite Hpl in Hp.
    destruct (listPred_in_range f Hpred) as [pp Hpp].
    destruct (generate_route_line (G := G) f "GET" ("/" +:+ resPlural f) pp r g sw)
      as [rest Hrun].
    { apply param_operationId. tauto. }
    exists rest. unfold generateList.
    etrans; [apply (lift_bind_run _ pp _ _ Hpp) |].
    etrans; [apply (lift_bind_run _ r _ _ Hr) |].
    etrans; [exact Hrun |]. by rewrite Hp.
  - intros order ms f Hms Hin Hname Hcs.
    destruct (getMethods_returned _ _ _ _ _ _ _ Hms Hin) as (Hpred & _ & Hp).
    rewrite Hpl in Hp.
    destruct (performActionPred_in_range f Hpred) as ([pp Hpp] & [r Hr]).
    destruct (generate_route_line (G := G) f "POST"
                ("/" +:+ resPlural f +:+ "/{id}/" +:+ apiAction f Perform) pp r g sw)
      as [rest Hrun].
    { apply param_operationId. tauto. }
    exists rest. unfold generatePerformAction.
    etrans; [apply (lift_bind_run _ pp _ _ Hpp) |].
    etrans; [apply (lift_bind_run _ r _ _ Hr) |].
    etrans; [exact Hrun |]. rewrite Hp. unfold apiAction. rewrite Hname.
    change (Strings.TrimPrefix (Perform +:+ "Reboot") Perform) with "Reboot".
    by rewrite Hcs.
  - intros f st. done.
Qed.

End MatchedRoutes.

Section MatchedRouteRuns.

Import SwaggerGen Examples.
#[local] Existing Instance Reference.externals.

(** The route of [GetExtraDetails] on servers. *)
Lemma matched_routes_witness :
  plural parser = "servers" /\
  getM parser order1 = inr (Some mGet) /\
  exists rest,
    generateGet (G := unit) (Some mGet) (tt, []) =
      inr (tt, (tt, ("// swagger:route GET /servers/{id} server server_GetExtraDetails
", NoArgs) :: rest)).
Proof.
  assert (Hpl : plural parser = "servers") by reflexivity.
  assert (Hget : getM parser order1 = inr (Some mGet)) by reflexivity.
  split; [exact Hpl |]. split; [exact Hget |].
  destruct (proj1 (matched_routes (G := unit) parser tt [] Hpl) order1 mGet Hget)
    as [rest Hrun].
  exists rest. exact Hrun.
Defined.

Lemma NoDup_orderNoGet : NoDup orderNoGet.*1.
Proof. apply (bool_decide_unpack _). vm_compute. exact I. Qed.

(** C7 fails as stated: on a model that has [ValidateUpdateData] and
    [CustomizeDelete] but no [GetExtraDetails], the Update and the Delete
    method of the model and the Create method of the manager are matched,
    the Get method is not, and [generateCode] writes nothing: no matched
    method yields a route. *)
Lemma update_without_get_no_route :
  plural parserNoGet = "servers" /\
  legal_orders tManager tModelNoGet ordersNoGet /\
  updateM parserNoGet orderNoGet = inr (Some mUpdate) /\
  deleteM parserNoGet orderNoGet = inr (Some mDelete) /\
  createM parserNoGet orderM = inr (Some mCreate) /\
  getM parserNoGet orderNoGet = inr None /\
  generateCode (G := unit) ordersNoGet manIns tManager tModelNoGet (tt, [])
    = inr (tt, (tt, [])).
Proof.
  split; [reflexivity |]. split.
  { assert (Hm : range_order (Types.Type_Methods tModelNoGet) orderNoGet)
      by (apply range_order_list_to_map; [apply NoDup_orderNoGet | reflexivity]).
    pose proof range_order_manager. unfold legal_orders. cbn. tauto. }
  split; [reflexivity |]. split; [reflexivity |]. split; [reflexivity |].
  split; [reflexivity |]. vm_compute. reflexivity.
Qed.

End MatchedRouteRuns.

(** * The response of a List method *)

Section ListResponses.
Context `{Externals}.

Import SwaggerGen.

Local Abbreviation writes c :=
  (forall g sw, exists a out, c (g, sw) = inr (a, (g, (sw ++ out)%list))).

Ltac writes_all :=
  repeat first
    [ apply writes_sw_Do
    | apply writes_ret
    | apply writes_when
    | apply writes_forEach; intros ? _
    | apply writes_bind; [| intros ?]
    | match goal with
      | |- context [match ?x with Some _ => _ | None => _ end] => destruct x
      | |- context [if ?x then _ else _] => destruct x
      end ].

Lemma bind_run {S A B} (c : M S A) (k : A -> M S B) (st st' : S) (a : A) :
  c st = inr (a, st') -> (c ≫= k) st = k a st'.
Proof. intros E. unfold mbind, M_bind. by rewrite E. Qed.

(** The last thing a commenter does is to write its response, after what
    it wrote for the route and the parameter. *)
Lemma commenter_Do_ends {G} (c : commenter) (g : G) (sw : SnippetWriter) :
  exists pre,
    commenter_Do c (g, sw) = response_Do (c_response c) (g, (sw ++ pre)%list).
Proof.
  assert (Hroute : writes (route_Do (c_route c) : M (G * SnippetWriter) unit)).
  { unfold route_Do, line, lines, emptyLine. writes_all. }
  assert (Hparam : writes (parameter_Do (c_parameter c) : M (G * SnippetWriter) unit)).
  { unfold parameter_Do, parameter_do, line, lines. writes_all. }
  destruct (Hroute g sw) as ([] & o1 & E1).
  destruct (Hparam g (sw ++ o1)%list) as ([] & o2 & E2).
  exists (o1 ++ o2)%list. unfold commenter_Do.
  etrans; [apply (bind_run _ _ _ _ _ E1) |].
  etrans; [apply (bind_run _ _ _ _ _ E2) |].
  by rewrite app_assoc.
Qed.

(** C6, as the code has it: the response of a List method paired with a
    read method is a list response: [isList] is set, its output is the first
    result of the read method when that result passes the shape check and
    nil otherwise, and the body wrapper it would write has the array-valued
    output field followed by the limit, total and offset fields.
    [response.Do] writes that wrapper exactly when the result passes the
    shape check, [GetValidType] accepts it and the plural keyword is not
    empty, and [generateList] then ends with it.  When the result fails the
    shape check or [GetValidType] refuses it, as it does a type of
    jsonutils, the response is written as an empty struct with no wrapper;
    under an empty plural keyword the output type is written alone. *)
Theorem ListResult_wrapper (f getMethod : Method) :
  getPred getMethod = inr true ->
  let wrapper (r : response) (o : Types.Type_) : list (string * Args) :=
    [("// swagger:response " +:+ id r +:+ "
", NoArgs);
     ("type " +:+ id r +:+ " struct {
", NoArgs);
     ("// in:body
", NoArgs);
     ("Body struct {
", NoArgs);
     ("Output []$.type|raw$ " +:+ json_tag_nl (resPlural f), getArgs (Some o));
     ("Limit int " +:+ json_tag_nl "limit", NoArgs);
     ("Total int " +:+ json_tag_nl "total", NoArgs);
     ("Offset int " +:+ json_tag_nl "offset", NoArgs);
     ("}
", NoArgs);
     ("}
", NoArgs)] in
  exists (r : response) (out : Types.Type_),
    ListResult f getMethod = inr r /\
    Method_Resutls getMethod 0 = inr out /\
    output r = (if isStructPointer out then Some out else None) /\
    isList r = true /\
    bodyKey r = resPlural f /\
    (forall (G : Type) (o : Types.Type_) (st : G * SnippetWriter),
       bodyStruct r o st =
         inr (tt, (st.1, st.2 ++
           [("Body struct {
", NoArgs);
            ("Output []$.type|raw$ " +:+ json_tag_nl (resPlural f), getArgs (Some o));
            ("Limit int " +:+ json_tag_nl "limit", NoArgs);
            ("Total int " +:+ json_tag_nl "total", NoArgs);
            ("Offset int " +:+ json_tag_nl "offset", NoArgs);
            ("}
", NoArgs)])%list)) /\
    (forall (G : Type) (o : Types.Type_) (st : G * SnippetWriter),
       isStructPointer out = true -> GetValidType (Some out) = Some o ->
       resPlural f <> "" ->
       response_Do r st = inr (tt, (st.1, st.2 ++ wrapper r o)%list)) /\
    (forall (G : Type) (o : Types.Type_) (g : G) (sw : SnippetWriter),
       listPred f = inr true ->
       isStructPointer out = true -> GetValidType (Some out) = Some o ->
       resPlural f <> "" ->
       exists pre,
         generateList (Some f) (Some getMethod) (g, sw)
         = inr (tt, (g, sw ++ pre ++ wrapper r o)%list)) /\
    (forall (G : Type) (st : G * SnippetWriter),
       isStructPointer out = false \/ GetValidType (Some out) = None ->
       response_Do r st =
         inr (tt, (st.1, st.2 ++
           [("// swagger:response " +:+ id r +:+ "
", NoArgs);
            ("type " +:+ id r +:+ " struct {
", NoArgs);
            ("}
", NoArgs)])%list)) /\
    (forall (G : Type) (o : Types.Type_) (st : G * SnippetWriter),
       isStructPointer out = true -> GetValidType (Some out) = Some o ->
       resPlural f = "" ->
       response_Do r st =
         inr (tt, (st.1, st.2 ++
           [("// swagger:response " +:+ id r +:+ "
", NoArgs);
            ("type " +:+ id r +:+ " struct {
", NoArgs);
            ("// in:body
", NoArgs);
            ("$.type|raw$", getArgs (Some o));
            ("}
", NoArgs)])%list)).
Proof.
  intros Hget wrapper. subst wrapper. cbn beta.
  destruct (getPred_results _ Hget) as (sig & out & Hsig & Hout).
  assert (Hkey : (if decide (resPlural f = "") then resPlural f else resPlural f)
                 = resPlural f) by (by destruct (decide _)).
  assert (Hr : exists r, ListResult f getMethod = inr r /\
                         output r = (if isStructPointer out then Some out else None) /\
                         isList r = true /\ bodyKey r = resPlural f).
  { unfold ListResult, ResultByMethod, resultByMethod. rewrite Hsig. cbn. rewrite Hout. cbn.
    eexists. split; [reflexivity |]. cbn [output isList bodyKey].
    split; [by destruct (isStructPointer out) |]. split; [reflexivity | exact Hkey]. }
  destruct Hr as (r & Hr & Ho & Hl & Hk). exists r, out.
  assert (Hvalid : forall o, isStructPointer out = true ->
                     GetValidType (Some out) = Some o -> response_getOutput r = Some o).
  { intros o Hs Hv. unfold response_getOutput. by rewrite Ho, Hs. }
  assert (Hwrap : forall (G : Type) (o : Types.Type_) (st : G * SnippetWriter),
            isStructPointer out = true -> GetValidType (Some out) = Some o ->
            resPlural f <> "" ->
            response_Do r st =
              inr (tt, (st.1, st.2 ++
                [("// swagger:response " +:+ id r +:+ "
", NoArgs);
                 ("type " +:+ id r +:+ " struct {
", NoArgs);
                 ("// in:body
", NoArgs);
                 ("Body struct {
", NoArgs);
                 ("Output []$.type|raw$ " +:+ json_tag_nl (resPlural f), getArgs (Some o));
                 ("Limit int " +:+ json_tag_nl "limit", NoArgs);
                 ("Total int " +:+ json_tag_nl "total", NoArgs);
                 ("Offset int " +:+ json_tag_nl "offset", NoArgs);
                 ("}
", NoArgs);
                 ("}
", NoArgs)])%list)).
  { intros G o st Hs Hv Hne. rewrite <- Hk.
    apply response_Do_list; [done | by apply Hvalid | by rewrite Hk]. }
  split; [exact Hr |].
  split; [unfold Method_Resutls; rewrite Hsig; exact Hout |].
  split; [exact Ho |]. split; [exact Hl |]. split; [exact Hk |].
  split; [| split; [| split; [| split]]].
  - intros G o st. rewrite <- Hk. by apply bodyStruct_list.
  - exact Hwrap.
  - intros G o g sw Hlist Hs Hv Hne.
    destruct (listPred_in_range f Hlist) as [pp Hpp].
    destruct (commenter_Do_ends (G := G)
                {| c_route := route_List f pp r; c_parameter := pp; c_response := r |}
                g sw) as [pre Hends].
    exists pre. unfold generateList.
    etrans; [apply (lift_bind_run _ pp _ _ Hpp) |].
    etrans; [apply (lift_bind_run _ r _ _ Hr) |].
    etrans; [exact Hends |]. cbn [c_response].
    etrans; [apply (Hwrap G o _ Hs Hv Hne) |]. cbn [fst snd].
    by rewrite <- app_assoc.
  - intros G st Hbad. apply response_Do_empty.
    unfold response_getOutput. rewrite Ho.
    destruct Hbad as [-> | Hv]; [reflexivity |].
    by destruct (isStructPointer out).
  - intros G o st Hs Hv He. apply response_Do_bare; [by apply Hvalid |]. by rewrite Hk.
Qed.

End ListResponses.

Section ListResponseRuns.

Import SwaggerGen Examples.
#[local] Existing Instance Reference.externals.

(** The list response of the servers, paired with [GetExtraDetails]: the
    wrapper is written. *)
Lemma ListResult_wrapper_witness :
  getPred mGet = inr true /\
  exists r : response,
    ListResult mList mGet = inr r /\ isList r = true /\
    written (response_Do (G := unit) r (tt, [])) =
      Some ["// swagger:response server_ListItemFilterOutput
";
            "type server_ListItemFilterOutput struct {
";
            "// in:body
";
            "Body struct {
";
            "Output []$.type|raw$ " +:+ json_tag_nl "servers";
            "Limit int " +:+ json_tag_nl "limit";
            "Total int " +:+ json_tag_nl "total";
            "Offset int " +:+ json_tag_nl "offset";
            "}
";
            "}
"].
Proof.
  assert (Hget : getPred mGet = inr true) by reflexivity.
  split; [exact Hget |].
  destruct (ListResult_wrapper mList mGet Hget)
    as (r & out & Hr & Hout & _ & Hl & _ & _ & Hdo & _).
  exists r. split; [exact Hr |]. split; [exact Hl |].
  assert (Hrun : ListResult mList mGet
                 = inr {| output := Some tServerDetails;
                          id := "server_ListItemFilterOutput"; bodyKey := "servers";
                          isList := true; r_errorMsgs := [] |}) by reflexivity.
  rewrite Hr in Hrun. injection Hrun as ->.
  assert (Hres : Method_Resutls mGet 0 = inr tServerDetails) by reflexivity.
  rewrite Hout in Hres. injection Hres as ->.
  assert (Hne : resPlural mList <> "") by discriminate.
  assert (Hs : isStructPointer tServerDetails = true) by reflexivity.
  assert (Hv : GetValidType (Some tServerDetails)
               = Some (structOf apisComputePkg "ServerDetails" [] ∅)) by reflexivity.
  exact (eq_trans (f_equal written (Hdo unit _ (tt, []) Hs Hv Hne)) eq_refl).
Defined.

(** C6 fails as stated: a read method that returns [*jsonutils.JSONDict]
    has the arity of the Get convention and its result passes the shape
    check, but [GetValidType] refuses a type of jsonutils; the response of
    the List method paired with it is a list response that is written as an
    empty struct, with no limit, total or offset field. *)
Lemma ListResult_jsonutils_no_wrapper :
  listPred mList = inr true /\
  getPred mGetJSON = inr true /\
  isStructPointer tJSONDict = true /\
  exists r : response,
    ListResult mList mGetJSON = inr r /\ isList r = true /\
    written (response_Do (G := unit) r (tt, [])) =
      Some ["// swagger:response server_ListItemFilterOutput
";
            "type server_ListItemFilterOutput struct {
";
            "}
"].
Proof.
  split; [reflexivity |]. split; [reflexivity |]. split; [reflexivity |].
  eexists. split; [reflexivity |]. split; [reflexivity |].
  vm_compute; reflexivity.
Qed.

End ListResponseRuns.
